(** * Adafruit CAP1188 driver: register access over I2C and SPI

    A shallow embedding of the two implementations of the driver that the
    repository holds:

    - [Legacy]  : [Adafruit_CAP1188.cpp], which talks to [Wire], to an
                  [SPIClass] or to bare pins (bit-banged SPI);
    - [BusIO]   : the port of the same file to [Adafruit_I2CDevice] and
                  [Adafruit_SPIDevice].

    Driver methods are programs of a small free monad [io] over the calls
    the driver makes into the Arduino platform.  A program is run against
    an arbitrary environment (a handler with a state of its own); the run
    yields the method's outcome and the trace of calls with their answers. *)

From Stdlib Require Import ZArith List Bool String Lia.
Import ListNotations.
Open Scope Z_scope.

Set Implicit Arguments.

(** ** Fixed-width integers *)

(** Conversion to [uint8_t]. *)
Definition u8 (x : Z) : Z := x mod 256.

Definition is_u8 (x : Z) : Prop := 0 <= x < 256.

(** ** Programs over external calls *)

(** Undefined behaviour the model makes explicit. *)
Inductive fault : Type :=
  | NullI2cDevice   (* call through a null [Adafruit_I2CDevice *] *)
  | NullSpiDevice.  (* call through a null [Adafruit_SPIDevice *] *)

Inductive io (E : Type -> Type) (R : Type) : Type :=
  | Ret (r : R)
  | Vis (X : Type) (e : E X) (k : X -> io E R)
  | Crash (u : fault).

Arguments Ret {E R} r.

Arguments Vis {E R X} e k.

Arguments Crash {E R} u.

Fixpoint bind {E A B} (p : io E A) (f : A -> io E B) : io E B :=
  match p with
  | Ret a => f a
  | Vis e k => Vis e (fun x => bind (k x) f)
  | Crash u => Crash u
  end.

Definition call {E X} (e : E X) : io E X := Vis e (fun x => Ret x).

Declare Scope io_scope.

Delimit Scope io_scope with io.

Notation "x <- p ;; q" := (bind p (fun x => q))
  (at level 61, p at next level, right associativity) : io_scope.

Notation "p ;; q" := (bind p (fun _ => q))
  (at level 61, right associativity) : io_scope.

Open Scope io_scope.

Inductive outcome (R : Type) : Type :=
  | Done (r : R)
  | Crashed (u : fault).

Arguments Done {R} r.

Arguments Crashed {R} u.

Record result (W Ev R : Type) : Type := mkResult {
  res : outcome R;     (* what the method returned *)
  world : W;           (* the environment afterwards *)
  trace : list Ev      (* the calls made, oldest first, with their answers *)
}.

Section Run.
Context {E : Type -> Type} {W Ev : Type}.

(** The environment: it answers every call and moves to a new state. *)
Variable handle : forall X, E X -> W -> X * W.
(** What a bus monitor records of a call and its answer. *)
Variable log : forall X, E X -> X -> Ev.

Fixpoint run {R} (p : io E R) (w : W) : result W Ev R :=
  match p with
  | Ret r => mkResult (Done r) w []
  | Crash u => mkResult (Crashed u) w []
  | Vis e k =>
      let xw := handle e w in
      let r := run (k (fst xw)) (snd xw) in
      mkResult (res r) (world r) (log e (fst xw) :: trace r)
  end.

(** Sequencing of runs. *)
Definition and_then {A B} (r1 : result W Ev A)
    (f : A -> W -> result W Ev B) : result W Ev B :=
  match res r1 with
  | Done a =>
      let r2 := f a (world r1) in
      mkResult (res r2) (world r2) (trace r1 ++ trace r2)
  | Crashed u => mkResult (Crashed u) (world r1) (trace r1)
  end.
End Run.

(** ** The Arduino platform the driver calls into *)

Module Arduino.

(** A [TwoWire *] or [SPIClass *]: the identity of a bus object. *)
Definition ptr : Type := Z.

Inductive pin_mode : Type := INPUT | OUTPUT.
Inductive bit_order : Type := LSBFIRST | MSBFIRST.
Inductive spi_mode : Type := SPI_MODE0 | SPI_MODE1 | SPI_MODE2 | SPI_MODE3.

Definition LOW : Z := 0.
Definition HIGH : Z := 1.

(** [digitalWrite] drives the pin high for every non-zero value. *)
Definition level (val : Z) : bool := negb (val =? 0).

Record SPISettings : Type := mkSPISettings {
  spi_clock : Z; spi_order : bit_order; spi_datamode : spi_mode
}.

(** [new Adafruit_I2CDevice(addr, theWire)] *)
Record Adafruit_I2CDevice : Type := mkI2CDevice {
  i2c_addr : Z; i2c_wire : ptr
}.

(** [new Adafruit_SPIDevice(...)], in its two forms. *)
Inductive Adafruit_SPIDevice : Type :=
  | HardwareSPIDevice (cspin freq : Z) (order : bit_order) (mode : spi_mode)
                    (theSPI : ptr)
  | SoftwareSPIDevice (cspin sckpin misopin mosipin freq : Z).

(** The calls.  The index is the type of the answer; calls whose answer
    the driver never looks at answer [unit]. *)
Inductive platformE : Type -> Type :=
  | PinMode (pin : Z) (mode : pin_mode) : platformE unit
  | DigitalWrite (pin val : Z) : platformE unit
  | DigitalRead (pin : Z) : platformE Z
  | Delay (ms : Z) : platformE unit
  | SerialPrint (s : string) : platformE unit
  | SerialPrintlnHex (v : Z) : platformE unit
  | WireBegin (wire : ptr) : platformE unit
  | WireBeginTransmission (wire : ptr) (addr : Z) : platformE unit
  | WireWrite (wire : ptr) (b : Z) : platformE unit
  | WireEndTransmission (wire : ptr) : platformE unit
  | WireRequestFrom (wire : ptr) (addr quantity : Z) : platformE unit
  | WireRead (wire : ptr) : platformE Z
  | SpiBegin (spi : ptr) : platformE unit
  | SpiBeginTransaction (spi : ptr) (s : SPISettings) : platformE unit
  | SpiEndTransaction (spi : ptr) : platformE unit
  | SpiTransfer (spi : ptr) (data : Z) : platformE Z
  | I2cDevBegin (d : Adafruit_I2CDevice) : platformE bool
  | I2cDevWrite (d : Adafruit_I2CDevice) (bytes : list Z) : platformE bool
  | I2cDevWriteThenRead (d : Adafruit_I2CDevice) (out : list Z)
                      (read_len : nat) : platformE (bool * list Z)
  | SpiDevBegin (d : Adafruit_SPIDevice) : platformE bool
  | SpiDevWrite (d : Adafruit_SPIDevice) (bytes : list Z) : platformE bool
  | SpiDevWriteThenRead (d : Adafruit_SPIDevice) (out : list Z)
                      (read_len : nat) : platformE (bool * list Z).

(** What is seen of a call from outside: the call and its answer. *)
Inductive event : Type :=
  | EvPinMode (pin : Z) (mode : pin_mode)
  | EvDigitalWrite (pin val : Z)
  | EvDigitalRead (pin : Z) (answer : Z)
  | EvDelay (ms : Z)
  | EvSerialPrint (s : string)
  | EvSerialPrintlnHex (v : Z)
  | EvWireBegin (wire : ptr)
  | EvWireBeginTransmission (wire : ptr) (addr : Z)
  | EvWireWrite (wire : ptr) (b : Z)
  | EvWireEndTransmission (wire : ptr)
  | EvWireRequestFrom (wire : ptr) (addr quantity : Z)
  | EvWireRead (wire : ptr) (answer : Z)
  | EvSpiBegin (spi : ptr)
  | EvSpiBeginTransaction (spi : ptr) (s : SPISettings)
  | EvSpiEndTransaction (spi : ptr)
  | EvSpiTransfer (spi : ptr) (data : Z) (answer : Z)
  | EvI2cDevBegin (d : Adafruit_I2CDevice) (ok : bool)
  | EvI2cDevWrite (d : Adafruit_I2CDevice) (bytes : list Z) (ok : bool)
  | EvI2cDevWriteThenRead (d : Adafruit_I2CDevice) (out : list Z)
                        (read_len : nat) (ok : bool) (data : list Z)
  | EvSpiDevBegin (d : Adafruit_SPIDevice) (ok : bool)
  | EvSpiDevWrite (d : Adafruit_SPIDevice) (bytes : list Z) (ok : bool)
  | EvSpiDevWriteThenRead (d : Adafruit_SPIDevice) (out : list Z)
                        (read_len : nat) (ok : bool) (data : list Z).

Definition log (X : Type) (e : platformE X) : X -> event :=
  match e in platformE X return X -> event with
  | PinMode pin mode => fun _ => EvPinMode pin mode
  | DigitalWrite pin val => fun _ => EvDigitalWrite pin val
  | DigitalRead pin => fun a => EvDigitalRead pin a
  | Delay ms => fun _ => EvDelay ms
  | SerialPrint s => fun _ => EvSerialPrint s
  | SerialPrintlnHex v => fun _ => EvSerialPrintlnHex v
  | WireBegin wire => fun _ => EvWireBegin wire
  | WireBeginTransmission wire addr => fun _ =>
      EvWireBeginTransmission wire addr
  | WireWrite wire b => fun _ => EvWireWrite wire b
  | WireEndTransmission wire => fun _ => EvWireEndTransmission wire
  | WireRequestFrom wire addr q => fun _ => EvWireRequestFrom wire addr q
  | WireRead wire => fun a => EvWireRead wire a
  | SpiBegin spi => fun _ => EvSpiBegin spi
  | SpiBeginTransaction spi s => fun _ => EvSpiBeginTransaction spi s
  | SpiEndTransaction spi => fun _ => EvSpiEndTransaction spi
  | SpiTransfer spi data => fun a => EvSpiTransfer spi data a
  | I2cDevBegin d => fun ok => EvI2cDevBegin d ok
  | I2cDevWrite d bytes => fun ok => EvI2cDevWrite d bytes ok
  | I2cDevWriteThenRead d out n => fun a =>
      EvI2cDevWriteThenRead d out n (fst a) (snd a)
  | SpiDevBegin d => fun ok => EvSpiDevBegin d ok
  | SpiDevWrite d bytes => fun ok => EvSpiDevWrite d bytes ok
  | SpiDevWriteThenRead d out n => fun a =>
      EvSpiDevWriteThenRead d out n (fst a) (snd a)
  end.

(** An environment: a state and the way it answers each call. *)
Definition handler (W : Type) : Type := forall X, platformE X -> W -> X * W.

Definition exec {W R} (h : handler W) (p : io platformE R) (w : W)
  : result W event R := run h log p w.

(** The statements of the sketch, as programs. *)
Definition pinMode (pin : Z) (mode : pin_mode) := call (PinMode pin mode).
Definition digitalWrite (pin val : Z) := call (DigitalWrite pin val).
Definition digitalRead (pin : Z) := call (DigitalRead pin).
Definition delay (ms : Z) := call (Delay ms).
Definition Serial_print (s : string) := call (SerialPrint s).
Definition Serial_println_HEX (v : Z) := call (SerialPrintlnHex v).

(** [write_then_read] stores the bytes it reads at the start of the
    read buffer.  The environment answers the call with the bytes it
    stored, [data]; [store_read buffer data n] is the buffer after the
    first [n] of its places have taken them.  A place for which no byte
    came keeps what it held: the driver passes the buffer it has filled
    for the write, and does not look at the result of the call. *)
Fixpoint store_read (buffer data : list Z) (n : nat) : list Z :=
  match n, buffer, data with
  | S n', _ :: rest, b :: data' => u8 b :: store_read rest data' n'
  | _, _, _ => buffer
  end.

End Arduino.

(** ** Register map and protocol constants ([Adafruit_CAP1188.h]) *)

Definition CAP1188_I2CADDR : Z := 0x29.

Definition CAP1188_SENINPUTSTATUS : Z := 0x3.

Definition CAP1188_MTBLK : Z := 0x2A.

Definition CAP1188_LEDLINK : Z := 0x72.

Definition CAP1188_PRODID : Z := 0xFD.

Definition CAP1188_MANUID : Z := 0xFE.

Definition CAP1188_STANDBYCFG : Z := 0x41.

Definition CAP1188_REV : Z := 0xFF.

Definition CAP1188_MAIN : Z := 0x00.

Definition CAP1188_MAIN_INT : Z := 0x01.

Definition CAP1188_LEDPOL : Z := 0x73.

(** ** Register accesses, as a monitor on the bus sees them *)

Inductive access : Type :=
  | RegRead (reg val : Z)     (* the chip was asked for [reg] and answered [val] *)
  | RegWrite (reg val : Z)    (* [val] was stored in [reg] *)
  | Printed (val : Z).        (* [val] went to the serial console, in hex *)

Definition is_read (a : access) : bool :=
  match a with RegRead _ _ => true | _ => false end.

Definition is_write (a : access) : bool :=
  match a with RegWrite _ _ => true | _ => false end.

Definition reads (l : list access) : list access := filter is_read l.

Definition writes (l : list access) : list access := filter is_write l.

(** A bus monitor decodes the calls of a trace into register accesses.  It
    is a state machine of its own, written from the protocol the chip
    speaks and not from the driver. *)
Record monitor : Type := mkMonitor {
  mstate : Type;
  minit : mstate;
  quiet : mstate -> bool;     (* no transaction is open *)
  observe : mstate -> Arduino.event -> mstate * list access
}.

Fixpoint watch (m : monitor) (s : mstate m) (t : list Arduino.event)
  : mstate m * list access :=
  match t with
  | [] => (s, [])
  | e :: t' =>
      let o := observe m s e in
      let r := watch m (fst o) t' in
      (fst r, snd o ++ snd r)
  end.

Definition accesses (m : monitor) (t : list Arduino.event) : list access :=
  snd (watch m (minit m) t).

(** ** A logic of watched runs *)

(** [shows h m p Q]: from every environment state and every quiet monitor
    state, [p] returns some [r], leaves the monitor quiet, and the
    monitor has decoded accesses [l] with [Q r l]. *)
Definition shows {W : Type} (h : Arduino.handler W) (m : monitor) {R}
    (p : io Arduino.platformE R) (Q : R -> list access -> Prop) : Prop :=
  forall (w : W) (s : mstate m), quiet m s = true ->
    exists r, res (Arduino.exec h p w) = Done r
      /\ quiet m (fst (watch m s (trace (Arduino.exec h p w)))) = true
      /\ Q r (snd (watch m s (trace (Arduino.exec h p w)))).

(** ** The BusIO implementation *)

Module BusIO.
Import Arduino.

Record Adafruit_CAP1188 : Type := mkDriver {
  i2c_dev : option Adafruit_I2CDevice;   (* = NULL *)
  spi_dev : option Adafruit_SPIDevice;   (* = NULL *)
  _resetpin : Z
}.

(** [Adafruit_CAP1188(int8_t resetpin)] *)
Definition new_I2C (resetpin : Z) : Adafruit_CAP1188 :=
  {| i2c_dev := None; spi_dev := None; _resetpin := resetpin |}.

(** [Adafruit_CAP1188(uint8_t cspin, int8_t resetpin, SPIClass *theSPI)] *)
Definition new_HardwareSPI (cspin resetpin : Z) (theSPI : ptr)
  : Adafruit_CAP1188 :=
  {| i2c_dev := None;
     spi_dev := Some (HardwareSPIDevice cspin 2000000 MSBFIRST SPI_MODE0
                                        theSPI);
     _resetpin := resetpin |}.

(** [Adafruit_CAP1188(clkpin, misopin, mosipin, cspin, resetpin)] *)
Definition new_SoftwareSPI (clkpin misopin mosipin cspin resetpin : Z)
  : Adafruit_CAP1188 :=
  {| i2c_dev := None;
     spi_dev := Some (SoftwareSPIDevice cspin clkpin misopin mosipin
                                        2000000);
     _resetpin := resetpin |}.

Definition readRegister (self : Adafruit_CAP1188) (reg : Z)
  : io platformE Z :=
  let buffer := [reg; 0; 0] in
  match i2c_dev self with
  | Some i2c =>
      a <- call (I2cDevWriteThenRead i2c (firstn 1 buffer) 1);;
      let buffer := store_read buffer (snd a) 1 in
      Ret (nth 0 buffer 0)
  | None =>
      let buffer := [0x7D; reg; 0x7F] in
      match spi_dev self with
      | Some spi =>
          a <- call (SpiDevWriteThenRead spi (firstn 3 buffer) 1);;
          let buffer := store_read buffer (snd a) 1 in
          Ret (nth 0 buffer 0)
      | None => Crash NullSpiDevice
      end
  end.

Definition writeRegister (self : Adafruit_CAP1188) (reg value : Z)
  : io platformE unit :=
  let buffer := [reg; value; 0; 0] in
  match i2c_dev self with
  | Some i2c =>
      call (I2cDevWrite i2c (firstn 2 buffer));; Ret tt
  | None =>
      let buffer := [0x7D; reg; 0x7E; value] in
      match spi_dev self with
      | Some spi => call (SpiDevWrite spi (firstn 4 buffer));; Ret tt
      | None => Crash NullSpiDevice
      end
  end.

(** [begin] from the reset pulse on: what is left once the bus is open. *)
Definition begin_opened (self : Adafruit_CAP1188) : io platformE bool :=
  (if negb (_resetpin self =? -1) then
     pinMode (_resetpin self) OUTPUT;;
     digitalWrite (_resetpin self) LOW;;
     delay 100;;
     digitalWrite (_resetpin self) HIGH;;
     delay 100;;
     digitalWrite (_resetpin self) LOW;;
     delay 100
   else Ret tt);;
  readRegister self CAP1188_PRODID;;
  Serial_print "Product ID: 0x";;
  v <- readRegister self CAP1188_PRODID;;
  Serial_println_HEX v;;
  Serial_print "Manuf. ID: 0x";;
  v <- readRegister self CAP1188_MANUID;;
  Serial_println_HEX v;;
  Serial_print "Revision: 0x";;
  v <- readRegister self CAP1188_REV;;
  Serial_println_HEX v;;
  prod <- readRegister self CAP1188_PRODID;;
  if negb (prod =? 0x50) then Ret false else
  manu <- readRegister self CAP1188_MANUID;;
  if negb (manu =? 0x5D) then Ret false else
  rev <- readRegister self CAP1188_REV;;
  if negb (rev =? 0x83) then Ret false else
  writeRegister self CAP1188_MTBLK 0;;
  writeRegister self CAP1188_LEDLINK 0xFF;;
  writeRegister self CAP1188_STANDBYCFG 0x30;;
  Ret true.

(** [begin] returns its verdict and the object as it leaves it. *)
Definition begin (self : Adafruit_CAP1188) (i2caddr : Z) (theWire : ptr)
  : io platformE (bool * Adafruit_CAP1188) :=
  match spi_dev self with
  | Some spi =>
      ok <- call (SpiDevBegin spi);;
      if negb ok then Ret (false, self) else
      b <- begin_opened self;; Ret (b, self)
  | None =>
      let i2c := mkI2CDevice i2caddr theWire in
      let self := {| i2c_dev := Some i2c; spi_dev := spi_dev self;
                     _resetpin := _resetpin self |} in
      ok <- call (I2cDevBegin i2c);;
      if negb ok then Ret (false, self) else
      b <- begin_opened self;; Ret (b, self)
  end.

Definition touched (self : Adafruit_CAP1188) : io platformE Z :=
  t <- readRegister self CAP1188_SENINPUTSTATUS;;
  (if negb (t =? 0) then
     main <- readRegister self CAP1188_MAIN;;
     writeRegister self CAP1188_MAIN
                   (u8 (Z.land main (Z.lnot CAP1188_MAIN_INT)))
   else Ret tt);;
  Ret t.

Definition LEDpolarity (self : Adafruit_CAP1188) (inverted : Z)
  : io platformE unit :=
  writeRegister self CAP1188_LEDPOL inverted.

End BusIO.

(** ** The implementation on Wire, SPIClass and bare pins
       ([Adafruit_CAP1188.cpp]) *)

Module Legacy.
Import Arduino.

(** The fields the methods use.  The class declaration of this
    implementation is not among the sources; fields are taken wide
    enough to hold what the constructors and [begin] store in them. *)
Record Adafruit_CAP1188 : Type := mkDriver {
  _i2c : bool;
  _i2caddr : Z;
  _resetpin : Z;
  _cs : Z;
  _clk : Z;
  _mosi : Z;
  _miso : Z;
  _wire : ptr;
  _spi : ptr
}.

(** A constructor assigns some fields and leaves the others as the
    storage [mem] of the object held them. *)

(** [Adafruit_CAP1188(int8_t resetpin)] *)
Definition new_I2C (mem : Adafruit_CAP1188) (resetpin : Z)
  : Adafruit_CAP1188 :=
  {| _i2c := true; _i2caddr := _i2caddr mem; _resetpin := resetpin;
     _cs := _cs mem; _clk := _clk mem; _mosi := _mosi mem;
     _miso := _miso mem; _wire := _wire mem; _spi := _spi mem |}.

(** [Adafruit_CAP1188(int8_t cspin, int8_t resetpin, SPIClass *theSPI)] *)
Definition new_HardwareSPI (mem : Adafruit_CAP1188) (cspin resetpin : Z)
    (theSPI : ptr) : Adafruit_CAP1188 :=
  {| _i2c := false; _i2caddr := _i2caddr mem; _resetpin := resetpin;
     _cs := cspin; _clk := -1; _mosi := _mosi mem;
     _miso := _miso mem; _wire := _wire mem; _spi := theSPI |}.

(** [Adafruit_CAP1188(clkpin, misopin, mosipin, cspin, resetpin)] *)
Definition new_SoftwareSPI (mem : Adafruit_CAP1188)
    (clkpin misopin mosipin cspin resetpin : Z) : Adafruit_CAP1188 :=
  {| _i2c := false; _i2caddr := _i2caddr mem; _resetpin := resetpin;
     _cs := cspin; _clk := clkpin; _mosi := mosipin;
     _miso := misopin; _wire := _wire mem; _spi := _spi mem |}.

Definition spi_begin (self : Adafruit_CAP1188) : io platformE unit :=
  call (SpiBeginTransaction (_spi self)
                            (mkSPISettings 2000000 MSBFIRST SPI_MODE0)).

Definition spi_end (self : Adafruit_CAP1188) : io platformE unit :=
  call (SpiEndTransaction (_spi self)).

Definition i2cwrite (self : Adafruit_CAP1188) (x : Z) : io platformE unit :=
  call (WireWrite (_wire self) x).

(** The loop of [spixfer]: [n] iterations are left, the next one is
    for bit [i = n - 1]. *)
Fixpoint spixfer_loop (self : Adafruit_CAP1188) (data : Z) (n : nat)
    (reply : Z) : io platformE Z :=
  match n with
  | O => Ret reply
  | S i =>
      let reply := u8 (Z.shiftl reply 1) in
      digitalWrite (_clk self) LOW;;
      digitalWrite (_mosi self) (Z.land data (Z.shiftl 1 (Z.of_nat i)));;
      digitalWrite (_clk self) HIGH;;
      miso <- digitalRead (_miso self);;
      let reply := if negb (miso =? 0) then Z.lor reply 1 else reply in
      spixfer_loop self data i reply
  end.

Definition spixfer (self : Adafruit_CAP1188) (data : Z) : io platformE Z :=
  if _clk self =? -1 then
    a <- call (SpiTransfer (_spi self) data);; Ret (u8 a)
  else
    spixfer_loop self data 8 0.

Definition readRegister (self : Adafruit_CAP1188) (reg : Z)
  : io platformE Z :=
  if _i2c self then
    call (WireBeginTransmission (_wire self) (_i2caddr self));;
    i2cwrite self reg;;
    call (WireEndTransmission (_wire self));;
    call (WireRequestFrom (_wire self) (_i2caddr self) 1);;
    a <- call (WireRead (_wire self));;
    Ret (u8 a)
  else
    spi_begin self;;
    digitalWrite (_cs self) LOW;;
    spixfer self 0x7D;;
    spixfer self reg;;
    digitalWrite (_cs self) HIGH;;
    digitalWrite (_cs self) LOW;;
    spixfer self 0x7F;;
    reply <- spixfer self 0;;
    digitalWrite (_cs self) HIGH;;
    spi_end self;;
    Ret reply.

Definition writeRegister (self : Adafruit_CAP1188) (reg value : Z)
  : io platformE unit :=
  if _i2c self then
    call (WireBeginTransmission (_wire self) (_i2caddr self));;
    i2cwrite self reg;;
    i2cwrite self value;;
    call (WireEndTransmission (_wire self))
  else
    spi_begin self;;
    digitalWrite (_cs self) LOW;;
    spixfer self 0x7D;;
    spixfer self reg;;
    digitalWrite (_cs self) HIGH;;
    digitalWrite (_cs self) LOW;;
    spixfer self 0x7E;;
    spixfer self value;;
    digitalWrite (_cs self) HIGH;;
    spi_end self.

(** [begin] from the reset pulse on. *)
Definition begin_opened (self : Adafruit_CAP1188) : io platformE bool :=
  (if negb (_resetpin self =? -1) then
     pinMode (_resetpin self) OUTPUT;;
     digitalWrite (_resetpin self) LOW;;
     delay 100;;
     digitalWrite (_resetpin self) HIGH;;
     delay 100;;
     digitalWrite (_resetpin self) LOW;;
     delay 100
   else Ret tt);;
  readRegister self CAP1188_PRODID;;
  Serial_print "Product ID: 0x";;
  v <- readRegister self CAP1188_PRODID;;
  Serial_println_HEX v;;
  Serial_print "Manuf. ID: 0x";;
  v <- readRegister self CAP1188_MANUID;;
  Serial_println_HEX v;;
  Serial_print "Revision: 0x";;
  v <- readRegister self CAP1188_REV;;
  Serial_println_HEX v;;
  prod <- readRegister self CAP1188_PRODID;;
  if negb (prod =? 0x50) then Ret false else
  manu <- readRegister self CAP1188_MANUID;;
  if negb (manu =? 0x5D) then Ret false else
  rev <- readRegister self CAP1188_REV;;
  if negb (rev =? 0x83) then Ret false else
  writeRegister self CAP1188_MTBLK 0;;
  writeRegister self CAP1188_LEDLINK 0xFF;;
  writeRegister self CAP1188_STANDBYCFG 0x30;;
  Ret true.

Definition begin (self : Adafruit_CAP1188) (i2caddr : Z) (theWire : ptr)
  : io platformE (bool * Adafruit_CAP1188) :=
  if _i2c self then
    let self := {| _i2c := _i2c self; _i2caddr := i2caddr;
                   _resetpin := _resetpin self; _cs := _cs self;
                   _clk := _clk self; _mosi := _mosi self;
                   _miso := _miso self; _wire := theWire;
                   _spi := _spi self |} in
    call (WireBegin (_wire self));;
    b <- begin_opened self;; Ret (b, self)
  else if _clk self =? -1 then
    pinMode (_cs self) OUTPUT;;
    digitalWrite (_cs self) HIGH;;
    call (SpiBegin (_spi self));;
    b <- begin_opened self;; Ret (b, self)
  else
    pinMode (_clk self) OUTPUT;;
    pinMode (_mosi self) OUTPUT;;
    pinMode (_cs self) OUTPUT;;
    digitalWrite (_cs self) HIGH;;
    digitalWrite (_clk self) HIGH;;
    b <- begin_opened self;; Ret (b, self).

Definition touched (self : Adafruit_CAP1188) : io platformE Z :=
  t <- readRegister self CAP1188_SENINPUTSTATUS;;
  (if negb (t =? 0) then
     main <- readRegister self CAP1188_MAIN;;
     writeRegister self CAP1188_MAIN
                   (u8 (Z.land main (Z.lnot CAP1188_MAIN_INT)))
   else Ret tt);;
  Ret t.

Definition LEDpolarity (self : Adafruit_CAP1188) (inverted : Z)
  : io platformE unit :=
  writeRegister self CAP1188_LEDPOL inverted.

End Legacy.

(** ** What the two implementations share

    From the reset pulse on, [begin] is the same text in both files, and so
    are [touched] and [LEDpolarity]; they differ in [readRegister] and
    [writeRegister] only. *)

Section DriverLogic.
Import Arduino.
Variable readRegister : Z -> io platformE Z.
Variable writeRegister : Z -> Z -> io platformE unit.

Definition reset_pulse (resetpin : Z) : io platformE unit :=
  if negb (resetpin =? -1) then
    pinMode resetpin OUTPUT;;
    digitalWrite resetpin LOW;;
    delay 100;;
    digitalWrite resetpin HIGH;;
    delay 100;;
    digitalWrite resetpin LOW;;
    delay 100
  else Ret tt.

Definition identify : io platformE bool :=
  readRegister CAP1188_PRODID;;
  Serial_print "Product ID: 0x";;
  v <- readRegister CAP1188_PRODID;;
  Serial_println_HEX v;;
  Serial_print "Manuf. ID: 0x";;
  v <- readRegister CAP1188_MANUID;;
  Serial_println_HEX v;;
  Serial_print "Revision: 0x";;
  v <- readRegister CAP1188_REV;;
  Serial_println_HEX v;;
  prod <- readRegister CAP1188_PRODID;;
  if negb (prod =? 0x50) then Ret false else
  manu <- readRegister CAP1188_MANUID;;
  if negb (manu =? 0x5D) then Ret false else
  rev <- readRegister CAP1188_REV;;
  if negb (rev =? 0x83) then Ret false else
  writeRegister CAP1188_MTBLK 0;;
  writeRegister CAP1188_LEDLINK 0xFF;;
  writeRegister CAP1188_STANDBYCFG 0x30;;
  Ret true.

Definition touch : io platformE Z :=
  t <- readRegister CAP1188_SENINPUTSTATUS;;
  (if negb (t =? 0) then
     main <- readRegister CAP1188_MAIN;;
     writeRegister CAP1188_MAIN
                   (u8 (Z.land main (Z.lnot CAP1188_MAIN_INT)))
   else Ret tt);;
  Ret t.
End DriverLogic.

(** What the identification shows, by the first check that fails.  A
    read has two values: the byte a monitor saw on the bus, and the byte
    [readRegister] returned, which is the one printed or compared;
    [got reg m v] relates them for a read of [reg].  [a] is the value of
    the read whose result is dropped; [b c d] are the reads that are
    printed, as [b' c' d']; [p m r] are the reads that are compared. *)
Inductive identify_run (got : Z -> Z -> Z -> Prop)
  : list access -> bool -> Prop :=
  | Id_prod (a b b' c c' d d' p p' : Z) :
    got 0xFD b b' -> got 0xFE c c' -> got 0xFF d d' ->
    got 0xFD p p' -> p' <> 0x50 ->
    identify_run got
                 [RegRead 0xFD a;
                  RegRead 0xFD b; Printed b'; RegRead 0xFE c; Printed c';
                  RegRead 0xFF d; Printed d';
                  RegRead 0xFD p] false
  | Id_manu (a b b' c c' d d' p m m' : Z) :
    got 0xFD b b' -> got 0xFE c c' -> got 0xFF d d' ->
    got 0xFD p 0x50 -> got 0xFE m m' -> m' <> 0x5D ->
    identify_run got
                 [RegRead 0xFD a;
                  RegRead 0xFD b; Printed b'; RegRead 0xFE c; Printed c';
                  RegRead 0xFF d; Printed d';
                  RegRead 0xFD p; RegRead 0xFE m] false
  | Id_rev (a b b' c c' d d' p m r r' : Z) :
    got 0xFD b b' -> got 0xFE c c' -> got 0xFF d d' ->
    got 0xFD p 0x50 -> got 0xFE m 0x5D -> got 0xFF r r' -> r' <> 0x83 ->
    identify_run got
                 [RegRead 0xFD a;
                  RegRead 0xFD b; Printed b'; RegRead 0xFE c; Printed c';
                  RegRead 0xFF d; Printed d';
                  RegRead 0xFD p; RegRead 0xFE m; RegRead 0xFF r] false
  | Id_ok (a b b' c c' d d' p m r : Z) :
    got 0xFD b b' -> got 0xFE c c' -> got 0xFF d d' ->
    got 0xFD p 0x50 -> got 0xFE m 0x5D -> got 0xFF r 0x83 ->
    identify_run got
                 [RegRead 0xFD a;
                  RegRead 0xFD b; Printed b'; RegRead 0xFE c; Printed c';
                  RegRead 0xFF d; Printed d';
                  RegRead 0xFD p; RegRead 0xFE m; RegRead 0xFF r;
                  RegWrite 0x2A 0; RegWrite 0x72 0xFF; RegWrite 0x41 0x30]
                 true.

(** The register accesses of [touched], by the status byte it returns:
    [t] and [main] are the bytes [readRegister] returned, [tm] and [mm]
    the bytes a monitor saw. *)
Inductive touch_run (got : Z -> Z -> Z -> Prop) : list access -> Z -> Prop :=
  | Touch_none (tm : Z) : got 0x03 tm 0 ->
    touch_run got [RegRead 0x03 tm] 0
  | Touch_some (t tm main mm : Z) :
    t <> 0 -> got 0x03 tm t -> got 0x00 mm main -> is_u8 main ->
    touch_run got
              [RegRead 0x03 tm; RegRead 0x00 mm;
               RegWrite 0x00 (u8 (Z.land main (Z.lnot 1)))] t.

(** ** Bus monitors

    What the chip makes of the traffic, per transport.  Over I2C a write
    of one byte sets the register pointer, a write of two bytes also stores
    the second at it, and a read returns the register at the pointer.  Over
    SPI the bytes are commands: [0x7D] takes the next byte as the pointer,
    [0x7E] stores the next byte at the pointer, [0x7F] sends the register at
    the pointer back during the next byte. *)

Inductive spi_phase : Type :=
  | AwaitCommand | AwaitPointer | AwaitData | AwaitReadClock.

Record spi_decoder : Type := mkSpiDecoder {
  phase : spi_phase;
  pointer : Z
}.

(** One byte time on SPI: [mosi] went to the chip, [miso] came back. *)
Definition spi_byte (s : spi_decoder) (mosi miso : Z)
  : spi_decoder * list access :=
  match phase s with
  | AwaitCommand =>
      if mosi =? 0x7D then (mkSpiDecoder AwaitPointer (pointer s), [])
      else if mosi =? 0x7E then (mkSpiDecoder AwaitData (pointer s), [])
      else if mosi =? 0x7F then (mkSpiDecoder AwaitReadClock (pointer s), [])
      else (s, [])
  | AwaitPointer => (mkSpiDecoder AwaitCommand mosi, [])
  | AwaitData =>
      (mkSpiDecoder AwaitCommand (pointer s), [RegWrite (pointer s) mosi])
  | AwaitReadClock =>
      (mkSpiDecoder AwaitCommand (pointer s), [RegRead (pointer s) miso])
  end.

(** A run of byte times, given as pairs (mosi, miso). *)
Fixpoint spi_bytes (s : spi_decoder) (l : list (Z * Z))
  : spi_decoder * list access :=
  match l with
  | [] => (s, [])
  | (mosi, miso) :: l' =>
      let o := spi_byte s mosi miso in
      let r := spi_bytes (fst o) l' in
      (fst r, snd o ++ snd r)
  end.

(** Chip-select going either way ends the command in progress. *)
Definition spi_frame (s : spi_decoder) : spi_decoder :=
  mkSpiDecoder AwaitCommand (pointer s).

(** The [n] bytes read by [write_then_read], each clocked in while the
    master sends a filler byte. *)
Fixpoint read_clocks (n : nat) (data : list Z) : list (Z * Z) :=
  match n with
  | O => []
  | S n' => (0xFF, u8 (hd 0 data)) :: read_clocks n' (tl data)
  end.

Module BusIOMonitor.
Import Arduino.

(** The state is the register pointer of the chip.  A byte that was asked
    for and not stored shows as 0. *)
Definition step (ptr : Z) (e : event) : Z * list access :=
  match e with
  | EvI2cDevWrite _ bytes _ =>
      match bytes with
      | [] => (ptr, [])
      | [reg] => (reg, [])
      | reg :: v :: _ => (reg, [RegWrite reg v])
      end
  | EvI2cDevWriteThenRead _ out n _ data =>
      let ptr := last out ptr in
      (ptr, match n with
            | O => []
            | S _ => [RegRead ptr (u8 (hd 0 data))]
            end)
  | EvSpiDevWrite _ bytes _ =>
      let r := spi_bytes (mkSpiDecoder AwaitCommand ptr)
                         (map (fun b => (b, 0)) bytes) in
      (pointer (fst r), snd r)
  | EvSpiDevWriteThenRead _ out n _ data =>
      let r := spi_bytes (mkSpiDecoder AwaitCommand ptr)
                         (map (fun b => (b, 0)) out ++ read_clocks n data) in
      (pointer (fst r), snd r)
  | EvSerialPrintlnHex v => (ptr, [Printed v])
  | _ => (ptr, [])
  end.

Definition mon : monitor :=
  {| mstate := Z; minit := 0; quiet := fun _ => true; observe := step |}.
End BusIOMonitor.

Module WireMonitor.
Import Arduino.

Record state : Type := mkState {
  queued : option (list Z);   (* bytes of the transmission in progress *)
  ptr : Z
}.

Definition step (s : state) (e : event) : state * list access :=
  match e with
  | EvWireBeginTransmission _ _ => (mkState (Some []) (ptr s), [])
  | EvWireWrite _ b =>
      match queued s with
      | Some bytes => (mkState (Some (bytes ++ [b])) (ptr s), [])
      | None => (s, [])
      end
  | EvWireEndTransmission _ =>
      match queued s with
      | Some [reg] => (mkState None reg, [])
      | Some (reg :: v :: _) => (mkState None reg, [RegWrite reg v])
      | _ => (mkState None (ptr s), [])
      end
  | EvWireRead _ a => (s, [RegRead (ptr s) (u8 a)])
  | EvSerialPrintlnHex v => (s, [Printed v])
  | _ => (s, [])
  end.

Definition is_quiet (s : state) : bool :=
  match queued s with None => true | Some _ => false end.

Definition mon : monitor :=
  {| mstate := state; minit := mkState None 0; quiet := is_quiet;
     observe := step |}.
End WireMonitor.

(** Bits, most significant first, to a number. *)
Definition assemble (bits : list bool) : Z :=
  fold_left (fun acc b => 2 * acc + Z.b2z b) bits 0.

Module PinMonitor.
Import Arduino.

(** The pins the chip is wired to. *)
Record wiring : Type := mkWiring { cs : Z; clk : Z; mosi : Z; miso : Z }.

Record state : Type := mkState {
  selected : bool;             (* chip-select is low *)
  dec : spi_decoder;
  clk_lvl : bool;
  mosi_lvl : bool;
  latch : option bool;         (* MOSI at a rising edge, MISO not yet read *)
  bits : list (bool * bool)    (* (MOSI, MISO) of this byte, newest first *)
}.

Definition on_cs (s : state) (l : bool) : state :=
  mkState (negb l) (spi_frame (dec s)) (clk_lvl s) (mosi_lvl s) None [].

Definition on_clk (s : state) (l : bool) : state :=
  mkState (selected s) (dec s) l (mosi_lvl s)
          (if selected s && negb (clk_lvl s) && l
           then Some (mosi_lvl s) else latch s)
          (bits s).

Definition on_mosi (s : state) (l : bool) : state :=
  mkState (selected s) (dec s) (clk_lvl s) l (latch s) (bits s).

(** The master reads MISO: with the bit latched at the clock edge this
    makes one bit time; the eighth makes a byte time. *)
Definition on_sample (s : state) (l : bool) : state * list access :=
  match latch s with
  | None => (s, [])
  | Some mo =>
      let bs := (mo, l) :: bits s in
      if (List.length bs =? 8)%nat then
        let o := spi_byte (dec s) (assemble (rev (map fst bs)))
                                  (assemble (rev (map snd bs))) in
        (mkState (selected s) (fst o) (clk_lvl s) (mosi_lvl s) None [],
         snd o)
      else
        (mkState (selected s) (dec s) (clk_lvl s) (mosi_lvl s) None bs, [])
  end.

Definition on_transfer (s : state) (data answer : Z)
  : state * list access :=
  if selected s then
    let o := spi_byte (dec s) data (u8 answer) in
    (mkState true (fst o) (clk_lvl s) (mosi_lvl s) (latch s) (bits s),
     snd o)
  else (s, []).

Definition step (w : wiring) (s : state) (e : event)
  : state * list access :=
  match e with
  | EvDigitalWrite pin val =>
      if pin =? cs w then (on_cs s (level val), [])
      else if pin =? clk w then (on_clk s (level val), [])
      else if pin =? mosi w then (on_mosi s (level val), [])
      else (s, [])
  | EvDigitalRead pin a =>
      if (pin =? miso w) && selected s then on_sample s (level a)
      else (s, [])
  | EvSpiTransfer _ data a => on_transfer s data a
  | EvSerialPrintlnHex v => (s, [Printed v])
  | _ => (s, [])
  end.

Definition init : state :=
  mkState false (mkSpiDecoder AwaitCommand 0) false false None [].

Definition mon (w : wiring) : monitor :=
  {| mstate := state; minit := init;
     quiet := fun s => negb (selected s); observe := step w |}.
End PinMonitor.

(** ** A driver of either implementation *)

Inductive driver : Type :=
  | LegacyDriver (self : Legacy.Adafruit_CAP1188)
  | BusIODriver (self : BusIO.Adafruit_CAP1188).

Definition wiring_of (self : Legacy.Adafruit_CAP1188) : PinMonitor.wiring :=
  PinMonitor.mkWiring (Legacy._cs self) (Legacy._clk self)
                      (Legacy._mosi self) (Legacy._miso self).

(** The monitor that fits the bus a driver is on. *)
Definition monitor_of (d : driver) : monitor :=
  match d with
  | LegacyDriver self =>
      if Legacy._i2c self then WireMonitor.mon
      else PinMonitor.mon (wiring_of self)
  | BusIODriver _ => BusIOMonitor.mon
  end.

Definition readRegister (d : driver) (reg : Z) : io Arduino.platformE Z :=
  match d with
  | LegacyDriver self => Legacy.readRegister self reg
  | BusIODriver self => BusIO.readRegister self reg
  end.

Definition writeRegister (d : driver) (reg value : Z)
  : io Arduino.platformE unit :=
  match d with
  | LegacyDriver self => Legacy.writeRegister self reg value
  | BusIODriver self => BusIO.writeRegister self reg value
  end.

Definition begin (d : driver) (i2caddr : Z) (theWire : Arduino.ptr)
  : io Arduino.platformE (bool * driver) :=
  match d with
  | LegacyDriver self =>
      r <- Legacy.begin self i2caddr theWire;;
      Ret (fst r, LegacyDriver (snd r))
  | BusIODriver self =>
      r <- BusIO.begin self i2caddr theWire;;
      Ret (fst r, BusIODriver (snd r))
  end.

Definition touched (d : driver) : io Arduino.platformE Z :=
  match d with
  | LegacyDriver self => Legacy.touched self
  | BusIODriver self => BusIO.touched self
  end.

Definition LEDpolarity (d : driver) (inverted : Z)
  : io Arduino.platformE unit :=
  match d with
  | LegacyDriver self => Legacy.LEDpolarity self inverted
  | BusIODriver self => BusIO.LEDpolarity self inverted
  end.

(** The pins of a bit-banged instance are three different pins. *)
Definition distinct_pins (self : Legacy.Adafruit_CAP1188) : Prop :=
  Legacy._clk self = -1 \/
  (Legacy._cs self <> Legacy._clk self /\
   Legacy._cs self <> Legacy._mosi self /\
   Legacy._clk self <> Legacy._mosi self).

(** A driver whose register operations can run: a BusIO object has its
    device; a legacy SPI object has sound wiring. *)
Definition operational (d : driver) : Prop :=
  match d with
  | LegacyDriver self => Legacy._i2c self = true \/ distinct_pins self
  | BusIODriver self =>
      BusIO.i2c_dev self <> None \/ BusIO.spi_dev self <> None
  end.

(** A driver [begin] can be called on: as constructed, with a reset pin
    that is not the chip-select pin. *)
Definition installable (d : driver) : Prop :=
  match d with
  | LegacyDriver self =>
      Legacy._i2c self = true \/
      (distinct_pins self /\ Legacy._resetpin self <> Legacy._cs self)
  | BusIODriver self => True
  end.

(** ** Watched runs from a monitor state that need not be quiet *)

(** [triple h m P p Q]: from a monitor state with [P], [p] returns some
    [r] and the monitor ends in a state [s'] having decoded [l], with
    [Q r s' l]. *)
Definition triple {W : Type} (h : Arduino.handler W) (m : monitor) {R}
    (P : mstate m -> Prop) (p : io Arduino.platformE R)
    (Q : R -> mstate m -> list access -> Prop) : Prop :=
  forall (w : W) (s : mstate m), P s ->
    exists r, res (Arduino.exec h p w) = Done r
      /\ Q r (fst (watch m s (trace (Arduino.exec h p w))))
             (snd (watch m s (trace (Arduino.exec h p w)))).

(** ** Bytes and bits *)

(** The bits of a byte, most significant first. *)
Definition bits_of (d : Z) (n : nat) : list bool :=
  map (fun i => Z.testbit d (Z.of_nat i)) (rev (seq 0 n)).

(** ** One byte over bit-banged SPI *)

(** The body of the loop of [spixfer] after the MISO read. *)
Definition shift_in (reply sample : Z) : Z :=
  let reply := u8 (Z.shiftl reply 1) in
  if negb (sample =? 0) then Z.lor reply 1 else reply.

(** What one bit costs on the pins: clock low, MOSI set, clock high, MISO
    read. *)
Definition bit_time (self : Legacy.Adafruit_CAP1188) (data : Z) (i : nat)
    (sample : Z) : list Arduino.event :=
  [Arduino.EvDigitalWrite (Legacy._clk self) Arduino.LOW;
   Arduino.EvDigitalWrite (Legacy._mosi self)
                          (Z.land data (Z.shiftl 1 (Z.of_nat i)));
   Arduino.EvDigitalWrite (Legacy._clk self) Arduino.HIGH;
   Arduino.EvDigitalRead (Legacy._miso self) sample].

(** Bits [n - 1] down to [0], the MISO reads answered by [samples]. *)
Fixpoint byte_time (self : Legacy.Adafruit_CAP1188) (data : Z) (n : nat)
    (samples : list Z) : list Arduino.event :=
  match n with
  | O => []
  | S i =>
      bit_time self data i (hd 0 samples)
      ++ byte_time self data i (tl samples)
  end.

(** The answers to the pin reads of a trace, oldest first. *)
Definition miso_samples (t : list Arduino.event) : list Z :=
  flat_map (fun e => match e with
                     | Arduino.EvDigitalRead _ a => [a]
                     | _ => []
                     end) t.

(** ** The pin monitor on the traffic of the legacy SPI path *)

(** The levels MOSI takes for bits [n - 1] down to [0] of [data]. *)
Definition mosi_levels (data : Z) (n : nat) : list bool :=
  map (fun i => Arduino.level (Z.land data (Z.shiftl 1 (Z.of_nat i))))
      (rev (seq 0 n)).

(** The chip is selected and at a byte boundary, its decoder is [dc]. *)
Definition framed (dc : spi_decoder) (s : PinMonitor.state) : Prop :=
  PinMonitor.selected s = true /\ PinMonitor.dec s = dc
  /\ PinMonitor.latch s = None /\ PinMonitor.bits s = [].

(** ** Both implementations, every transport *)

Definition resetpin_of (d : driver) : Z :=
  match d with
  | LegacyDriver self => Legacy._resetpin self
  | BusIODriver self => BusIO._resetpin self
  end.

(** ** Reads for which the bus device stores no byte *)

(** A call of [write_then_read] that stored as many bytes as it was asked
    to read.  Every other call counts as answered in full. *)
Definition stored (e : Arduino.event) : bool :=
  match e with
  | Arduino.EvI2cDevWriteThenRead _ _ n _ data
  | Arduino.EvSpiDevWriteThenRead _ _ n _ data =>
      (n <=? List.length data)%nat
  | _ => true
  end.

(** A run in which every [write_then_read] stored the bytes asked for. *)
Definition delivered (t : list Arduino.event) : bool := forallb stored t.

(** An environment whose [write_then_read] always stores the bytes asked
    for. *)
Definition delivering {W : Type} (h : Arduino.handler W) : Prop :=
  forall X (e : Arduino.platformE X) (w : W),
    stored (Arduino.log e (fst (h X e w))) = true.

(** [data], with zeros for the bytes that are missing of [n]. *)
Definition fill (n : nat) (data : list Z) : list Z :=
  data ++ repeat 0 (n - List.length data).

Definition pad (X : Type) (e : Arduino.platformE X) : X -> X :=
  match e in Arduino.platformE X return X -> X with
  | Arduino.I2cDevWriteThenRead _ _ n => fun a => (fst a, fill n (snd a))
  | Arduino.SpiDevWriteThenRead _ _ n => fun a => (fst a, fill n (snd a))
  | _ => fun a => a
  end.

(** The environment that answers as [h] does and stores a zero for every
    byte [h] leaves out.  Where [h] stores all bytes it is [h]. *)
Definition deliver {W : Type} (h : Arduino.handler W) : Arduino.handler W :=
  fun X e w => (pad e (fst (h X e w)), snd (h X e w)).

(** The first byte of the buffer of [BusIO.readRegister] when it calls
    [write_then_read]: the register address on I2C, the command 0x7D on
    SPI. *)
Definition buffer_byte (self : BusIO.Adafruit_CAP1188) (reg : Z) : Z :=
  match BusIO.i2c_dev self with Some _ => reg | None => 0x7D end.

(** [returned h d reg m v]: what a read of [reg] can return, [v], when a
    monitor saw the byte [m] for it.  It is the byte seen; or, on the BusIO
    implementation in an environment that does not always store the bytes
    asked for, the monitor saw none, which it shows as 0, and the read
    returned the first byte of its buffer. *)
Definition returned {W : Type} (h : Arduino.handler W) (d : driver)
    (reg m v : Z) : Prop :=
  v = m \/
  match d with
  | LegacyDriver _ => False
  | BusIODriver self =>
      ~ delivering h /\ m = 0 /\ v = buffer_byte self reg
  end.

(** ** [begin] *)

(** Whether the bus opened: the answer of the BusIO device to [begin()],
    the first call [begin] makes.  On Wire, SPIClass and pins nothing
    reports a failure. *)
Definition opened (t : list Arduino.event) : bool :=
  match t with
  | Arduino.EvI2cDevBegin _ ok :: _ => ok
  | Arduino.EvSpiDevBegin _ ok :: _ => ok
  | _ => true
  end.

(** What a monitor sees of [begin]: nothing when the bus does not open,
    the identification otherwise. *)
Definition begin_run (got : Z -> Z -> Z -> Prop) (t : list Arduino.event)
    (l : list access) (b : bool) : Prop :=
  if opened t then identify_run got l b else l = [] /\ b = false.

(** The object [begin] leaves: on I2C it has taken the bus and the
    address, on SPI it is as it was. *)
Definition Legacy_begun (self : Legacy.Adafruit_CAP1188) (i2caddr : Z)
    (theWire : Arduino.ptr) : Legacy.Adafruit_CAP1188 :=
  if Legacy._i2c self then
    {| Legacy._i2c := Legacy._i2c self; Legacy._i2caddr := i2caddr;
       Legacy._resetpin := Legacy._resetpin self;
       Legacy._cs := Legacy._cs self; Legacy._clk := Legacy._clk self;
       Legacy._mosi := Legacy._mosi self;
       Legacy._miso := Legacy._miso self; Legacy._wire := theWire;
       Legacy._spi := Legacy._spi self |}
  else self.

(** ** Simulated chips

    A register file behind each transport: it stores what is written and
    serves what is read.  These are environments like any other; they
    give the round trip its meaning and the theorems their witnesses. *)

Definition regfile : Type := Z -> Z.

Definition store (rf : regfile) (reg v : Z) : regfile :=
  fun r => if r =? reg then u8 v else rf r.

Definition apply_access (rf : regfile) (a : access) : regfile :=
  match a with
  | RegWrite reg v => store rf reg v
  | _ => rf
  end.

(** The registers as the data sheet has them after power-up, as far as
    the driver looks at them. *)
Definition power_up : regfile :=
  fun r => if r =? 0xFD then 0x50
           else if r =? 0xFE then 0x5D
           else if r =? 0xFF then 0x83
           else 0.

(** The SPI side of the chip, byte by byte. *)
Record spi_core : Type := mkCore { core_regs : regfile; core_dec : spi_decoder }.

(** The byte the chip sends during the next byte time. *)
Definition core_miso (c : spi_core) : Z :=
  match phase (core_dec c) with
  | AwaitReadClock => u8 (core_regs c (pointer (core_dec c)))
  | _ => 0
  end.

Definition core_byte (c : spi_core) (mosi : Z) : spi_core :=
  let o := spi_byte (core_dec c) mosi (core_miso c) in
  mkCore (fold_left apply_access (snd o) (core_regs c)) (fst o).

Definition core_frame (c : spi_core) : spi_core :=
  mkCore (core_regs c) (spi_frame (core_dec c)).

Module BusIOChip.
Import Arduino.

Record state : Type := mkState { regs : regfile; ptr : Z }.

Definition write_bytes (c : state) (bytes : list Z) : state :=
  match bytes with
  | [] => c
  | [reg] => mkState (regs c) reg
  | reg :: v :: _ => mkState (store (regs c) reg v) reg
  end.

Definition spi_run (c : state) (bytes : list Z) : spi_core :=
  fold_left core_byte bytes
            (mkCore (regs c) (mkSpiDecoder AwaitCommand (ptr c))).

(** [n] bytes clocked out of the chip while the master sends fillers. *)
Fixpoint spi_read (k : spi_core) (n : nat) : list Z * spi_core :=
  match n with
  | O => ([], k)
  | S n' =>
      let r := spi_read (core_byte k 0xFF) n' in
      (core_miso k :: fst r, snd r)
  end.

Definition of_core (k : spi_core) : state :=
  mkState (core_regs k) (pointer (core_dec k)).

Definition handle : handler state :=
  fun X (e : platformE X) =>
    match e in platformE X return state -> X * state with
    | I2cDevBegin _ => fun c => (true, c)
    | I2cDevWrite _ bytes => fun c => (true, write_bytes c bytes)
    | I2cDevWriteThenRead _ out n => fun c =>
        let c := mkState (regs c) (last out (ptr c)) in
        ((true, match n with
                | O => []
                | S _ => [u8 (regs c (ptr c))]
                end), c)
    | SpiDevBegin _ => fun c => (true, c)
    | SpiDevWrite _ bytes => fun c => (true, of_core (spi_run c bytes))
    | SpiDevWriteThenRead _ out n => fun c =>
        let r := spi_read (spi_run c out) n in
        ((true, fst r), of_core (snd r))
    | PinMode _ _ => fun c => (tt, c)
    | DigitalWrite _ _ => fun c => (tt, c)
    | DigitalRead _ => fun c => (0, c)
    | Delay _ => fun c => (tt, c)
    | SerialPrint _ => fun c => (tt, c)
    | SerialPrintlnHex _ => fun c => (tt, c)
    | WireBegin _ => fun c => (tt, c)
    | WireBeginTransmission _ _ => fun c => (tt, c)
    | WireWrite _ _ => fun c => (tt, c)
    | WireEndTransmission _ => fun c => (tt, c)
    | WireRequestFrom _ _ _ => fun c => (tt, c)
    | WireRead _ => fun c => (-1, c)
    | SpiBegin _ => fun c => (tt, c)
    | SpiBeginTransaction _ _ => fun c => (tt, c)
    | SpiEndTransaction _ => fun c => (tt, c)
    | SpiTransfer _ _ => fun c => (0, c)
    end.
End BusIOChip.

Module WireChip.
Import Arduino.

Record state : Type := mkState {
  regs : regfile;
  ptr : Z;
  queued : option (list Z);   (* the transmission being assembled *)
  rx : list Z                 (* bytes requested and not yet read *)
}.

Definition end_transmission (c : state) : state :=
  match queued c with
  | Some [reg] => mkState (regs c) reg None (rx c)
  | Some (reg :: v :: _) => mkState (store (regs c) reg v) reg None (rx c)
  | _ => mkState (regs c) (ptr c) None (rx c)
  end.

Definition handle : handler state :=
  fun X (e : platformE X) =>
    match e in platformE X return state -> X * state with
    | WireBegin _ => fun c => (tt, c)
    | WireBeginTransmission _ _ => fun c =>
        (tt, mkState (regs c) (ptr c) (Some []) (rx c))
    | WireWrite _ b => fun c =>
        (tt, match queued c with
             | Some bytes =>
                 mkState (regs c) (ptr c) (Some (bytes ++ [b])) (rx c)
             | None => c
             end)
    | WireEndTransmission _ => fun c => (tt, end_transmission c)
    | WireRequestFrom _ _ n => fun c =>
        (tt, mkState (regs c) (ptr c) (queued c)
                     (if 0 <? n then [u8 (regs c (ptr c))] else []))
    | WireRead _ => fun c =>
        match rx c with
        | x :: rest => (x, mkState (regs c) (ptr c) (queued c) rest)
        | [] => (-1, c)
        end
    | PinMode _ _ => fun c => (tt, c)
    | DigitalWrite _ _ => fun c => (tt, c)
    | DigitalRead _ => fun c => (0, c)
    | Delay _ => fun c => (tt, c)
    | SerialPrint _ => fun c => (tt, c)
    | SerialPrintlnHex _ => fun c => (tt, c)
    | SpiBegin _ => fun c => (tt, c)
    | SpiBeginTransaction _ _ => fun c => (tt, c)
    | SpiEndTransaction _ => fun c => (tt, c)
    | SpiTransfer _ _ => fun c => (0, c)
    | I2cDevBegin _ => fun c => (false, c)
    | I2cDevWrite _ _ => fun c => (false, c)
    | I2cDevWriteThenRead _ _ _ => fun c => ((false, []), c)
    | SpiDevBegin _ => fun c => (false, c)
    | SpiDevWrite _ _ => fun c => (false, c)
    | SpiDevWriteThenRead _ _ _ => fun c => ((false, []), c)
    end.
End WireChip.

Module PinChip.
Import Arduino.

(** The chip on an SPI bus it sees pin by pin.  It samples MOSI on the
    rising clock edge and puts the next bit on MISO when the clock is
    driven low. *)
Record state : Type := mkState {
  core : spi_core;
  sel : bool;
  clk_lvl : bool;
  mosi_lvl : bool;
  miso_lvl : bool;
  in_bits : list bool    (* bits of this byte, newest first *)
}.

Definition on_cs (c : state) (l : bool) : state :=
  mkState (core_frame (core c)) (negb l) (clk_lvl c) (mosi_lvl c)
          (miso_lvl c) [].

Definition on_clk (c : state) (l : bool) : state :=
  if negb (sel c) then
    mkState (core c) (sel c) l (mosi_lvl c) (miso_lvl c) (in_bits c)
  else if l then
    if clk_lvl c then c
    else
      let bs := mosi_lvl c :: in_bits c in
      if (List.length bs =? 8)%nat then
        mkState (core_byte (core c) (assemble (rev bs))) true true
                (mosi_lvl c) (miso_lvl c) []
      else
        mkState (core c) true true (mosi_lvl c) (miso_lvl c) bs
  else
    mkState (core c) true false (mosi_lvl c)
            (Z.testbit (core_miso (core c))
                       (7 - Z.of_nat (List.length (in_bits c))))
            (in_bits c).

Definition on_mosi (c : state) (l : bool) : state :=
  mkState (core c) (sel c) (clk_lvl c) l (miso_lvl c) (in_bits c).

Definition on_transfer (c : state) (data : Z) : Z * state :=
  if sel c then
    (core_miso (core c),
     mkState (core_byte (core c) data) true (clk_lvl c) (mosi_lvl c)
             (miso_lvl c) (in_bits c))
  else (0, c).

Definition handle (w : PinMonitor.wiring) : handler state :=
  fun X (e : platformE X) =>
    match e in platformE X return state -> X * state with
    | DigitalWrite pin val => fun c =>
        (tt, if pin =? PinMonitor.cs w then on_cs c (level val)
             else if pin =? PinMonitor.clk w then on_clk c (level val)
             else if pin =? PinMonitor.mosi w then on_mosi c (level val)
             else c)
    | DigitalRead pin => fun c =>
        (if (pin =? PinMonitor.miso w) && miso_lvl c then HIGH else LOW, c)
    | SpiTransfer _ data => fun c => on_transfer c data
    | PinMode _ _ => fun c => (tt, c)
    | Delay _ => fun c => (tt, c)
    | SerialPrint _ => fun c => (tt, c)
    | SerialPrintlnHex _ => fun c => (tt, c)
    | WireBegin _ => fun c => (tt, c)
    | WireBeginTransmission _ _ => fun c => (tt, c)
    | WireWrite _ _ => fun c => (tt, c)
    | WireEndTransmission _ => fun c => (tt, c)
    | WireRequestFrom _ _ _ => fun c => (tt, c)
    | WireRead _ => fun c => (-1, c)
    | SpiBegin _ => fun c => (tt, c)
    | SpiBeginTransaction _ _ => fun c => (tt, c)
    | SpiEndTransaction _ => fun c => (tt, c)
    | I2cDevBegin _ => fun c => (false, c)
    | I2cDevWrite _ _ => fun c => (false, c)
    | I2cDevWriteThenRead _ _ _ => fun c => ((false, []), c)
    | SpiDevBegin _ => fun c => (false, c)
    | SpiDevWrite _ _ => fun c => (false, c)
    | SpiDevWriteThenRead _ _ _ => fun c => ((false, []), c)
    end.
End PinChip.

Record simulator : Type := mkSimulator {
  chip : Type;
  answer : Arduino.handler chip;
  idle : chip -> Prop;            (* between two transactions *)
  contents : chip -> regfile
}.

Definition busio_sim : simulator :=
  mkSimulator BusIOChip.handle (fun _ => True) BusIOChip.regs.

Definition wire_sim : simulator :=
  mkSimulator WireChip.handle (fun c => WireChip.queued c = None)
              WireChip.regs.

Definition pin_sim (w : PinMonitor.wiring) : simulator :=
  mkSimulator (PinChip.handle w) (fun c => PinChip.sel c = false)
              (fun c => core_regs (PinChip.core c)).

(** The simulated chip on the bus a driver is on. *)
Definition simulator_of (d : driver) : simulator :=
  match d with
  | LegacyDriver self =>
      if Legacy._i2c self then wire_sim else pin_sim (wiring_of self)
  | BusIODriver _ => busio_sim
  end.

(** ** Runs by their result *)

(** From [w], [p] returns [r] and leaves the environment in [w']. *)
Definition returns {W : Type} (h : Arduino.handler W) {R}
    (p : io Arduino.platformE R) (w : W) (r : R) (w' : W) : Prop :=
  res (Arduino.exec h p w) = Done r /\ world (Arduino.exec h p w) = w'.

(** The chip is selected, at a byte boundary, with core [k]. *)
Definition at_core (k : spi_core) (c : PinChip.state) : Prop :=
  PinChip.sel c = true /\ PinChip.in_bits c = [] /\ PinChip.core c = k.

(** * The vocabulary of the claims *)

(** ** Set-ups on which the theorems are exercised *)

Module Bench.
Import Arduino.

(** Storage before a constructor runs, as static storage has it. *)
Definition zeroed : Legacy.Adafruit_CAP1188 :=
  Legacy.mkDriver false 0 0 0 0 0 0 0 0.

(** [Adafruit_CAP1188 cap = Adafruit_CAP1188();] of the example sketch,
    on BusIO, and the same object once [begin()] has run. *)
Definition busio_i2c : driver := BusIODriver (BusIO.new_I2C (-1)).
Definition busio_i2c_begun : driver :=
  BusIODriver (BusIO.mkDriver (Some (mkI2CDevice CAP1188_I2CADDR 0)) None
                              (-1)).

(** [Adafruit_CAP1188(CAP1188_CS, CAP1188_RESET)] on BusIO. *)
Definition busio_spi : driver :=
  BusIODriver (BusIO.new_HardwareSPI 10 9 0).

(** The three legacy objects, wired as the example sketch has it, and
    the I2C one once [begin(0x29)] has run on bus 0. *)
Definition legacy_i2c : driver :=
  LegacyDriver (Legacy.new_I2C zeroed 9).
Definition legacy_i2c_begun : driver :=
  LegacyDriver (Legacy.mkDriver true CAP1188_I2CADDR 9 0 0 0 0 0 0).
Definition legacy_hw_spi : driver :=
  LegacyDriver (Legacy.new_HardwareSPI zeroed 10 9 0).
Definition legacy_sw_spi : driver :=
  LegacyDriver (Legacy.new_SoftwareSPI zeroed 13 12 11 10 9).

(** A CAP1188 after power-up, one that reports a touch on channel 3
    with its interrupt flag up, and a chip that is no CAP1188. *)
Definition touched_regs : regfile :=
  store (store power_up CAP1188_SENINPUTSTATUS 0x04) CAP1188_MAIN 0x01.
Definition blank_regs : regfile := fun _ => 0.

Definition busio_chip (rf : regfile) : BusIOChip.state :=
  BusIOChip.mkState rf 0.
Definition wire_chip (rf : regfile) : WireChip.state :=
  WireChip.mkState rf 0 None [].
Definition pin_chip (rf : regfile) : PinChip.state :=
  PinChip.mkState (mkCore rf (mkSpiDecoder AwaitCommand 0))
                  false false false false [].
End Bench.

(** ** What [begin] reads, writes and prints *)

(** The value the driver wants from an identity register. *)
Definition expected_id (reg : Z) : Z :=
  if reg =? CAP1188_PRODID then 0x50
  else if reg =? CAP1188_MANUID then 0x5D
  else 0x83.

(** A register read that did not return the wanted identity. *)
Definition mismatched (a : access) : Prop :=
  match a with
  | RegRead reg v => v <> expected_id reg
  | _ => False
  end.

(** The reads whose values [begin] compares: those after the four whose
    values it drops or prints. *)
Definition check_reads (l : list access) : list access := skipn 4 (reads l).

Definition config_writes : list access :=
  [RegWrite CAP1188_MTBLK 0; RegWrite CAP1188_LEDLINK 0xFF;
   RegWrite CAP1188_STANDBYCFG 0x30].

Definition printed (l : list access) : list Z :=
  flat_map (fun a => match a with Printed v => [v] | _ => [] end) l.

(** ** Runs by result, environment and trace *)

(** From [w], [p] returns [r], leaves [w'] and has made the calls [t]. *)
Definition yields {W : Type} (h : Arduino.handler W) {R}
    (p : io Arduino.platformE R) (w : W) (r : R) (w' : W)
    (t : list Arduino.event) : Prop :=
  Arduino.exec h p w = mkResult (Done r) w' t.

(** ** Pin traffic of one byte *)

(** The levels a trace drives a pin to, oldest first. *)
Definition pin_writes (pin : Z) (t : list Arduino.event) : list bool :=
  flat_map (fun e => match e with
                     | Arduino.EvDigitalWrite p v =>
                         if p =? pin then [Arduino.level v] else []
                     | _ => []
                     end) t.

(** The low-to-high steps in a run of levels that starts from [prev]. *)
Fixpoint rising_edges (prev : bool) (levels : list bool) : nat :=
  match levels with
  | [] => 0
  | l :: rest => (if negb prev && l then 1 else 0) + rising_edges l rest
  end.

(** Every pin read comes right after the clock was driven high. *)
Fixpoint sampled_on_rise (clk : Z) (risen : bool) (t : list Arduino.event)
  : bool :=
  match t with
  | [] => true
  | Arduino.EvDigitalRead _ _ :: t' => risen && sampled_on_rise clk false t'
  | Arduino.EvDigitalWrite p v :: t' =>
      sampled_on_rise clk ((p =? clk) && Arduino.level v) t'
  | _ :: t' => sampled_on_rise clk false t'
  end.

(** ** Chip-select brackets and SPI transactions *)

(** One byte time of the legacy SPI path, as calls: one [transfer] of the
    SPI peripheral, or eight bit times on the pins. *)
Definition byte_on_wire (self : Legacy.Adafruit_CAP1188) (data reply : Z)
    (t : list Arduino.event) : Prop :=
  if Legacy._clk self =? -1 then
    exists a, t = [Arduino.EvSpiTransfer (Legacy._spi self) data a]
              /\ reply = u8 a
  else
    exists ms, List.length ms = 8%nat
               /\ t = byte_time self data 8 ms
               /\ reply = assemble (map Arduino.level ms).

(** Calls made with chip-select low: it is driven low before them and
    high after them. *)
Definition cs_bracket (self : Legacy.Adafruit_CAP1188)
    (inner : list Arduino.event) : list Arduino.event :=
  [Arduino.EvDigitalWrite (Legacy._cs self) Arduino.LOW]
  ++ inner ++ [Arduino.EvDigitalWrite (Legacy._cs self) Arduino.HIGH].

(** Modelled from the spec: the SPI primitive of BusIO is not part of the
    repository; the spec has it handle chip-select internally, so that each
    call of its [write] or of its [write_then_read] is one chip-select
    bracket. *)
Definition is_spi_transaction (e : Arduino.event) : bool :=
  match e with
  | Arduino.EvSpiDevWrite _ _ _ => true
  | Arduino.EvSpiDevWriteThenRead _ _ _ _ _ => true
  | _ => false
  end.

(** How often a trace asserts chip-select.  The legacy driver drives the
    pin itself: the times it drives it low.  The BusIO driver leaves the
    pin to its SPI device: the calls of that device. *)
Definition cs_brackets (d : driver) (t : list Arduino.event) : nat :=
  match d with
  | LegacyDriver self =>
      count_occ Bool.bool_dec (pin_writes (Legacy._cs self) t) false
  | BusIODriver _ => List.length (filter is_spi_transaction t)
  end.

(** ** I2C transactions *)

(** The calls of [Wire] that put a transaction of their own on the I2C
    bus: [endTransmission], called without argument as the driver does,
    sends the bytes queued since [beginTransmission] and releases the bus;
    [requestFrom] reads. *)
Definition is_wire_transaction (e : Arduino.event) : bool :=
  match e with
  | Arduino.EvWireEndTransmission _ => true
  | Arduino.EvWireRequestFrom _ _ _ => true
  | _ => false
  end.

(** Modelled from the spec: the I2C primitive of BusIO is not part of the
    repository; the spec has its [write] and its [write_then_read] be one
    atomic transaction each. *)
Definition is_i2cdev_transaction (e : Arduino.event) : bool :=
  match e with
  | Arduino.EvI2cDevWrite _ _ _ => true
  | Arduino.EvI2cDevWriteThenRead _ _ _ _ _ => true
  | _ => false
  end.

(** The calls that put a transaction of their own on the I2C bus. *)
Definition is_i2c_transaction (e : Arduino.event) : bool :=
  is_wire_transaction e || is_i2cdev_transaction e.

Definition i2c_transactions (t : list Arduino.event) : nat :=
  List.length (filter is_i2c_transaction t).

(** ** Transports, paths and instances *)

Inductive transport : Type := OnI2C | OnSPI.

Definition transport_eqb (a b : transport) : bool :=
  match a, b with
  | OnI2C, OnI2C | OnSPI, OnSPI => true
  | _, _ => false
  end.

(** The transport a call belongs to.  Pin modes, pin writes, delays and
    prints belong to none: the reset pulse uses them on every path. *)
Definition event_transport (e : Arduino.event) : option transport :=
  match e with
  | Arduino.EvWireBegin _ | Arduino.EvWireBeginTransmission _ _
  | Arduino.EvWireWrite _ _ | Arduino.EvWireEndTransmission _
  | Arduino.EvWireRequestFrom _ _ _ | Arduino.EvWireRead _ _
  | Arduino.EvI2cDevBegin _ _ | Arduino.EvI2cDevWrite _ _ _
  | Arduino.EvI2cDevWriteThenRead _ _ _ _ _ => Some OnI2C
  | Arduino.EvSpiBegin _ | Arduino.EvSpiBeginTransaction _ _
  | Arduino.EvSpiEndTransaction _ | Arduino.EvSpiTransfer _ _ _
  | Arduino.EvSpiDevBegin _ _ | Arduino.EvSpiDevWrite _ _ _
  | Arduino.EvSpiDevWriteThenRead _ _ _ _ _
  | Arduino.EvDigitalRead _ _ => Some OnSPI
  | _ => None
  end.

Definition allowed (tr : transport) (e : Arduino.event) : bool :=
  match event_transport e with
  | Some tr' => transport_eqb tr tr'
  | None => true
  end.

(** A run that took the path of [tr] only: it came back, and made no call
    of the other transport. *)
Definition on_path {W R} (tr : transport) (r : result W Arduino.event R)
  : Prop :=
  (exists x, res r = Done x) /\ forallb (allowed tr) (trace r) = true.

(** The field that decides the path of [begin]. *)
Definition discriminator (d : driver) : transport :=
  match d with
  | LegacyDriver self => if Legacy._i2c self then OnI2C else OnSPI
  | BusIODriver self =>
      match BusIO.spi_dev self with Some _ => OnSPI | None => OnI2C end
  end.

(** The objects the constructors make. *)
Inductive constructed : driver -> transport -> Prop :=
  | Legacy_I2C mem resetpin :
    constructed (LegacyDriver (Legacy.new_I2C mem resetpin)) OnI2C
  | Legacy_HardwareSPI mem cspin resetpin theSPI :
    constructed
      (LegacyDriver (Legacy.new_HardwareSPI mem cspin resetpin theSPI)) OnSPI
  | Legacy_SoftwareSPI mem clkpin misopin mosipin cspin resetpin :
    constructed
      (LegacyDriver (Legacy.new_SoftwareSPI mem clkpin misopin mosipin cspin
                                            resetpin)) OnSPI
  | BusIO_I2C resetpin :
    constructed (BusIODriver (BusIO.new_I2C resetpin)) OnI2C
  | BusIO_HardwareSPI cspin resetpin theSPI :
    constructed (BusIODriver (BusIO.new_HardwareSPI cspin resetpin theSPI))
                OnSPI
  | BusIO_SoftwareSPI clkpin misopin mosipin cspin resetpin :
    constructed
      (BusIODriver (BusIO.new_SoftwareSPI clkpin misopin mosipin cspin
                                          resetpin)) OnSPI.

(** The objects there can be: constructed, then left by [begin] any number
    of times, in whatever environment.  The flag tells whether [begin] has
    run. *)
Inductive instance : driver -> transport -> bool -> Prop :=
  | Fresh d tr : constructed d tr -> instance d tr false
  | Begun d tr begun (W : Type) (h : Arduino.handler W) (w : W)
        i2caddr theWire b d' :
    instance d tr begun ->
    res (Arduino.exec h (begin d i2caddr theWire) w) = Done (b, d') ->
    instance d' tr true.

(** Programs that come back and make allowed calls only, whatever the
    environment. *)
Definition confined {R} (ok : Arduino.event -> bool)
    (p : io Arduino.platformE R) : Prop :=
  forall (W : Type) (h : Arduino.handler W) (w : W),
    (exists x, res (Arduino.exec h p w) = Done x)
    /\ forallb ok (trace (Arduino.exec h p w)) = true.

(** The readiness of a BusIO object for register operations on [tr]:
    the device of [tr] is there, and on SPI the I2C device is not. *)
Definition BusIO_ready (self : BusIO.Adafruit_CAP1188) (tr : transport)
  : Prop :=
  match tr with
  | OnI2C => BusIO.i2c_dev self <> None
  | OnSPI => BusIO.i2c_dev self = None /\ BusIO.spi_dev self <> None
  end.

(** A BusIO object is sound for [tr] when [begin] and the register
    operations agree on the path: on SPI there is no I2C device. *)
Definition BusIO_sound (self : BusIO.Adafruit_CAP1188) : Prop :=
  BusIO.spi_dev self <> None -> BusIO.i2c_dev self = None.

(** What holds of every instance. *)
Definition instance_inv (d : driver) (tr : transport) (begun : bool) : Prop :=
  discriminator d = tr
  /\ match d with
     | LegacyDriver _ => True
     | BusIODriver self =>
         BusIO_sound self
         /\ (tr = OnI2C -> begun = true -> BusIO.i2c_dev self <> None)
     end.

(** The transport of the first call of a run. *)
Definition first_call {W R} (r : result W Arduino.event R)
  : option transport :=
  match trace r with
  | e :: _ => event_transport e
  | [] => None
  end.

(** * The vocabulary of the further properties *)

(** ** The calls of the register operations *)

(** Programs that come back and make calls with [P] only, whatever the
    environment. *)
Definition within {R} (P : Arduino.event -> Prop)
    (p : io Arduino.platformE R) : Prop :=
  forall (W : Type) (h : Arduino.handler W) (w : W),
    (exists x, res (Arduino.exec h p w) = Done x)
    /\ Forall P (trace (Arduino.exec h p w)).

(** The calls of the legacy register operations on I2C: those on the bus
    and to the address the object holds, reads of one byte. *)
Definition wire_call (self : Legacy.Adafruit_CAP1188) (e : Arduino.event)
  : Prop :=
  match e with
  | Arduino.EvWireBeginTransmission wire addr =>
      wire = Legacy._wire self /\ addr = Legacy._i2caddr self
  | Arduino.EvWireWrite wire _ => wire = Legacy._wire self
  | Arduino.EvWireEndTransmission wire => wire = Legacy._wire self
  | Arduino.EvWireRequestFrom wire addr n =>
      wire = Legacy._wire self /\ addr = Legacy._i2caddr self /\ n = 1
  | Arduino.EvWireRead wire _ => wire = Legacy._wire self
  | _ => False
  end.

(** The calls of the legacy register operations on SPI: transactions at
    2 MHz, most significant bit first, mode 0, on the SPI object the object
    holds; chip-select driven; and either transfers of that SPI object or
    clock and MOSI driven and MISO read. *)
Definition spi_call (self : Legacy.Adafruit_CAP1188) (e : Arduino.event)
  : Prop :=
  match e with
  | Arduino.EvSpiBeginTransaction spi s =>
      spi = Legacy._spi self
      /\ s = Arduino.mkSPISettings 2000000 Arduino.MSBFIRST Arduino.SPI_MODE0
  | Arduino.EvSpiEndTransaction spi => spi = Legacy._spi self
  | Arduino.EvSpiTransfer spi _ _ =>
      Legacy._clk self = -1 /\ spi = Legacy._spi self
  | Arduino.EvDigitalWrite pin _ =>
      pin = Legacy._cs self
      \/ (Legacy._clk self <> -1
          /\ (pin = Legacy._clk self \/ pin = Legacy._mosi self))
  | Arduino.EvDigitalRead pin _ =>
      Legacy._clk self <> -1 /\ pin = Legacy._miso self
  | _ => False
  end.

(** The calls of the BusIO register operations: writes and reads of the
    device the object holds, the I2C device when there is one. *)
Definition device_call (self : BusIO.Adafruit_CAP1188) (e : Arduino.event)
  : Prop :=
  match e with
  | Arduino.EvI2cDevWrite dev _ _ => BusIO.i2c_dev self = Some dev
  | Arduino.EvI2cDevWriteThenRead dev _ _ _ _ => BusIO.i2c_dev self = Some dev
  | Arduino.EvSpiDevWrite dev _ _ =>
      BusIO.i2c_dev self = None /\ BusIO.spi_dev self = Some dev
  | Arduino.EvSpiDevWriteThenRead dev _ _ _ _ =>
      BusIO.i2c_dev self = None /\ BusIO.spi_dev self = Some dev
  | _ => False
  end.

(** The calls a register operation of [d] may make. *)
Definition register_call (d : driver) (e : Arduino.event) : Prop :=
  match d with
  | LegacyDriver self =>
      if Legacy._i2c self then wire_call self e else spi_call self e
  | BusIODriver self => device_call self e
  end.

(** A BusIO object has one of its devices; a legacy object needs none. *)
Definition has_bus (d : driver) : Prop :=
  match d with
  | LegacyDriver _ => True
  | BusIODriver self =>
      BusIO.i2c_dev self <> None \/ BusIO.spi_dev self <> None
  end.

(** ** The reset pulse *)

(** The calls of a reset pulse on [pin]: it is made an output or driven,
    or time is let pass. *)
Definition is_reset_call (pin : Z) (e : Arduino.event) : bool :=
  match e with
  | Arduino.EvPinMode p _ => p =? pin
  | Arduino.EvDigitalWrite p _ => p =? pin
  | Arduino.EvDelay _ => true
  | _ => false
  end.

Definition reset_calls (pin : Z) (t : list Arduino.event)
  : list Arduino.event :=
  filter (is_reset_call pin) t.

(** The pulse of [begin] on the reset pin, as calls. *)
Definition pulse (pin : Z) : list Arduino.event :=
  [Arduino.EvPinMode pin Arduino.OUTPUT;
   Arduino.EvDigitalWrite pin Arduino.LOW; Arduino.EvDelay 100;
   Arduino.EvDigitalWrite pin Arduino.HIGH; Arduino.EvDelay 100;
   Arduino.EvDigitalWrite pin Arduino.LOW; Arduino.EvDelay 100].

(** The reset pin is none of the pins the driver drives for the bus. *)
Definition reset_apart (d : driver) : Prop :=
  match d with
  | LegacyDriver self =>
      Legacy._i2c self = true
      \/ (Legacy._resetpin self <> Legacy._cs self
          /\ (Legacy._clk self = -1
              \/ (Legacy._resetpin self <> Legacy._clk self
                  /\ Legacy._resetpin self <> Legacy._mosi self)))
  | BusIODriver _ => True
  end.

(** Output to the serial console. *)
Definition is_print (e : Arduino.event) : Prop :=
  match e with
  | Arduino.EvSerialPrint _ | Arduino.EvSerialPrintlnHex _ => True
  | _ => False
  end.

(** Calls that prepare a bus or a pin and carry no register access. *)
Definition is_setup_call (e : Arduino.event) : bool :=
  match e with
  | Arduino.EvPinMode _ _ | Arduino.EvDigitalWrite _ _ | Arduino.EvDelay _
  | Arduino.EvWireBegin _ | Arduino.EvSpiBegin _
  | Arduino.EvI2cDevBegin _ _ | Arduino.EvSpiDevBegin _ _ => true
  | _ => false
  end.

(** ** The pin modes of [begin] *)

(** The pin modes [begin] of [d] may set: a pin is made an output, and it
    is the reset pin or, on the legacy implementation over SPI, the
    chip-select pin or, when bit-banged, the clock or the MOSI pin. *)
Definition begin_pin_mode (d : driver) (e : Arduino.event) : Prop :=
  match e with
  | Arduino.EvPinMode pin mode =>
      mode = Arduino.OUTPUT
      /\ (pin = resetpin_of d
          \/ match d with
             | LegacyDriver self =>
                 Legacy._i2c self = false
                 /\ (pin = Legacy._cs self
                     \/ (Legacy._clk self <> -1
                         /\ (pin = Legacy._clk self
                             \/ pin = Legacy._mosi self)))
             | BusIODriver _ => False
             end)
  | _ => True
  end.

(** ** The driver against the simulated chips *)

(** From an environment state with [P], [p] returns some [r] and leaves a
    state with [Q r]. *)
Definition hoare {W : Type} (h : Arduino.handler W) {R}
    (P : W -> Prop) (p : io Arduino.platformE R) (Q : R -> W -> Prop)
  : Prop :=
  forall w, P w -> exists r w', returns h p w r w' /\ Q r w'.

(** The chip of a simulator is between two transactions and holds the
    registers [rf]. *)
Definition holds (sim : simulator) (rf : regfile) (c : chip sim) : Prop :=
  idle sim c /\ contents sim c = rf.

(** The identity registers hold what [begin] wants to read. *)
Definition genuine (rf : regfile) : bool :=
  (u8 (rf CAP1188_PRODID) =? 0x50) && (u8 (rf CAP1188_MANUID) =? 0x5D)
  && (u8 (rf CAP1188_REV) =? 0x83).

(** The registers once [begin] has configured the chip. *)
Definition configured (rf : regfile) : regfile :=
  store (store (store rf CAP1188_MTBLK 0) CAP1188_LEDLINK 0xFF)
        CAP1188_STANDBYCFG 0x30.

(** The registers once [touched] has looked at them. *)
Definition acknowledged (rf : regfile) : regfile :=
  if u8 (rf CAP1188_SENINPUTSTATUS) =? 0 then rf
  else store rf CAP1188_MAIN (Z.clearbit (u8 (rf CAP1188_MAIN)) 0).

(** ** A bus on which nothing answers *)

(** An environment in which nothing answers on the bus: [Wire] has no
    byte to hand out, so that [read()] answers -1, and MISO stays at the
    level [l], under the SPI peripheral as under [digitalRead]. *)
Definition nothing_answers {W : Type} (h : Arduino.handler W) (l : bool)
  : Prop :=
  (forall wire w, fst (h _ (Arduino.WireRead wire) w) = -1)
  /\ (forall pin w,
        Arduino.level (fst (h _ (Arduino.DigitalRead pin) w)) = l)
  /\ (forall spi data w,
        u8 (fst (h _ (Arduino.SpiTransfer spi data) w))
        = if l then 0xFF else 0).

(** What a legacy register read returns when nothing answers. *)
Definition unanswered (self : Legacy.Adafruit_CAP1188) (l : bool) : Z :=
  if Legacy._i2c self then 0xFF else if l then 0xFF else 0.

(** [p] returns [r] from every state of the environment. *)
Definition always {W : Type} (h : Arduino.handler W) {R}
    (p : io Arduino.platformE R) (r : R) : Prop :=
  forall w, res (Arduino.exec h p w) = Done r.

(** ** The example sketch *)

Module Sketch.
Import Arduino.

(** When an interrupt fires. *)
Inductive irq_mode : Type := CHANGE | RISING | FALLING.

(** What the sketch calls: what the driver calls, the rest of [Serial],
    [attachInterrupt], and the flag [volatile bool interrupt] it shares
    with its interrupt routine, which every access reads from or writes
    to memory. *)
Inductive sketchE : Type -> Type :=
  | Platform (X : Type) (e : platformE X) : sketchE X
  | SerialBegin (baud : Z) : sketchE unit
  | SerialPrintln (s : string) : sketchE unit
  | SerialPrintNumber (n : Z) : sketchE unit
  | SerialNewline : sketchE unit
  | AttachInterrupt (pin : Z) (mode : irq_mode) : sketchE unit
  | LoadInterrupt : sketchE bool
  | StoreInterrupt (b : bool) : sketchE unit.

Inductive sketch_event : Type :=
  | EvPlatform (e : event)
  | EvSerialBegin (baud : Z)
  | EvSerialPrintln (s : string)
  | EvSerialPrintNumber (n : Z)
  | EvSerialNewline
  | EvAttachInterrupt (pin : Z) (mode : irq_mode)
  | EvLoadInterrupt (b : bool)
  | EvStoreInterrupt (b : bool).

Definition log (X : Type) (e : sketchE X) : X -> sketch_event :=
  match e in sketchE X return X -> sketch_event with
  | Platform e' => fun x => EvPlatform (Arduino.log e' x)
  | SerialBegin baud => fun _ => EvSerialBegin baud
  | SerialPrintln s => fun _ => EvSerialPrintln s
  | SerialPrintNumber n => fun _ => EvSerialPrintNumber n
  | SerialNewline => fun _ => EvSerialNewline
  | AttachInterrupt pin mode => fun _ => EvAttachInterrupt pin mode
  | LoadInterrupt => fun b => EvLoadInterrupt b
  | StoreInterrupt b => fun _ => EvStoreInterrupt b
  end.

Definition handler (W : Type) : Type := forall X, sketchE X -> W -> X * W.

Definition exec {W R} (h : handler W) (p : io sketchE R) (w : W)
  : result W sketch_event R := run h log p w.

(** A program of the driver, as part of the sketch. *)
Fixpoint lift {R} (p : io platformE R) : io sketchE R :=
  match p with
  | Ret r => Ret r
  | Vis e k => Vis (Platform e) (fun x => lift (k x))
  | Crash u => Crash u
  end.

(** The part of an environment of the sketch that the driver sees. *)
Definition platform_of {W} (h : handler W) : Arduino.handler W :=
  fun X e w => h X (Platform e) w.

(** [void routine_Interrupt_CAP1188()] *)
Definition routine_Interrupt_CAP1188 : io sketchE unit :=
  call (StoreInterrupt true).

(** How [setup] ends: it returns, or it stays in its [while (1);]. *)
Inductive setup_end : Type := Returns | Spins.

(** [void setup()], for the object [cap] the sketch declares, whichever
    of its four declarations is taken; [begin()] gets its default
    arguments, the address [CAP1188_I2CADDR] and the bus [&Wire]. *)
Definition setup (Wire : ptr) (cap : driver)
  : io sketchE (setup_end * driver) :=
  call (SerialBegin 9600);;
  call (SerialPrintln "CAP1188 test!");;
  r <- lift (begin cap CAP1188_I2CADDR Wire);;
  if negb (fst r) then
    call (SerialPrintln "CAP1188 not found");;
    Ret (Spins, snd r)
  else
    call (SerialPrintln "CAP1188 found!");;
    lift (pinMode 3 INPUT);;
    call (AttachInterrupt 3 FALLING);;
    Ret (Returns, snd r).

Definition tab : string := String (Ascii.ascii_of_nat 9) EmptyString.

(** The loop [for (uint8_t i = ...; i < 8; i++)] of [loop], with [n]
    iterations left. *)
Fixpoint report (touched : Z) (n : nat) (i : Z) : io sketchE unit :=
  match n with
  | O => Ret tt
  | S n' =>
      (if negb (Z.land touched (Z.shiftl 1 i) =? 0) then
         lift (Serial_print "C");;
         call (SerialPrintNumber (i + 1));;
         lift (Serial_print tab)
       else Ret tt);;
      report touched n' (i + 1)
  end.

(** [void loop()] *)
Definition loop (cap : driver) : io sketchE unit :=
  interrupt <- call LoadInterrupt;;
  (if (interrupt : bool) then
     touched <- lift (touched cap);;
     report touched 8 0;;
     call SerialNewline;;
     call (StoreInterrupt false)
   else Ret tt);;
  lift (delay 50).

(** What [loop] prints for channel [i + 1]. *)
Definition channel_report (touched : Z) (i : Z) : list sketch_event :=
  if Z.testbit touched i then
    [EvPlatform (EvSerialPrint "C"); EvSerialPrintNumber (i + 1);
     EvPlatform (EvSerialPrint tab)]
  else [].

(** The [n] numbers from [i] on. *)
Fixpoint upfrom (i : Z) (n : nat) : list Z :=
  match n with
  | O => []
  | S n' => i :: upfrom (i + 1) n'
  end.

(** A board without a chip behind the pin of the interrupt: the flag is
    memory that only the sketch writes, the console takes what it is
    sent, and the driver's calls go to [hp]. *)
Definition board {W} (hp : Arduino.handler W) : handler (W * bool) :=
  fun X (e : sketchE X) =>
    match e in sketchE X return W * bool -> X * (W * bool) with
    | Platform e' => fun s =>
        (fst (hp _ e' (fst s)), (snd (hp _ e' (fst s)), snd s))
    | LoadInterrupt => fun s => (snd s, s)
    | StoreInterrupt b => fun s => (tt, (fst s, b))
    | SerialBegin _ => fun s => (tt, s)
    | SerialPrintln _ => fun s => (tt, s)
    | SerialPrintNumber _ => fun s => (tt, s)
    | SerialNewline => fun s => (tt, s)
    | AttachInterrupt _ _ => fun s => (tt, s)
    end.

End Sketch.

(** * Facts about the embedding *)

(** ** Running a bind and a call *)

Section RunFacts.
Context {E : Type -> Type} {W Ev : Type}.
Variable handle : forall X, E X -> W -> X * W.
Variable log : forall X, E X -> X -> Ev.

Lemma run_bind {A B} (p : io E A) (f : A -> io E B) (w : W) :
  run handle log (bind p f) w
  = and_then (run handle log p w) (fun a w' => run handle log (f a) w').
Proof.
  revert w. induction p as [a | X e k IH | u]; intros w; cbn.
  - unfold and_then; cbn. destruct (run handle log (f a) w); reflexivity.
  - rewrite IH. unfold and_then; cbn.
    destruct (res (run handle log (k (fst (handle e w)))
                       (snd (handle e w))));
      reflexivity.
  - reflexivity.
Qed.

Lemma run_call {X} (e : E X) (w : W) :
  run handle log (call e) w =
  mkResult (Done (fst (handle e w))) (snd (handle e w))
           [log e (fst (handle e w))].
Proof. reflexivity. Qed.
End RunFacts.

(** The run of a bind whose first part returns. *)
Lemma exec_bind {W A B} (h : Arduino.handler W) (p : io Arduino.platformE A)
    (f : A -> io Arduino.platformE B) (w : W) (a : A) :
  res (Arduino.exec h p w) = Done a ->
  Arduino.exec h (bind p f) w
  = let r1 := Arduino.exec h p w in
    let r2 := Arduino.exec h (f a) (world r1) in
    mkResult (res r2) (world r2) (trace r1 ++ trace r2).
Proof.
  intros Ha. unfold Arduino.exec in *. rewrite run_bind. unfold and_then.
  rewrite Ha. reflexivity.
Qed.

(** ** Watching a trace in two parts *)

Lemma watch_app (m : monitor) (s : mstate m) (t1 t2 : list Arduino.event) :
  watch m s (t1 ++ t2) =
  (fst (watch m (fst (watch m s t1)) t2),
   snd (watch m s t1) ++ snd (watch m (fst (watch m s t1)) t2)).
Proof.
  revert s. induction t1 as [| e t1 IH]; intros s; cbn.
  - destruct (watch m s t2); reflexivity.
  - rewrite IH. cbn. rewrite app_assoc. reflexivity.
Qed.

(** ** Rules of the logic of watched runs *)

Section Shows.
Import Arduino.
Context {W : Type} (h : handler W) (m : monitor).

Lemma shows_ret {R} (r : R) (Q : R -> list access -> Prop) :
  Q r [] -> shows h m (Ret r) Q.
Proof. intros HQ w s Hs. exists r. cbn. auto. Qed.

Lemma shows_bind {A B} (p : io platformE A) (f : A -> io platformE B)
    (Q1 : A -> list access -> Prop) (Q2 : B -> list access -> Prop) :
  shows h m p Q1 ->
  (forall a l1, Q1 a l1 ->
     shows h m (f a) (fun b l2 => Q2 b (l1 ++ l2))) ->
  shows h m (bind p f) Q2.
Proof.
  intros Hp Hf w s Hs. unfold exec in *. rewrite run_bind.
  destruct (Hp w s Hs) as (a & Ha & Hq & HQ1). unfold exec in *.
  unfold and_then. rewrite Ha. cbn.
  rewrite watch_app. cbn.
  destruct (Hf a _ HQ1 (world (run h log p w)) _ Hq) as (b & Hb & Hq' & HQ2).
  unfold exec in *. exists b. auto.
Qed.

Lemma shows_weaken {R} (p : io platformE R)
    (Q Q' : R -> list access -> Prop) :
  shows h m p Q -> (forall r l, Q r l -> Q' r l) -> shows h m p Q'.
Proof.
  intros Hp HQ w s Hs. destruct (Hp w s Hs) as (r & ? & ? & ?).
  exists r. auto.
Qed.

(** A call the monitor ignores. *)
Lemma shows_silent {X} (e : platformE X) (Q : X -> list access -> Prop) :
  (forall s x, observe m s (log e x) = (s, [])) ->
  (forall x, Q x []) ->
  shows h m (call e) Q.
Proof.
  intros Hsilent HQ w s Hs. unfold exec. rewrite run_call. cbn.
  rewrite Hsilent. cbn. eauto.
Qed.
End Shows.

(** ** The shared logic, found in both implementations *)

Lemma BusIO_begin_opened_eq (self : BusIO.Adafruit_CAP1188) :
  BusIO.begin_opened self =
  reset_pulse (BusIO._resetpin self);;
  identify (BusIO.readRegister self) (BusIO.writeRegister self).
Proof. reflexivity. Qed.

Lemma BusIO_touched_eq (self : BusIO.Adafruit_CAP1188) :
  BusIO.touched self =
  touch (BusIO.readRegister self) (BusIO.writeRegister self).
Proof. reflexivity. Qed.

Lemma Legacy_begin_opened_eq (self : Legacy.Adafruit_CAP1188) :
  Legacy.begin_opened self =
  reset_pulse (Legacy._resetpin self);;
  identify (Legacy.readRegister self) (Legacy.writeRegister self).
Proof. reflexivity. Qed.

Lemma Legacy_touched_eq (self : Legacy.Adafruit_CAP1188) :
  Legacy.touched self =
  touch (Legacy.readRegister self) (Legacy.writeRegister self).
Proof. reflexivity. Qed.

Section DriverLogicFacts.
Import Arduino.
Context {W : Type} (h : handler W) (m : monitor).
Variable readRegister : Z -> io platformE Z.
Variable writeRegister : Z -> Z -> io platformE unit.
Variable got : Z -> Z -> Z -> Prop.

Hypothesis read_shown : forall reg, is_u8 reg ->
  shows h m (readRegister reg)
        (fun v l => is_u8 v /\ exists mv, l = [RegRead reg mv] /\ got reg mv v).
Hypothesis write_shown : forall reg v, is_u8 reg -> is_u8 v ->
  shows h m (writeRegister reg v) (fun _ l => l = [RegWrite reg v]).
Hypothesis print_silent : forall s str,
  observe m s (EvSerialPrint str) = (s, []).
Hypothesis println_shown : forall s v,
  observe m s (EvSerialPrintlnHex v) = (s, [Printed v]).

Lemma shows_print (str : string) :
  shows h m (Serial_print str) (fun _ l => l = []).
Proof. apply shows_silent; [intros; cbn; auto | auto]. Qed.

Lemma shows_println (v : Z) :
  shows h m (Serial_println_HEX v) (fun _ l => l = [Printed v]).
Proof.
  intros w s Hs. unfold exec, Serial_println_HEX. rewrite run_call. cbn.
  rewrite println_shown. cbn. eauto.
Qed.

Ltac u8_const := unfold is_u8; cbv; intuition congruence.

Local Tactic Notation "step_read_as" ident(v) ident(mv) :=
  eapply shows_bind; [apply read_shown; u8_const | cbn beta];
  let l := fresh "l" in intros v l (? & mv & -> & ?).

Ltac step_read :=
  let v := fresh "v" in let mv := fresh "mv" in step_read_as v mv.

Ltac step_write :=
  eapply shows_bind; [apply write_shown; u8_const | cbn beta];
  let l := fresh "l" in intros [] l ->.

Ltac step_print :=
  eapply shows_bind; [first [apply shows_print | apply shows_println]
                     | cbn beta];
  let l := fresh "l" in intros [] l ->.

Lemma identify_shown :
  shows h m (identify readRegister writeRegister)
        (fun b l => identify_run got l b).
Proof.
  unfold identify.
  step_read. step_print. step_read. step_print. step_print.
  step_read. step_print. step_print. step_read. step_print.
  step_read_as prod pm.
  destruct (Z.eqb_spec prod 0x50) as [-> | Hp]; cbn [negb].
  2: { apply shows_ret. cbn. eapply Id_prod; eassumption. }
  step_read_as manu mm.
  destruct (Z.eqb_spec manu 0x5D) as [-> | Hm]; cbn [negb].
  2: { apply shows_ret. cbn. eapply Id_manu; eassumption. }
  step_read_as rev rm.
  destruct (Z.eqb_spec rev 0x83) as [-> | Hr]; cbn [negb].
  2: { apply shows_ret. cbn. eapply Id_rev; eassumption. }
  step_write. step_write. step_write.
  apply shows_ret. cbn. eapply Id_ok; eassumption.
Qed.

Lemma touch_shown :
  shows h m (touch readRegister writeRegister)
        (fun t l => touch_run got l t).
Proof.
  unfold touch. step_read_as t tm.
  destruct (Z.eqb_spec t 0) as [-> | Ht]; cbn [negb].
  - eapply shows_bind with (Q1 := fun _ l => l = []);
      [apply shows_ret; reflexivity | cbn beta].
    intros [] l ->. apply shows_ret. cbn. now constructor.
  - eapply shows_bind with
      (Q1 := fun _ l => exists main mm, is_u8 main /\ got 0x00 mm main /\
               l = [RegRead 0x00 mm;
                    RegWrite 0x00 (u8 (Z.land main (Z.lnot 1)))]).
    + step_read_as main mm. eapply shows_weaken.
      * apply write_shown; [u8_const | unfold is_u8, u8].
        apply Z.mod_pos_bound. lia.
      * intros [] l ->. cbn. eauto.
    + cbn beta. intros [] l (main & mm & Hmain & Hgot & ->).
      apply shows_ret. cbn. now constructor.
Qed.
End DriverLogicFacts.

(** ** Register operations as the monitors see them *)

Lemma u8_is_u8 (x : Z) : is_u8 (u8 x).
Proof. unfold is_u8, u8. apply Z.mod_pos_bound. lia. Qed.

Lemma u8_small (x : Z) : is_u8 x -> u8 x = x.
Proof. unfold is_u8, u8. intros H. apply Z.mod_small. exact H. Qed.

Section BusIOShown.
Import Arduino.
Context {W : Type} (h : handler W).
Variable self : BusIO.Adafruit_CAP1188.
Hypothesis has_device : operational (BusIODriver self).

(** An answer without a byte shows that the environment does not always
    store the bytes asked for. *)
Lemma not_delivering {X} (e : platformE X) (w : W) :
  stored (log e (fst (h e w))) = false -> ~ delivering h.
Proof. intros Hno Hall. rewrite (Hall X e w) in Hno. discriminate. Qed.

Lemma BusIO_read_shown (reg : Z) :
  is_u8 reg ->
  shows h BusIOMonitor.mon (BusIO.readRegister self reg)
        (fun v l => is_u8 v
                    /\ exists mv, l = [RegRead reg mv]
                                  /\ returned h (BusIODriver self) reg mv v).
Proof.
  intros Hreg w s _. unfold exec, BusIO.readRegister, returned, buffer_byte.
  destruct (BusIO.i2c_dev self) as [i2c |] eqn:Hi2c.
  - cbn.
    destruct (snd (fst (h (I2cDevWriteThenRead i2c [reg] 1) w)))
      as [| b rest] eqn:Hdata; cbn.
    + eexists. split; [reflexivity |]. split; [reflexivity |].
      split; [exact Hreg |]. eexists. split; [reflexivity |]. right.
      split; [| split; reflexivity].
      apply (@not_delivering _ (I2cDevWriteThenRead i2c [reg] 1) w).
      cbn. rewrite Hdata. reflexivity.
    + eexists. split; [reflexivity |]. split; [reflexivity |].
      split; [apply u8_is_u8 |]. eexists. split; [reflexivity |].
      left. reflexivity.
  - destruct (BusIO.spi_dev self) as [spi |] eqn:Hspi.
    + cbn.
      destruct (snd (fst (h (SpiDevWriteThenRead spi [0x7D; reg; 0x7F] 1)
                            w)))
        as [| b rest] eqn:Hdata; cbn.
      * eexists. split; [reflexivity |]. split; [reflexivity |].
        split; [unfold is_u8; lia |]. eexists. split; [reflexivity |].
        right. split; [| split; reflexivity].
        apply (@not_delivering _
                 (SpiDevWriteThenRead spi [0x7D; reg; 0x7F] 1) w).
        cbn. rewrite Hdata. reflexivity.
      * eexists. split; [reflexivity |]. split; [reflexivity |].
        split; [apply u8_is_u8 |]. eexists. split; [reflexivity |].
        left. reflexivity.
    + exfalso. cbn in has_device. rewrite Hi2c, Hspi in has_device.
      destruct has_device; congruence.
Qed.

Lemma BusIO_write_shown (reg v : Z) :
  shows h BusIOMonitor.mon (BusIO.writeRegister self reg v)
        (fun _ l => l = [RegWrite reg v]).
Proof.
  intros w s _. unfold exec, BusIO.writeRegister.
  destruct (BusIO.i2c_dev self) as [i2c |] eqn:Hi2c.
  - cbn. exists tt. auto.
  - destruct (BusIO.spi_dev self) as [spi |] eqn:Hspi.
    + cbn. exists tt. auto.
    + exfalso. cbn in has_device. rewrite Hi2c, Hspi in has_device.
      destruct has_device; congruence.
Qed.
End BusIOShown.

Section WireShown.
Import Arduino.
Context {W : Type} (h : handler W).
Variable self : Legacy.Adafruit_CAP1188.
Hypothesis on_i2c : Legacy._i2c self = true.

Lemma Wire_read_shown (reg : Z) :
  shows h WireMonitor.mon (Legacy.readRegister self reg)
        (fun v l => is_u8 v /\ l = [RegRead reg v]).
Proof.
  intros w s Hs. unfold exec, Legacy.readRegister. rewrite on_i2c.
  cbn. eexists. split; [reflexivity |]. split; [reflexivity |].
  split; [apply u8_is_u8 | reflexivity].
Qed.

Lemma Wire_write_shown (reg v : Z) :
  shows h WireMonitor.mon (Legacy.writeRegister self reg v)
        (fun _ l => l = [RegWrite reg v]).
Proof.
  intros w s Hs. unfold exec, Legacy.writeRegister. rewrite on_i2c.
  cbn. eexists. split; [reflexivity |]. auto.
Qed.
End WireShown.

(** ** Rules for watched runs from any monitor state *)

Section Triples.
Import Arduino.
Context {W : Type} (h : handler W) (m : monitor).

Lemma triple_ret {R} (P : mstate m -> Prop) (r : R)
    (Q : R -> mstate m -> list access -> Prop) :
  (forall s, P s -> Q r s []) -> triple h m P (Ret r) Q.
Proof. intros HQ w s Hs. exists r. cbn. auto. Qed.

Lemma triple_bind {A B} (P : mstate m -> Prop)
    (p : io platformE A) (f : A -> io platformE B)
    (Q1 : A -> mstate m -> list access -> Prop)
    (Q2 : B -> mstate m -> list access -> Prop) :
  triple h m P p Q1 ->
  (forall a l1,
     triple h m (fun s => Q1 a s l1) (f a) (fun b s' l2 => Q2 b s' (l1 ++ l2))) ->
  triple h m P (bind p f) Q2.
Proof.
  intros Hp Hf w s Hs. unfold exec in *. rewrite run_bind.
  destruct (Hp w s Hs) as (a & Ha & HQ1). unfold exec in *.
  unfold and_then. rewrite Ha. cbn.
  rewrite watch_app. cbn.
  destruct (Hf a _ (world (run h log p w)) _ HQ1) as (b & Hb & HQ2).
  unfold exec in *. exists b. auto.
Qed.

Lemma triple_call {X} (P : mstate m -> Prop) (e : platformE X)
    (Q : X -> mstate m -> list access -> Prop) :
  (forall s x, P s ->
     Q x (fst (observe m s (log e x))) (snd (observe m s (log e x)))) ->
  triple h m P (call e) Q.
Proof.
  intros HQ w s Hs. unfold exec. rewrite run_call. cbn.
  eexists. split; [reflexivity |]. rewrite app_nil_r. apply HQ, Hs.
Qed.

Lemma triple_conseq {R} (P P' : mstate m -> Prop) (p : io platformE R)
    (Q Q' : R -> mstate m -> list access -> Prop) :
  triple h m P p Q ->
  (forall s, P' s -> P s) ->
  (forall r s l, Q r s l -> Q' r s l) ->
  triple h m P' p Q'.
Proof.
  intros Hp HP HQ w s Hs. destruct (Hp w s (HP s Hs)) as (r & ? & ?).
  exists r. auto.
Qed.

Lemma triple_pure {R} (phi : Prop) (P : mstate m -> Prop)
    (p : io platformE R) (Q : R -> mstate m -> list access -> Prop) :
  (phi -> triple h m P p Q) -> triple h m (fun s => phi /\ P s) p Q.
Proof. intros Hp w s [Hphi Hs]. exact (Hp Hphi w s Hs). Qed.

Lemma triple_exists {R X} (P : X -> mstate m -> Prop)
    (p : io platformE R) (Q : R -> mstate m -> list access -> Prop) :
  (forall x, triple h m (P x) p Q) -> triple h m (fun s => exists x, P x s) p Q.
Proof. intros Hp w s [x Hs]. exact (Hp x w s Hs). Qed.

Lemma triple_shows {R} (p : io platformE R)
    (Q : R -> list access -> Prop) :
  triple h m (fun s => quiet m s = true) p
         (fun r s' l => quiet m s' = true /\ Q r l) ->
  shows h m p Q.
Proof.
  intros Hp w s Hs. destruct (Hp w s Hs) as (r & ? & ? & ?).
  exists r. auto.
Qed.
End Triples.

(** ** Bytes from bits and back *)

Lemma forall_u8 (P : Z -> bool) :
  forallb P (map Z.of_nat (seq 0 256)) = true ->
  forall x, is_u8 x -> P x = true.
Proof.
  intros H x Hx. rewrite forallb_forall in H. apply H.
  rewrite <- (Z2Nat.id x) by (unfold is_u8 in Hx; lia).
  apply in_map, in_seq. unfold is_u8 in Hx. lia.
Qed.

Lemma level_bit (d : Z) (i : nat) :
  Arduino.level (Z.land d (Z.shiftl 1 (Z.of_nat i))) = Z.testbit d (Z.of_nat i).
Proof.
  unfold Arduino.level. rewrite Z.shiftl_1_l.
  destruct (Z.testbit d (Z.of_nat i)) eqn:Hbit.
  - destruct (Z.eqb_spec (Z.land d (2 ^ Z.of_nat i)) 0) as [H0 | H0];
      [| reflexivity].
    assert (Hb : Z.testbit (Z.land d (2 ^ Z.of_nat i)) (Z.of_nat i) = true).
    { rewrite Z.land_spec, Hbit, Z.pow2_bits_true by lia. reflexivity. }
    rewrite H0, Z.bits_0 in Hb. discriminate.
  - replace (Z.land d (2 ^ Z.of_nat i)) with 0; [reflexivity |].
    symmetry. apply Z.bits_inj'. intros j Hj.
    rewrite Z.land_spec, Z.bits_0, Z.pow2_bits_eqb by lia.
    destruct (Z.eqb_spec (Z.of_nat i) j) as [<- | _].
    + rewrite Hbit. reflexivity.
    + apply andb_false_r.
Qed.

Lemma assemble_bits_of (d : Z) : is_u8 d -> assemble (bits_of d 8) = d.
Proof.
  intros Hd.
  apply Z.eqb_eq.
  apply (forall_u8 (fun d => assemble (bits_of d 8) =? d)); [| exact Hd].
  vm_compute. reflexivity.
Qed.

Lemma assemble_snoc (l : list bool) (b : bool) :
  assemble (l ++ [b]) = 2 * assemble l + Z.b2z b.
Proof. unfold assemble. rewrite fold_left_app. reflexivity. Qed.

Lemma assemble_bound (l : list bool) :
  0 <= assemble l < 2 ^ Z.of_nat (List.length l).
Proof.
  induction l as [| b l IH] using rev_ind.
  - cbn. lia.
  - rewrite assemble_snoc, length_app. cbn [List.length].
    replace (Z.of_nat (List.length l + 1)) with (Z.succ (Z.of_nat (List.length l)))
      by lia.
    rewrite Z.pow_succ_r by lia. destruct b; cbn [Z.b2z]; lia.
Qed.

(** ** The run of the bit-banged transfer *)

Lemma shift_in_assemble (l : list bool) (sample : Z) :
  (List.length l < 8)%nat ->
  shift_in (assemble l) sample = assemble (l ++ [Arduino.level sample]).
Proof.
  intros Hlen. rewrite assemble_snoc.
  pose proof (assemble_bound l) as Hb.
  assert (H7 : 2 ^ Z.of_nat (List.length l) <= 2 ^ 7)
    by (apply Z.pow_le_mono_r; lia).
  change (2 ^ 7) with 128 in H7.
  assert (Hr : is_u8 (assemble l)) by (unfold is_u8; lia).
  assert (Hsmall : (assemble l <? 128) = true) by (apply Z.ltb_lt; lia).
  revert Hsmall. generalize (assemble l) Hr. clear. intros r Hr Hsmall.
  unfold shift_in, Arduino.level.
  assert (forall b : bool,
    (if b then Z.lor (u8 (Z.shiftl r 1)) 1 else u8 (Z.shiftl r 1))
    = 2 * r + Z.b2z b) as Hall.
  { intros b. apply Z.eqb_eq.
    assert (Himp := forall_u8
      (fun r => implb (r <? 128)
         ((if b then Z.lor (u8 (Z.shiftl r 1)) 1 else u8 (Z.shiftl r 1))
          =? 2 * r + Z.b2z b))).
    cbv beta in Himp.
    specialize (Himp ltac:(destruct b; vm_compute; reflexivity) r Hr).
    rewrite Hsmall in Himp. exact Himp. }
  apply Hall.
Qed.

Section SpixferRun.
Import Arduino.
Context {W : Type} (h : handler W).
Variable self : Legacy.Adafruit_CAP1188.

Lemma spixfer_loop_run (data : Z) (n : nat) (reply : Z) (w : W) :
  let r := exec h (Legacy.spixfer_loop self data n reply) w in
  trace r = byte_time self data n (miso_samples (trace r))
  /\ List.length (miso_samples (trace r)) = n
  /\ res r = Done (fold_left shift_in (miso_samples (trace r)) reply).
Proof.
  revert reply w. induction n as [| i IH]; intros reply w; cbn.
  - auto.
  - match goal with
    | |- context [run h log (Legacy.spixfer_loop self data i ?r') ?w'] =>
        destruct (IH r' w') as (Ht & Hlen & Hres)
    end.
    unfold exec in *. cbn zeta in *.
    repeat split.
    + do 4 f_equal. exact Ht.
    + f_equal. exact Hlen.
    + rewrite Hres. reflexivity.
Qed.
End SpixferRun.

(** ** The pin monitor decodes the legacy SPI path *)

Lemma fold_shift_in (samples : list Z) (l : list bool) :
  (List.length l + List.length samples <= 8)%nat ->
  fold_left shift_in samples (assemble l)
  = assemble (l ++ map Arduino.level samples).
Proof.
  revert l. induction samples as [| a samples IH]; intros l Hlen; cbn.
  - rewrite app_nil_r. reflexivity.
  - cbn in Hlen. rewrite shift_in_assemble by lia.
    rewrite IH by (rewrite length_app; cbn; lia).
    rewrite <- app_assoc. reflexivity.
Qed.

Lemma fold_shift_in_0 (samples : list Z) :
  (List.length samples <= 8)%nat ->
  fold_left shift_in samples 0 = assemble (map Arduino.level samples).
Proof. intros Hlen. exact (fold_shift_in samples [] Hlen). Qed.

Lemma mosi_levels_S (data : Z) (n : nat) :
  mosi_levels data (S n)
  = Arduino.level (Z.land data (Z.shiftl 1 (Z.of_nat n)))
    :: mosi_levels data n.
Proof.
  unfold mosi_levels. rewrite seq_S, rev_app_distr. reflexivity.
Qed.

Lemma mosi_levels_bits (data : Z) (n : nat) :
  mosi_levels data n = bits_of data n.
Proof.
  unfold mosi_levels, bits_of. apply map_ext. intros i. apply level_bit.
Qed.

Section PinShown.
Import Arduino.
Variable self : Legacy.Adafruit_CAP1188.

Let wr := wiring_of self.
Let pmon := PinMonitor.mon wr.

Lemma step_cs (s : PinMonitor.state) (v : Z) :
  PinMonitor.step wr s (EvDigitalWrite (Legacy._cs self) v)
  = (PinMonitor.on_cs s (level v), []).
Proof. cbn. rewrite Z.eqb_refl. reflexivity. Qed.

Section BitBanged.
Hypothesis cs_clk : Legacy._cs self <> Legacy._clk self.
Hypothesis cs_mosi : Legacy._cs self <> Legacy._mosi self.
Hypothesis clk_mosi : Legacy._clk self <> Legacy._mosi self.

Lemma step_clk (s : PinMonitor.state) (v : Z) :
  PinMonitor.step wr s (EvDigitalWrite (Legacy._clk self) v)
  = (PinMonitor.on_clk s (level v), []).
Proof.
  cbn. rewrite Z.eqb_refl.
  destruct (Z.eqb_spec (Legacy._clk self) (Legacy._cs self));
    [congruence | reflexivity].
Qed.

Lemma step_mosi (s : PinMonitor.state) (v : Z) :
  PinMonitor.step wr s (EvDigitalWrite (Legacy._mosi self) v)
  = (PinMonitor.on_mosi s (level v), []).
Proof.
  cbn. rewrite Z.eqb_refl.
  destruct (Z.eqb_spec (Legacy._mosi self) (Legacy._cs self));
    [congruence |].
  destruct (Z.eqb_spec (Legacy._mosi self) (Legacy._clk self));
    [congruence | reflexivity].
Qed.

Lemma step_miso (s : PinMonitor.state) (a : Z) :
  PinMonitor.selected s = true ->
  PinMonitor.step wr s (EvDigitalRead (Legacy._miso self) a)
  = PinMonitor.on_sample s (level a).
Proof. intros Hs. cbn. rewrite Z.eqb_refl, Hs. reflexivity. Qed.

(** One bit time, seen from a selected chip. *)
Lemma bit_time_watch (data : Z) (i : nat) (a : Z) (dc : spi_decoder)
    (cl ml : bool) (bs : list (bool * bool)) :
  watch pmon (PinMonitor.mkState true dc cl ml None bs)
        (bit_time self data i a)
  = PinMonitor.on_sample
      (PinMonitor.mkState true dc true
         (level (Z.land data (Z.shiftl 1 (Z.of_nat i))))
         (Some (level (Z.land data (Z.shiftl 1 (Z.of_nat i))))) bs)
      (level a).
Proof.
  unfold bit_time. cbn [watch pmon PinMonitor.mon observe].
  rewrite step_clk. cbn [fst snd]. rewrite step_mosi. cbn [fst snd].
  rewrite step_clk. cbn [fst snd].
  rewrite step_miso by reflexivity.
  set (b := level (Z.land data (Z.shiftl 1 (Z.of_nat i)))).
  replace (PinMonitor.on_clk
             (PinMonitor.on_mosi
                (PinMonitor.on_clk
                   (PinMonitor.mkState true dc cl ml None bs)
                   (level LOW)) b) (level HIGH))
    with (PinMonitor.mkState true dc true b (Some b) bs)
    by (destruct cl; reflexivity).
  cbn [app]. rewrite app_nil_r.
  destruct (PinMonitor.on_sample _ _). reflexivity.
Qed.

(** The bit times left of a byte, seen from a selected chip that has
    the earlier bits in [bs]. *)
Lemma byte_time_watch (data : Z) (n : nat) :
  forall (samples : list Z) (dc : spi_decoder) (cl ml : bool)
         (bs : list (bool * bool)),
    List.length samples = S n ->
    (List.length bs + S n = 8)%nat ->
    let o := spi_byte dc
               (assemble (rev (map fst bs) ++ mosi_levels data (S n)))
               (assemble (rev (map snd bs) ++ map level samples)) in
    watch pmon (PinMonitor.mkState true dc cl ml None bs)
          (byte_time self data (S n) samples)
    = (PinMonitor.mkState true (fst o) true
         (level (Z.land data (Z.shiftl 1 0))) None [], snd o).
Proof.
  induction n as [| n IH]; intros samples dc cl ml bs Hlen Hbs o.
  - destruct samples as [| a [| ? ?]]; try discriminate.
    cbn [byte_time hd tl]. rewrite app_nil_r, bit_time_watch.
    unfold PinMonitor.on_sample.
    cbn [PinMonitor.latch PinMonitor.bits List.length].
    replace (S (List.length bs) =? 8)%nat with true
      by (symmetry; apply Nat.eqb_eq; lia).
    cbn [PinMonitor.dec PinMonitor.selected PinMonitor.clk_lvl
         PinMonitor.mosi_lvl map fst snd rev].
    reflexivity.
  - destruct samples as [| a samples]; try discriminate.
    cbn [List.length] in Hlen.
    change (byte_time self data (S (S n)) (a :: samples))
      with (bit_time self data (S n) a
            ++ byte_time self data (S n) samples).
    rewrite watch_app, bit_time_watch.
    unfold PinMonitor.on_sample.
    cbn [PinMonitor.latch PinMonitor.bits List.length].
    replace (S (List.length bs) =? 8)%nat with false
      by (symmetry; apply Nat.eqb_neq; lia).
    cbn [PinMonitor.dec PinMonitor.selected PinMonitor.clk_lvl
         PinMonitor.mosi_lvl fst snd].
    rewrite IH by (cbn [List.length]; lia).
    cbn [map fst snd rev app]. subst o.
    rewrite (mosi_levels_S data (S n)).
    rewrite <- !app_assoc. reflexivity.
Qed.
End BitBanged.
End PinShown.

Section LegacySpiShown.
Import Arduino.
Context {W : Type} (h : handler W).
Variable self : Legacy.Adafruit_CAP1188.
Hypothesis on_spi : Legacy._i2c self = false.
Hypothesis wired : distinct_pins self.

Let pmon := PinMonitor.mon (wiring_of self).

Lemma spixfer_triple (dc : spi_decoder) (data : Z) :
  is_u8 data ->
  triple h pmon (framed dc) (Legacy.spixfer self data)
         (fun v s' l => is_u8 v
                        /\ framed (fst (spi_byte dc data v)) s'
                        /\ l = snd (spi_byte dc data v)).
Proof.
  intros Hdata w s (Hsel & Hdec & Hlatch & Hbits).
  unfold Legacy.spixfer.
  destruct (Z.eqb_spec (Legacy._clk self) (-1)) as [Hhw | Hsw].
  - unfold exec. cbn.
    eexists. split; [reflexivity |].
    unfold PinMonitor.on_transfer. rewrite Hsel, Hdec. cbn.
    rewrite app_nil_r.
    split; [apply u8_is_u8 |]. repeat split; auto.
  - destruct wired as [? | (Hcc & Hcm & Hkm)]; [contradiction |].
    destruct (spixfer_loop_run h self data 8 0 w) as (Ht & Hlen & Hres).
    set (r := exec h (Legacy.spixfer_loop self data 8 0) w) in *.
    set (ms := miso_samples (trace r)) in *.
    exists (assemble (map level ms)).
    assert (Hv : fold_left shift_in ms 0 = assemble (map level ms))
      by (apply fold_shift_in_0; lia).
    split; [rewrite Hres, Hv; reflexivity |].
    rewrite Ht. destruct s as [sel dc' cl ml la bs].
    cbn in Hsel, Hdec, Hlatch, Hbits. subst sel dc' la bs.
    unfold pmon.
    rewrite (byte_time_watch self Hcc Hcm Hkm data (n := 7) ms dc cl ml [])
      by (cbn; lia).
    cbn [rev map app fst snd].
    rewrite mosi_levels_bits, assemble_bits_of by assumption.
    split; [| repeat split].
    pose proof (assemble_bound (map level ms)) as Hb.
    rewrite length_map, Hlen in Hb. exact Hb.
Qed.

Local Ltac u8_const := unfold is_u8; cbv; intuition congruence.

(** Then: run [p], which decodes nothing and leaves a state with [P']. *)
Local Ltac then_quietly P' :=
  eapply triple_bind with (Q1 := fun _ s l => l = [] /\ P' s);
  [ | intros ? ?; apply triple_pure; intros -> ].

Local Ltac by_spixfer :=
  eapply triple_conseq;
  [ apply spixfer_triple; first [assumption | u8_const]
  | intros ? Hf; exact Hf
  | cbn; intros ? ? ? (? & ? & ->); auto ].

Lemma select_triple (P : PinMonitor.state -> Prop) :
  triple h pmon P (digitalWrite (Legacy._cs self) LOW)
         (fun _ s l => l = [] /\
            exists p, framed (mkSpiDecoder AwaitCommand p) s).
Proof.
  apply triple_call. intros s [] _. cbn [log].
  unfold pmon. cbn [observe PinMonitor.mon]. rewrite step_cs.
  split; [reflexivity |]. exists (pointer (PinMonitor.dec s)).
  repeat split.
Qed.

Lemma deselect_triple (p : Z) (ph : spi_phase) :
  triple h pmon (framed (mkSpiDecoder ph p))
         (digitalWrite (Legacy._cs self) HIGH)
         (fun _ s l => l = [] /\
            (PinMonitor.selected s = false
             /\ pointer (PinMonitor.dec s) = p)).
Proof.
  apply triple_call. intros s [] (_ & Hdec & _). cbn [log].
  unfold pmon. cbn [observe PinMonitor.mon]. rewrite step_cs.
  cbn. rewrite Hdec. auto.
Qed.

Lemma reselect_triple (p : Z) :
  triple h pmon (fun s => PinMonitor.selected s = false
                          /\ pointer (PinMonitor.dec s) = p)
         (digitalWrite (Legacy._cs self) LOW)
         (fun _ s l => l = [] /\ framed (mkSpiDecoder AwaitCommand p) s).
Proof.
  apply triple_call. intros s [] (_ & Hp). cbn [log].
  unfold pmon. cbn [observe PinMonitor.mon]. rewrite step_cs.
  split; [reflexivity |].
  unfold framed, PinMonitor.on_cs, spi_frame. cbn. rewrite Hp. auto.
Qed.

Lemma Spi_read_shown (reg : Z) :
  is_u8 reg ->
  shows h pmon (Legacy.readRegister self reg)
        (fun v l => is_u8 v /\ l = [RegRead reg v]).
Proof.
  intros Hreg. apply triple_shows.
  unfold Legacy.readRegister. rewrite on_spi.
  then_quietly (fun s : PinMonitor.state => True).
  { apply triple_call. intros s [] _. cbn. auto. }
  then_quietly (fun s => exists p, framed (mkSpiDecoder AwaitCommand p) s).
  { apply select_triple. }
  apply triple_exists. intros p0.
  then_quietly (framed (mkSpiDecoder AwaitPointer p0)). { by_spixfer. }
  then_quietly (framed (mkSpiDecoder AwaitCommand reg)). { by_spixfer. }
  then_quietly (fun s => PinMonitor.selected s = false
                         /\ pointer (PinMonitor.dec s) = reg).
  { apply deselect_triple. }
  then_quietly (framed (mkSpiDecoder AwaitCommand reg)).
  { apply reselect_triple. }
  then_quietly (framed (mkSpiDecoder AwaitReadClock reg)). { by_spixfer. }
  eapply triple_bind with
    (Q1 := fun v s l => l = [RegRead reg v] /\
             (is_u8 v /\ framed (mkSpiDecoder AwaitCommand reg) s)).
  { eapply triple_conseq;
      [ apply spixfer_triple; u8_const | intros ? Hf; exact Hf
      | cbn; intros ? ? ? (? & ? & ->); auto ]. }
  intros v ?. apply triple_pure. intros ->.
  apply triple_pure. intros Hv.
  then_quietly (fun s => PinMonitor.selected s = false
                         /\ pointer (PinMonitor.dec s) = reg).
  { apply deselect_triple. }
  then_quietly (fun s => PinMonitor.selected s = false).
  { apply triple_call. intros s [] (Hs & _). cbn. auto. }
  apply triple_ret. intros s Hs. cbn. rewrite Hs. auto.
Qed.

Lemma Spi_write_shown (reg v : Z) :
  is_u8 reg -> is_u8 v ->
  shows h pmon (Legacy.writeRegister self reg v)
        (fun _ l => l = [RegWrite reg v]).
Proof.
  intros Hreg Hv. apply triple_shows.
  unfold Legacy.writeRegister. rewrite on_spi.
  then_quietly (fun s : PinMonitor.state => True).
  { apply triple_call. intros s [] _. cbn. auto. }
  then_quietly (fun s => exists p, framed (mkSpiDecoder AwaitCommand p) s).
  { apply select_triple. }
  apply triple_exists. intros p0.
  then_quietly (framed (mkSpiDecoder AwaitPointer p0)). { by_spixfer. }
  then_quietly (framed (mkSpiDecoder AwaitCommand reg)). { by_spixfer. }
  then_quietly (fun s => PinMonitor.selected s = false
                         /\ pointer (PinMonitor.dec s) = reg).
  { apply deselect_triple. }
  then_quietly (framed (mkSpiDecoder AwaitCommand reg)).
  { apply reselect_triple. }
  then_quietly (framed (mkSpiDecoder AwaitData reg)). { by_spixfer. }
  eapply triple_bind with
    (Q1 := fun _ s l => l = [RegWrite reg v] /\
             framed (mkSpiDecoder AwaitCommand reg) s).
  { eapply triple_conseq;
      [ apply spixfer_triple; assumption | intros ? Hf; exact Hf
      | cbn; intros ? ? ? (? & ? & ->); auto ]. }
  intros ? ?. apply triple_pure. intros ->.
  then_quietly (fun s => PinMonitor.selected s = false
                         /\ pointer (PinMonitor.dec s) = reg).
  { apply deselect_triple. }
  eapply triple_conseq with
    (P := fun s => PinMonitor.selected s = false)
    (Q := fun _ s l => l = [] /\ PinMonitor.selected s = false).
  - apply triple_call. intros s [] Hs. cbn. auto.
  - intros s [Hs _]. exact Hs.
  - intros [] s l (-> & Hs). cbn. rewrite Hs. auto.
Qed.
End LegacySpiShown.

(** ** Register operations of either driver, as watched *)

Section ResetPulse.
Import Arduino.
Context {W : Type} (h : handler W) (m : monitor).
Variable resetpin : Z.

Hypothesis pin_quiet : forall s v, quiet m s = true ->
  quiet m (fst (observe m s (EvDigitalWrite resetpin v))) = true
  /\ snd (observe m s (EvDigitalWrite resetpin v)) = [].
Hypothesis mode_silent : forall s pin mode,
  observe m s (EvPinMode pin mode) = (s, []).
Hypothesis delay_silent : forall s ms,
  observe m s (EvDelay ms) = (s, []).

Lemma shows_quiet_call {X} (e : platformE X) :
  (forall s x, quiet m s = true ->
     quiet m (fst (observe m s (log e x))) = true
     /\ snd (observe m s (log e x)) = []) ->
  shows h m (call e) (fun _ l => l = []).
Proof.
  intros He w s Hs. unfold exec. rewrite run_call. cbn.
  destruct (He s (fst (h e w)) Hs) as [Hq Hl].
  eexists. split; [reflexivity |]. rewrite Hl. auto.
Qed.

Local Ltac quiet_step :=
  first [ solve [apply shows_silent; [intros; cbn; auto | auto]]
        | solve [apply shows_quiet_call; intros; cbn; auto] ].

Lemma reset_pulse_shown :
  shows h m (reset_pulse resetpin) (fun _ l => l = []).
Proof.
  unfold reset_pulse. destruct (negb (resetpin =? -1)).
  - repeat (eapply shows_bind with (Q1 := fun _ l => l = []);
            [ quiet_step | cbn beta; intros [] ? -> ]).
    eapply shows_weaken with (Q := fun _ l => l = []);
      [ quiet_step | intros [] ? ->; reflexivity ].
  - apply shows_ret. reflexivity.
Qed.
End ResetPulse.

Section AnyDriver.
Import Arduino.
Context {W : Type} (h : handler W).

Lemma read_shown (d : driver) (reg : Z) :
  operational d -> is_u8 reg ->
  shows h (monitor_of d) (readRegister d reg)
        (fun v l => is_u8 v
                    /\ exists mv, l = [RegRead reg mv]
                                  /\ returned h d reg mv v).
Proof.
  intros Hop Hreg. destruct d as [self | self].
  - eapply shows_weaken with
      (Q := fun v l => is_u8 v /\ l = [RegRead reg v]).
    + cbn in *. destruct (Legacy._i2c self) eqn:Hi2c.
      * apply Wire_read_shown; assumption.
      * destruct Hop as [? | Hpins]; [discriminate |].
        apply Spi_read_shown; assumption.
    + intros v l [Hv ->]. split; [exact Hv |].
      exists v. split; [reflexivity | left; reflexivity].
  - apply BusIO_read_shown; assumption.
Qed.

Lemma write_shown (d : driver) (reg v : Z) :
  operational d -> is_u8 reg -> is_u8 v ->
  shows h (monitor_of d) (writeRegister d reg v)
        (fun _ l => l = [RegWrite reg v]).
Proof.
  intros Hop Hreg Hv. destruct d as [self | self]; cbn in *.
  - destruct (Legacy._i2c self) eqn:Hi2c.
    + apply Wire_write_shown; assumption.
    + destruct Hop as [? | Hpins]; [discriminate |].
      apply Spi_write_shown; assumption.
  - apply BusIO_write_shown. exact Hop.
Qed.

Lemma print_silent (d : driver) :
  forall s str, observe (monitor_of d) s (EvSerialPrint str) = (s, []).
Proof.
  destruct d as [self | self]; cbn; [| reflexivity].
  destruct (Legacy._i2c self); reflexivity.
Qed.

Lemma println_shown (d : driver) :
  forall s v,
    observe (monitor_of d) s (EvSerialPrintlnHex v) = (s, [Printed v]).
Proof.
  destruct d as [self | self]; cbn; [| reflexivity].
  destruct (Legacy._i2c self); reflexivity.
Qed.

Lemma mode_silent (d : driver) :
  forall s pin mode,
    observe (monitor_of d) s (EvPinMode pin mode) = (s, []).
Proof.
  destruct d as [self | self]; cbn; [| reflexivity].
  destruct (Legacy._i2c self); reflexivity.
Qed.

Lemma delay_silent (d : driver) :
  forall s ms, observe (monitor_of d) s (EvDelay ms) = (s, []).
Proof.
  destruct d as [self | self]; cbn; [| reflexivity].
  destruct (Legacy._i2c self); reflexivity.
Qed.

(** A pin that is not chip-select cannot wake the pin monitor. *)
Lemma other_pin_quiet (wr : PinMonitor.wiring) (s : PinMonitor.state)
    (pin v : Z) :
  pin <> PinMonitor.cs wr ->
  PinMonitor.selected s = false ->
  PinMonitor.selected
    (fst (PinMonitor.step wr s (EvDigitalWrite pin v))) = false
  /\ snd (PinMonitor.step wr s (EvDigitalWrite pin v)) = [].
Proof.
  intros Hpin Hs. cbn.
  destruct (Z.eqb_spec pin (PinMonitor.cs wr)); [contradiction |].
  destruct (pin =? PinMonitor.clk wr); [cbn; auto |].
  destruct (pin =? PinMonitor.mosi wr); cbn; auto.
Qed.

Lemma resetpin_quiet (d : driver) :
  installable d ->
  forall s v, quiet (monitor_of d) s = true ->
    quiet (monitor_of d)
          (fst (observe (monitor_of d) s
                        (EvDigitalWrite (resetpin_of d) v))) = true
    /\ snd (observe (monitor_of d) s
                    (EvDigitalWrite (resetpin_of d) v)) = [].
Proof.
  intros Hinst. destruct d as [self | self]; cbn in *; [| auto].
  destruct (Legacy._i2c self) eqn:Hi2c; [cbn; auto |].
  destruct Hinst as [? | [_ Hrp]]; [discriminate |].
  intros s v Hs. cbn in Hs. apply negb_true_iff in Hs.
  destruct (@other_pin_quiet (wiring_of self) s (Legacy._resetpin self) v
              Hrp Hs) as [Hq Hl].
  split; [apply negb_true_iff; exact Hq | exact Hl].
Qed.

Lemma installable_operational_legacy (self : Legacy.Adafruit_CAP1188) :
  installable (LegacyDriver self) -> operational (LegacyDriver self).
Proof. cbn. intuition. Qed.

Lemma touched_shown (d : driver) :
  operational d ->
  shows h (monitor_of d) (touched d)
        (fun t l => touch_run (returned h d) l t).
Proof.
  intros Hop.
  replace (touched d) with (touch (readRegister d) (writeRegister d))
    by (destruct d; reflexivity).
  apply touch_shown.
  - intros. apply read_shown; assumption.
  - intros. apply write_shown; assumption.
Qed.

Lemma identify_any (d : driver) :
  operational d ->
  shows h (monitor_of d) (identify (readRegister d) (writeRegister d))
        (fun b l => identify_run (returned h d) l b).
Proof.
  intros Hop. apply identify_shown.
  - intros. apply read_shown; assumption.
  - intros. apply write_shown; assumption.
  - apply print_silent.
  - apply println_shown.
Qed.

Lemma opened_shown (d : driver) :
  installable d -> operational d ->
  shows h (monitor_of d)
        (reset_pulse (resetpin_of d);;
         identify (readRegister d) (writeRegister d))
        (fun b l => identify_run (returned h d) l b).
Proof.
  intros Hinst Hop.
  eapply shows_bind with (Q1 := fun _ l => l = []).
  - apply reset_pulse_shown.
    + apply resetpin_quiet, Hinst.
    + apply mode_silent.
    + apply delay_silent.
  - cbn beta. intros [] l ->. apply identify_any, Hop.
Qed.
End AnyDriver.

(** ** [begin], case by case *)

Section Begin.
Import Arduino.
Context {W : Type} (h : handler W).

Lemma BusIO_begin_cases (self : BusIO.Adafruit_CAP1188) (i2caddr : Z)
    (theWire : ptr) (w : W) :
  let r := exec h (BusIO.begin self i2caddr theWire) w in
  exists b self',
    res r = Done (b, self')
    /\ BusIO.spi_dev self' = BusIO.spi_dev self
    /\ BusIO._resetpin self' = BusIO._resetpin self
    /\ (BusIO.spi_dev self = None ->
        BusIO.i2c_dev self' = Some (mkI2CDevice i2caddr theWire))
    /\ (BusIO.spi_dev self <> None ->
        BusIO.i2c_dev self' = BusIO.i2c_dev self)
    /\ begin_run (returned h (BusIODriver self'))
                 (trace r) (accesses BusIOMonitor.mon (trace r)) b.
Proof.
  unfold BusIO.begin.
  destruct (BusIO.spi_dev self) as [spi |] eqn:Hspi.
  - unfold exec. rewrite run_bind, run_call. unfold and_then.
    cbn [res world trace].
    destruct (fst (h (SpiDevBegin spi) w)) eqn:Hok; cbn [negb].
    + rewrite run_bind.
      assert (Hop : operational (BusIODriver self))
        by (cbn; right; rewrite Hspi; discriminate).
      destruct (@opened_shown W h (BusIODriver self) I Hop
                  (snd (h (SpiDevBegin spi) w)) 0 eq_refl)
        as (b & Hb & _ & Hrun).
      unfold exec in Hb, Hrun. cbn [resetpin_of] in Hb, Hrun.
      change (reset_pulse (BusIO._resetpin self);;
              identify (readRegister (BusIODriver self))
                       (writeRegister (BusIODriver self)))
        with (BusIO.begin_opened self) in Hb, Hrun.
      unfold and_then. rewrite Hb. cbn [res world trace].
      exists b, self. rewrite Hspi.
      repeat split; auto; try congruence.
      unfold begin_run, accesses. cbn [app opened log run trace].
      rewrite app_nil_r.
      cbn [watch observe BusIOMonitor.mon BusIOMonitor.step minit fst snd
           app mstate].
      exact Hrun.
    + exists false, self. cbn. rewrite Hspi.
      repeat split; auto; congruence.
  - set (i2c := mkI2CDevice i2caddr theWire).
    set (self' := BusIO.mkDriver (Some i2c) None (BusIO._resetpin self)).
    unfold exec. rewrite run_bind, run_call. unfold and_then.
    cbn [res world trace].
    destruct (fst (h (I2cDevBegin i2c) w)) eqn:Hok; cbn [negb].
    + rewrite run_bind.
      assert (Hop : operational (BusIODriver self'))
        by (cbn; left; discriminate).
      destruct (@opened_shown W h (BusIODriver self') I Hop
                  (snd (h (I2cDevBegin i2c) w)) 0 eq_refl)
        as (b & Hb & _ & Hrun).
      unfold exec in Hb, Hrun. cbn [resetpin_of] in Hb, Hrun.
      change (reset_pulse (BusIO._resetpin self');;
              identify (readRegister (BusIODriver self'))
                       (writeRegister (BusIODriver self')))
        with (BusIO.begin_opened self') in Hb, Hrun.
      unfold and_then. rewrite Hb. cbn [res world trace].
      exists b, self'.
      repeat split; auto; try congruence.
      unfold begin_run, accesses. cbn [app opened log run trace].
      rewrite app_nil_r.
      cbn [watch observe BusIOMonitor.mon BusIOMonitor.step minit fst snd
           app mstate].
      exact Hrun.
    + exists false, self'. cbn.
      repeat split; auto; congruence.
Qed.
End Begin.

Section LegacyBegin.
Import Arduino.
Context {W : Type} (h : handler W).
Variable self : Legacy.Adafruit_CAP1188.
Variables (i2caddr : Z) (theWire : ptr).

Lemma Legacy_begin_opened (w : W) :
  opened (trace (exec h (Legacy.begin self i2caddr theWire) w)) = true.
Proof.
  unfold Legacy.begin, exec, pinMode.
  destruct (Legacy._i2c self); [| destruct (Legacy._clk self =? -1)];
    rewrite run_bind, run_call; unfold and_then; cbn [res];
    reflexivity.
Qed.

Hypothesis sound : installable (LegacyDriver self).

Lemma Legacy_begin_shown :
  shows h (monitor_of (LegacyDriver self))
        (Legacy.begin self i2caddr theWire)
        (fun r l => identify_run (returned h (LegacyDriver (snd r))) l (fst r)
                    /\ snd r = Legacy_begun self i2caddr theWire).
Proof.
  unfold Legacy.begin, Legacy_begun.
  destruct (Legacy._i2c self) eqn:Hi2c.
  - set (self' := Legacy.mkDriver _ _ _ _ _ _ _ _ _).
    assert (Hi2c' : Legacy._i2c self' = true) by reflexivity.
    pose proof (@opened_shown W h (LegacyDriver self')
                  (or_introl Hi2c') (or_introl Hi2c')) as Hrest.
    cbn [monitor_of resetpin_of] in Hrest |- *.
    rewrite Hi2c' in Hrest. rewrite Hi2c.
    eapply shows_bind with (Q1 := fun _ l => l = []).
    { apply shows_silent; [intros; reflexivity | auto]. }
    cbn beta. intros [] ? ->.
    eapply shows_bind with
      (Q1 := fun b l => identify_run (returned h (LegacyDriver self')) l b).
    { exact Hrest. }
    cbn beta. intros b l Hrun. apply shows_ret. cbn.
    rewrite app_nil_r. auto.
  - assert (Hop : operational (LegacyDriver self))
      by (apply installable_operational_legacy, sound).
    pose proof (@opened_shown W h (LegacyDriver self) sound Hop) as Hrest.
    cbn [monitor_of resetpin_of] in Hrest |- *.
    rewrite Hi2c in Hrest |- *.
    destruct sound as [? | [Hpins Hrp]]; [congruence |].
    assert (Hcs :
      shows h (PinMonitor.mon (wiring_of self))
            (digitalWrite (Legacy._cs self) HIGH) (fun _ l => l = [])).
    { apply shows_quiet_call. intros s [] _.
      cbn [log observe PinMonitor.mon]. rewrite step_cs. auto. }
    assert (Hmode : forall pin mode,
      shows h (PinMonitor.mon (wiring_of self))
            (pinMode pin mode) (fun _ l => l = [])).
    { intros. apply shows_silent; [intros; reflexivity | auto]. }
    assert (Htail :
      shows h (PinMonitor.mon (wiring_of self))
            (b <- Legacy.begin_opened self;; Ret (b, self))
            (fun r l => identify_run (returned h (LegacyDriver (snd r))) l
                                     (fst r)
                        /\ snd r = self)).
    { eapply shows_bind with
        (Q1 := fun b l => identify_run (returned h (LegacyDriver self)) l b).
      { exact Hrest. }
      cbn beta. intros b l Hrun. apply shows_ret. cbn.
      rewrite app_nil_r. auto. }
    destruct (Z.eqb_spec (Legacy._clk self) (-1)) as [Hhw | Hsw].
    + eapply shows_bind with (Q1 := fun _ l => l = []);
        [apply Hmode | cbn beta; intros [] ? ->].
      eapply shows_bind with (Q1 := fun _ l => l = []);
        [apply Hcs | cbn beta; intros [] ? ->].
      eapply shows_bind with (Q1 := fun _ l => l = []);
        [apply shows_silent; [intros; reflexivity | auto]
        | cbn beta; intros [] ? ->].
      exact Htail.
    + destruct Hpins as [? | (Hcc & _)]; [contradiction |].
      eapply shows_bind with (Q1 := fun _ l => l = []);
        [apply Hmode | cbn beta; intros [] ? ->].
      eapply shows_bind with (Q1 := fun _ l => l = []);
        [apply Hmode | cbn beta; intros [] ? ->].
      eapply shows_bind with (Q1 := fun _ l => l = []);
        [apply Hmode | cbn beta; intros [] ? ->].
      eapply shows_bind with (Q1 := fun _ l => l = []);
        [apply Hcs | cbn beta; intros [] ? ->].
      eapply shows_bind with (Q1 := fun _ l => l = []);
        [| cbn beta; intros [] ? ->; exact Htail].
      apply shows_quiet_call. intros s [] Hs.
      cbn [log observe PinMonitor.mon quiet] in *.
      apply negb_true_iff in Hs.
      destruct (@other_pin_quiet (wiring_of self) s (Legacy._clk self)
                  HIGH (fun E => Hcc (eq_sym E)) Hs) as [Hq Hl].
      split; [apply negb_true_iff; exact Hq | exact Hl].
Qed.

Lemma Legacy_begin_cases (w : W) :
  let r := exec h (Legacy.begin self i2caddr theWire) w in
  exists b,
    res r = Done (b, Legacy_begun self i2caddr theWire)
    /\ begin_run (returned h (LegacyDriver
                                (Legacy_begun self i2caddr theWire)))
                 (trace r)
                 (accesses (monitor_of (LegacyDriver self)) (trace r)) b.
Proof.
  intros r.
  assert (Hq : quiet (monitor_of (LegacyDriver self))
                     (minit (monitor_of (LegacyDriver self))) = true).
  { cbn. destruct (Legacy._i2c self); reflexivity. }
  destruct (Legacy_begin_shown w _ Hq) as ([b self'] & Hres & _ & Hrun & Hobj).
  cbn [fst snd] in Hrun, Hobj. subst self'.
  exists b. split; [exact Hres |].
  unfold begin_run. fold r. unfold r at 1.
  rewrite Legacy_begin_opened. exact Hrun.
Qed.
End LegacyBegin.

(** ** Register operations on the simulated chips *)

Section Returns.
Import Arduino.
Context {W : Type} (h : handler W).

Lemma returns_ret {R} (r : R) (w : W) : returns h (Ret r) w r w.
Proof. split; reflexivity. Qed.

Lemma returns_call {X} (e : platformE X) (w : W) :
  returns h (call e) w (fst (h e w)) (snd (h e w)).
Proof. split; reflexivity. Qed.

Lemma returns_bind {A B} (p : io platformE A) (f : A -> io platformE B)
    (w w1 w2 : W) (a : A) (b : B) :
  returns h p w a w1 -> returns h (f a) w1 b w2 -> returns h (bind p f) w b w2.
Proof.
  intros [Hr Hw] [Hr' Hw']. unfold returns, exec in *.
  rewrite run_bind. unfold and_then. rewrite Hr. cbn.
  rewrite Hw. auto.
Qed.

End Returns.

Lemma u8_u8 (x : Z) : u8 (u8 x) = u8 x.
Proof. apply u8_small, u8_is_u8. Qed.

Lemma store_same (rf : regfile) (reg v : Z) : store rf reg v reg = u8 v.
Proof. unfold store. rewrite Z.eqb_refl. reflexivity. Qed.

Section BusIOChipFacts.
Import Arduino.
Variable self : BusIO.Adafruit_CAP1188.
Hypothesis has_device : operational (BusIODriver self).

Lemma BusIO_write_stores (reg v : Z) (c : BusIOChip.state) :
  exists c',
    returns BusIOChip.handle (BusIO.writeRegister self reg v) c tt c'
    /\ BusIOChip.regs c' = store (BusIOChip.regs c) reg v.
Proof.
  unfold BusIO.writeRegister, returns, exec.
  destruct (BusIO.i2c_dev self) as [i2c |] eqn:Hi2c.
  - eexists. cbn. repeat split.
  - destruct (BusIO.spi_dev self) as [spi |] eqn:Hspi.
    + eexists. cbn. repeat split.
    + exfalso. cbn in has_device. rewrite Hi2c, Hspi in has_device.
      destruct has_device; congruence.
Qed.

Lemma BusIO_read_serves (reg : Z) (c : BusIOChip.state) :
  exists c',
    returns BusIOChip.handle (BusIO.readRegister self reg) c
            (u8 (BusIOChip.regs c reg)) c'
    /\ BusIOChip.regs c' = BusIOChip.regs c.
Proof.
  unfold BusIO.readRegister, returns, exec.
  destruct (BusIO.i2c_dev self) as [i2c |] eqn:Hi2c.
  - eexists. cbn. rewrite u8_u8. repeat split.
  - destruct (BusIO.spi_dev self) as [spi |] eqn:Hspi.
    + eexists. cbn. rewrite u8_u8. repeat split.
    + exfalso. cbn in has_device. rewrite Hi2c, Hspi in has_device.
      destruct has_device; congruence.
Qed.
End BusIOChipFacts.

Section WireChipFacts.
Import Arduino.
Variable self : Legacy.Adafruit_CAP1188.
Hypothesis on_i2c : Legacy._i2c self = true.

Lemma Wire_write_stores (reg v : Z) (c : WireChip.state) :
  WireChip.queued c = None ->
  exists c',
    returns WireChip.handle (Legacy.writeRegister self reg v) c tt c'
    /\ WireChip.queued c' = None
    /\ WireChip.regs c' = store (WireChip.regs c) reg v.
Proof.
  intros Hq. unfold Legacy.writeRegister, returns, exec. rewrite on_i2c.
  eexists. cbn. repeat split.
Qed.

Lemma Wire_read_serves (reg : Z) (c : WireChip.state) :
  WireChip.queued c = None ->
  exists c',
    returns WireChip.handle (Legacy.readRegister self reg) c
            (u8 (WireChip.regs c reg)) c'
    /\ WireChip.queued c' = None
    /\ WireChip.regs c' = WireChip.regs c.
Proof.
  intros Hq. unfold Legacy.readRegister, returns, exec. rewrite on_i2c.
  eexists. cbn. rewrite u8_u8. repeat split.
Qed.
End WireChipFacts.

Lemma core_miso_u8 (k : spi_core) : is_u8 (core_miso k).
Proof.
  unfold core_miso. destruct (phase (core_dec k));
    try (unfold is_u8; lia). apply u8_is_u8.
Qed.

Lemma firstn_bits_of (o : Z) (k : nat) :
  (k < 8)%nat ->
  firstn (S k) (bits_of o 8)
  = firstn k (bits_of o 8) ++ [Z.testbit o (7 - Z.of_nat k)].
Proof.
  intros Hk. do 8 (destruct k as [| k]; [reflexivity |]). lia.
Qed.

Section PinChipFacts.
Import Arduino.
Variable self : Legacy.Adafruit_CAP1188.
Hypothesis on_spi : Legacy._i2c self = false.
Hypothesis wired : distinct_pins self.

Let wr := wiring_of self.
Let hc := PinChip.handle wr.

Lemma chip_cs (c : PinChip.state) (v : Z) :
  hc (DigitalWrite (Legacy._cs self) v) c
  = (tt, PinChip.on_cs c (level v)).
Proof. cbn. rewrite Z.eqb_refl. reflexivity. Qed.

Lemma chip_miso (c : PinChip.state) :
  hc (DigitalRead (Legacy._miso self)) c
  = (if PinChip.miso_lvl c then HIGH else LOW, c).
Proof. cbn. rewrite Z.eqb_refl. reflexivity. Qed.

Section BitBanged.
Hypothesis cs_clk : Legacy._cs self <> Legacy._clk self.
Hypothesis cs_mosi : Legacy._cs self <> Legacy._mosi self.
Hypothesis clk_mosi : Legacy._clk self <> Legacy._mosi self.

Lemma chip_clk (c : PinChip.state) (v : Z) :
  hc (DigitalWrite (Legacy._clk self) v) c
  = (tt, PinChip.on_clk c (level v)).
Proof.
  cbn. rewrite Z.eqb_refl.
  destruct (Z.eqb_spec (Legacy._clk self) (Legacy._cs self));
    [congruence | reflexivity].
Qed.

Lemma chip_mosi (c : PinChip.state) (v : Z) :
  hc (DigitalWrite (Legacy._mosi self) v) c
  = (tt, PinChip.on_mosi c (level v)).
Proof.
  cbn. rewrite Z.eqb_refl.
  destruct (Z.eqb_spec (Legacy._mosi self) (Legacy._cs self));
    [congruence |].
  destruct (Z.eqb_spec (Legacy._mosi self) (Legacy._clk self));
    [congruence | reflexivity].
Qed.

Lemma chip_bit_state (k : spi_core) (cl ml mi b : bool)
    (bs : list bool) :
  PinChip.on_clk
    (PinChip.on_mosi
       (PinChip.on_clk (PinChip.mkState k true cl ml mi bs) (level LOW))
       b)
    (level HIGH)
  = let mi' := Z.testbit (core_miso k) (7 - Z.of_nat (List.length bs)) in
    if (S (List.length bs) =? 8)%nat then
      PinChip.mkState (core_byte k (assemble (rev (b :: bs))))
                      true true b mi' []
    else PinChip.mkState k true true b mi' (b :: bs).
Proof. reflexivity. Qed.

Lemma level_of_bool (b : bool) : level (if b then HIGH else LOW) = b.
Proof. destruct b; reflexivity. Qed.

(** The reply after one more bit was read from the chip. *)
Lemma reply_next (o : Z) (bs : list bool) :
  (List.length bs < 8)%nat ->
  shift_in (assemble (firstn (List.length bs) (bits_of o 8)))
           (if Z.testbit o (7 - Z.of_nat (List.length bs))
            then HIGH else LOW)
  = assemble (firstn (S (List.length bs)) (bits_of o 8)).
Proof.
  intros Hlen. rewrite shift_in_assemble.
  - rewrite level_of_bool, firstn_bits_of by exact Hlen. reflexivity.
  - rewrite length_firstn. cbn. lia.
Qed.

(** The bits left of a byte, against the chip. *)
Lemma spixfer_loop_chip (data : Z) (k : spi_core) (n : nat) :
  forall (bs : list bool) (reply : Z) (cl ml mi : bool),
    (List.length bs + S n = 8)%nat ->
    reply = assemble (firstn (List.length bs) (bits_of (core_miso k) 8)) ->
    returns hc (Legacy.spixfer_loop self data (S n) reply)
            (PinChip.mkState k true cl ml mi bs)
            (core_miso k)
            (PinChip.mkState
               (core_byte k (assemble (rev bs ++ mosi_levels data (S n))))
               true true (level (Z.land data (Z.shiftl 1 0)))
               (Z.testbit (core_miso k) 0) []).
Proof.
  induction n as [| n IH]; intros bs reply cl ml mi Hlen Hreply;
    cbn [Legacy.spixfer_loop];
    (eapply returns_bind; [apply returns_call |]);
    fold hc; rewrite chip_clk; cbn [fst snd];
    (eapply returns_bind; [apply returns_call |]);
    fold hc; rewrite chip_mosi; cbn [fst snd];
    (eapply returns_bind; [apply returns_call |]);
    fold hc; rewrite chip_clk; cbn [fst snd];
    (eapply returns_bind; [apply returns_call |]);
    fold hc; rewrite chip_miso; cbn [fst snd];
    rewrite chip_bit_state; cbv zeta;
    match goal with
    | |- context [if negb ((if ?m then HIGH else LOW) =? 0)
                  then Z.lor (u8 (Z.shiftl ?r 1)) 1
                  else u8 (Z.shiftl ?r 1)] =>
        change (if negb ((if m then HIGH else LOW) =? 0)
                then Z.lor (u8 (Z.shiftl r 1)) 1
                else u8 (Z.shiftl r 1))
          with (shift_in r (if m then HIGH else LOW))
    end;
    cbn [PinChip.miso_lvl]; subst reply.
  - replace (S (List.length bs) =? 8)%nat with true
      by (symmetry; apply Nat.eqb_eq; lia).
    cbn [PinChip.miso_lvl].
    rewrite reply_next by lia.
    replace (S (List.length bs)) with 8%nat by lia.
    replace (7 - Z.of_nat (List.length bs)) with 0 by lia.
    change (firstn 8 (bits_of (core_miso k) 8))
      with (bits_of (core_miso k) 8).
    rewrite assemble_bits_of by apply core_miso_u8.
    apply returns_ret.
  - replace (S (List.length bs) =? 8)%nat with false
      by (symmetry; apply Nat.eqb_neq; lia).
    cbn [PinChip.miso_lvl].
    rewrite reply_next by lia.
    rewrite (mosi_levels_S data (S n)).
    replace (rev bs ++
             level (Z.land data (Z.shiftl 1 (Z.of_nat (S n))))
             :: mosi_levels data (S n))
      with (rev (level (Z.land data (Z.shiftl 1 (Z.of_nat (S n)))) :: bs)
            ++ mosi_levels data (S n))
      by (cbn [rev]; rewrite <- app_assoc; reflexivity).
    apply IH; [cbn [List.length]; lia | reflexivity].
Qed.
End BitBanged.

(** A byte against the chip, on either kind of SPI. *)
Lemma spixfer_chip (data : Z) (k : spi_core) (c : PinChip.state) :
  is_u8 data -> at_core k c ->
  exists c',
    returns hc (Legacy.spixfer self data) c (core_miso k) c'
    /\ at_core (core_byte k data) c'.
Proof.
  intros Hdata (Hsel & Hbits & Hcore). unfold Legacy.spixfer.
  destruct (Z.eqb_spec (Legacy._clk self) (-1)) as [Hhw | Hsw].
  - eexists. split.
    + eapply returns_bind; [apply returns_call |].
      cbn [hc PinChip.handle]. unfold PinChip.on_transfer.
      rewrite Hsel, Hcore. cbn [fst snd].
      rewrite (u8_small (core_miso_u8 k)). apply returns_ret.
    + repeat split. exact Hbits.
  - destruct wired as [? | (Hcc & Hcm & Hkm)]; [contradiction |].
    destruct c as [k' sl cl ml mi bs]. cbn in Hsel, Hbits, Hcore.
    subst k' sl bs.
    eexists. split.
    + apply spixfer_loop_chip with (n := 7%nat) (bs := []);
        solve [assumption | reflexivity].
    + cbn [rev app]. rewrite mosi_levels_bits, assemble_bits_of by assumption.
      repeat split.
Qed.
End PinChipFacts.

Section PinChipRegisters.
Import Arduino.
Variable self : Legacy.Adafruit_CAP1188.
Hypothesis on_spi : Legacy._i2c self = false.
Hypothesis wired : distinct_pins self.

Let hc := PinChip.handle (wiring_of self).

Local Ltac u8_const := unfold is_u8; cbv; intuition congruence.

Local Ltac run_call :=
  eapply returns_bind; [apply returns_call |]; unfold hc;
  first [rewrite chip_cs | cbn [PinChip.handle]]; cbn [fst snd].

Local Ltac run_byte R := eapply returns_bind; [exact R |].

Lemma Pin_write_stores (reg v : Z) (c : PinChip.state) :
  is_u8 reg -> is_u8 v ->
  exists c',
    returns hc (Legacy.writeRegister self reg v) c tt c'
    /\ PinChip.sel c' = false
    /\ core_regs (PinChip.core c')
       = store (core_regs (PinChip.core c)) reg v.
Proof.
  intros Hreg Hv.
  set (c1 := PinChip.on_cs c (level LOW)).
  assert (H1 : at_core (core_frame (PinChip.core c)) c1)
    by (repeat split).
  destruct (spixfer_chip wired (data := 0x7D) ltac:(u8_const) H1)
    as (c2 & R2 & H2).
  destruct (spixfer_chip wired Hreg H2) as (c3 & R3 & H3).
  set (c4 := PinChip.on_cs (PinChip.on_cs c3 (level HIGH)) (level LOW)).
  assert (H4 : at_core (core_frame (core_frame (PinChip.core c3))) c4)
    by (repeat split).
  destruct (spixfer_chip wired (data := 0x7E) ltac:(u8_const) H4)
    as (c5 & R5 & H5).
  destruct (spixfer_chip wired Hv H5) as (c6 & R6 & H6).
  exists (PinChip.on_cs c6 (level HIGH)).
  split; [| split; [reflexivity |]].
  - unfold Legacy.writeRegister. rewrite on_spi.
    unfold Legacy.spi_begin, Legacy.spi_end, digitalWrite.
    run_call. run_call. fold c1. run_byte R2. run_byte R3.
    run_call. run_call. fold c4. run_byte R5. run_byte R6.
    run_call.
    apply returns_call.
  - destruct H6 as (_ & _ & E6). destruct H3 as (_ & _ & E3).
    cbn [PinChip.on_cs PinChip.core core_frame core_regs].
    rewrite E6, E3. reflexivity.
Qed.

Lemma Pin_read_serves (reg : Z) (c : PinChip.state) :
  is_u8 reg ->
  exists c',
    returns hc (Legacy.readRegister self reg) c
            (u8 (core_regs (PinChip.core c) reg)) c'
    /\ PinChip.sel c' = false
    /\ core_regs (PinChip.core c') = core_regs (PinChip.core c).
Proof.
  intros Hreg.
  set (c1 := PinChip.on_cs c (level LOW)).
  assert (H1 : at_core (core_frame (PinChip.core c)) c1)
    by (repeat split).
  destruct (spixfer_chip wired (data := 0x7D) ltac:(u8_const) H1)
    as (c2 & R2 & H2).
  destruct (spixfer_chip wired Hreg H2) as (c3 & R3 & H3).
  set (c4 := PinChip.on_cs (PinChip.on_cs c3 (level HIGH)) (level LOW)).
  assert (H4 : at_core (core_frame (core_frame (PinChip.core c3))) c4)
    by (repeat split).
  destruct (spixfer_chip wired (data := 0x7F) ltac:(u8_const) H4)
    as (c5 & R5 & H5).
  destruct (spixfer_chip wired (data := 0) ltac:(u8_const) H5)
    as (c6 & R6 & H6).
  exists (PinChip.on_cs c6 (level HIGH)).
  split; [| split; [reflexivity |]].
  - unfold Legacy.readRegister. rewrite on_spi.
    unfold Legacy.spi_begin, Legacy.spi_end, digitalWrite.
    run_call. run_call. fold c1. run_byte R2. run_byte R3.
    run_call. run_call. fold c4. run_byte R5.
    eapply returns_bind.
    { destruct H3 as (_ & _ & E3). rewrite E3 in R6. exact R6. }
    run_call. run_call.
    apply returns_ret.
  - destruct H6 as (_ & _ & E6). destruct H3 as (_ & _ & E3).
    cbn [PinChip.on_cs PinChip.core core_frame core_regs].
    rewrite E6, E3. reflexivity.
Qed.
End PinChipRegisters.

(** ** The simulated chips are faithful, whatever the transport *)

Lemma write_stores (d : driver) (reg v : Z) (c : chip (simulator_of d)) :
  operational d -> is_u8 reg -> is_u8 v -> idle (simulator_of d) c ->
  exists c',
    returns (answer (simulator_of d)) (writeRegister d reg v) c tt c'
    /\ idle (simulator_of d) c'
    /\ contents (simulator_of d) c' = store (contents (simulator_of d) c) reg v.
Proof.
  intros Hop Hreg Hv. destruct d as [self | self]; cbn in *.
  - destruct (Legacy._i2c self) eqn:Hi2c; cbn in *; intros Hidle.
    + apply Wire_write_stores; assumption.
    + destruct Hop as [? | Hpins]; [discriminate |].
      apply Pin_write_stores; assumption.
  - intros _.
    destruct (BusIO_write_stores Hop reg v c) as (c' & ? & ?). eauto.
Qed.

Lemma read_serves (d : driver) (reg : Z) (c : chip (simulator_of d)) :
  operational d -> is_u8 reg -> idle (simulator_of d) c ->
  exists c',
    returns (answer (simulator_of d)) (readRegister d reg) c
            (u8 (contents (simulator_of d) c reg)) c'
    /\ idle (simulator_of d) c'
    /\ contents (simulator_of d) c' = contents (simulator_of d) c.
Proof.
  intros Hop Hreg. destruct d as [self | self]; cbn in *.
  - destruct (Legacy._i2c self) eqn:Hi2c; cbn in *; intros Hidle.
    + apply Wire_read_serves; assumption.
    + destruct Hop as [? | Hpins]; [discriminate |].
      apply Pin_read_serves; assumption.
  - intros _.
    destruct (BusIO_read_serves Hop reg c) as (c' & ? & ?). eauto.
Qed.

Section BeginCases.
Import Arduino.
Context {W : Type} (h : handler W).

Lemma begin_cases (d : driver) (i2caddr : Z) (theWire : ptr) (w : W) :
  installable d ->
  let r := exec h (begin d i2caddr theWire) w in
  exists b d',
    res r = Done (b, d')
    /\ begin_run (returned h d') (trace r)
                 (accesses (monitor_of d) (trace r)) b.
Proof.
  intros Hinst. destruct d as [self | self]; unfold begin, exec;
    rewrite run_bind; unfold and_then.
  - destruct (Legacy_begin_cases h i2caddr theWire Hinst w)
      as (b & Hres & Hrun).
    unfold exec in Hres, Hrun. rewrite Hres. cbn [res world trace run].
    rewrite app_nil_r. eauto.
  - destruct (BusIO_begin_cases h self i2caddr theWire w)
      as (b & self' & Hres & _ & _ & _ & _ & Hrun).
    unfold exec in Hres, Hrun. rewrite Hres. cbn [res world trace run].
    rewrite app_nil_r. eauto.
Qed.
End BeginCases.

(** ** What the driver got against what a monitor saw *)

Section Delivered.
Import Arduino.
Context {W : Type} (h : handler W).

Lemma fill_all (n : nat) (data : list Z) :
  (n <=? List.length data)%nat = true -> fill n data = data.
Proof.
  intros Hn. apply Nat.leb_le in Hn. unfold fill.
  replace (n - List.length data)%nat with 0%nat by lia.
  apply app_nil_r.
Qed.

Lemma pad_stored {X} (e : platformE X) (x : X) :
  stored (log e x) = true -> pad e x = x.
Proof.
  destruct e; cbn; intros Hx; try reflexivity;
    rewrite (fill_all _ _ Hx); destruct x; reflexivity.
Qed.

Lemma deliver_delivering : delivering (deliver h).
Proof.
  intros X e w. unfold deliver. cbn [fst].
  destruct e; cbn; try reflexivity;
    apply Nat.leb_le; unfold fill; rewrite length_app, repeat_length; lia.
Qed.

(** A run in which every byte asked for was stored is a run against the
    environment that always stores them. *)
Lemma run_delivered {R} (p : io platformE R) (w : W) :
  delivered (trace (exec h p w)) = true ->
  exec (deliver h) p w = exec h p w.
Proof.
  unfold exec, delivered. revert w.
  induction p as [r | X e k IH | u]; intros w; cbn;
    [reflexivity | | reflexivity].
  intros Hall. apply andb_prop in Hall. destruct Hall as [He Hrest].
  rewrite (pad_stored _ _ He), (IH _ _ Hrest). reflexivity.
Qed.

Lemma returned_exact (d : driver) (reg m v : Z) :
  delivering h -> returned h d reg m v -> v = m.
Proof.
  intros Hall [Hv | Hno]; [exact Hv |].
  destruct d; [contradiction | destruct Hno as [Hno _]; contradiction].
Qed.

(** A byte that is neither 0, nor the register address, nor 0x7D is
    returned only when it was seen. *)
Lemma returned_seen (d : driver) (reg m v : Z) :
  v <> 0 -> v <> reg -> v <> 0x7D -> returned h d reg m v -> m = v.
Proof.
  intros H0 Hreg Hcmd [Hv | Hno]; [congruence |]. exfalso.
  destruct d as [self | self]; [contradiction |].
  destruct Hno as (_ & _ & Hv). unfold buffer_byte in Hv.
  destruct (BusIO.i2c_dev self); congruence.
Qed.

Lemma returned_other (d : driver) (reg m v e : Z) :
  e <> 0 -> v <> e -> returned h d reg m v -> m <> e.
Proof.
  intros H0 Hv [Heq | Hno]; [congruence |].
  destruct d as [self | self]; [contradiction |].
  destruct Hno as (_ & Hm & _). congruence.
Qed.

Lemma returned_zero (d : driver) (reg m : Z) :
  returned h d reg m 0 -> m = 0.
Proof.
  intros [Heq | Hno]; [congruence |].
  destruct d as [self | self]; [contradiction | apply Hno].
Qed.

(** The identification as a monitor decodes it: the read that is dropped,
    the three reads that are printed, the reads that are compared and the
    configuration that is written. *)
Lemma identify_cases (d : driver) (l : list access) (b : bool) :
  identify_run (returned h d) l b ->
  exists a rb pb rc pc rd pd checks ws,
    l = [RegRead 0xFD a;
         RegRead 0xFD rb; Printed pb; RegRead 0xFE rc; Printed pc;
         RegRead 0xFF rd; Printed pd] ++ checks ++ ws
    /\ (delivering h -> pb = rb /\ pc = rc /\ pd = rd)
    /\ ((b = false /\ ws = []
         /\ ((exists p, p <> 0x50 /\ checks = [RegRead 0xFD p])
             \/ (exists m, m <> 0x5D
                           /\ checks = [RegRead 0xFD 0x50; RegRead 0xFE m])
             \/ (exists rv, rv <> 0x83
                            /\ checks = [RegRead 0xFD 0x50; RegRead 0xFE 0x5D;
                                         RegRead 0xFF rv])))
        \/ (b = true
            /\ checks = [RegRead 0xFD 0x50; RegRead 0xFE 0x5D;
                         RegRead 0xFF 0x83]
            /\ ws = config_writes)).
Proof.
  assert (Hex : forall rb pb rc pc rd pd,
    returned h d 0xFD rb pb -> returned h d 0xFE rc pc ->
    returned h d 0xFF rd pd ->
    delivering h -> pb = rb /\ pc = rc /\ pd = rd).
  { intros. repeat split; eapply returned_exact; eassumption. }
  assert (Hp : forall p, returned h d 0xFD p 0x50 -> p = 0x50)
    by (intros p; apply returned_seen; discriminate).
  assert (Hm : forall m, returned h d 0xFE m 0x5D -> m = 0x5D)
    by (intros m; apply returned_seen; discriminate).
  assert (Hr : forall r, returned h d 0xFF r 0x83 -> r = 0x83)
    by (intros r; apply returned_seen; discriminate).
  intros Hrun.
  destruct Hrun as [a rb pb rc pc rd pd p p' Gb Gc Gd Gp Hne
                   | a rb pb rc pc rd pd p m m' Gb Gc Gd Gp Gm Hne
                   | a rb pb rc pc rd pd p m r r' Gb Gc Gd Gp Gm Gr Hne
                   | a rb pb rc pc rd pd p m r Gb Gc Gd Gp Gm Gr].
  - exists a, rb, pb, rc, pc, rd, pd, [RegRead 0xFD p], [].
    split; [reflexivity |]. split; [eauto |]. left.
    split; [reflexivity |]. split; [reflexivity |]. left. exists p.
    split; [| reflexivity].
    eapply returned_other; [| exact Hne | exact Gp]. discriminate.
  - apply Hp in Gp. subst p.
    exists a, rb, pb, rc, pc, rd, pd,
      [RegRead 0xFD 0x50; RegRead 0xFE m], [].
    split; [reflexivity |]. split; [eauto |]. left.
    split; [reflexivity |]. split; [reflexivity |]. right. left. exists m.
    split; [| reflexivity].
    eapply returned_other; [| exact Hne | exact Gm]. discriminate.
  - apply Hp in Gp. apply Hm in Gm. subst p m.
    exists a, rb, pb, rc, pc, rd, pd,
      [RegRead 0xFD 0x50; RegRead 0xFE 0x5D; RegRead 0xFF r], [].
    split; [reflexivity |]. split; [eauto |]. left.
    split; [reflexivity |]. split; [reflexivity |]. right. right. exists r.
    split; [| reflexivity].
    eapply returned_other; [| exact Hne | exact Gr]. discriminate.
  - apply Hp in Gp. apply Hm in Gm. apply Hr in Gr. subst p m r.
    exists a, rb, pb, rc, pc, rd, pd,
      [RegRead 0xFD 0x50; RegRead 0xFE 0x5D; RegRead 0xFF 0x83],
      config_writes.
    split; [reflexivity |]. split; [eauto |]. right. auto.
Qed.

End Delivered.

Section Seen.
Import Arduino.
Context {W : Type} (h : handler W).

(** A register read: the byte returned is the byte a monitor saw whenever
    the byte asked for was stored. *)
Lemma read_seen (d : driver) (reg : Z) (w : W) (s : mstate (monitor_of d)) :
  operational d -> is_u8 reg -> quiet (monitor_of d) s = true ->
  let r := exec h (readRegister d reg) w in
  exists v m,
    res r = Done v /\ is_u8 v
    /\ quiet (monitor_of d) (fst (watch (monitor_of d) s (trace r))) = true
    /\ snd (watch (monitor_of d) s (trace r)) = [RegRead reg m]
    /\ (delivered (trace r) = true -> v = m).
Proof.
  intros Hop Hreg Hs r.
  destruct (delivered (trace r)) eqn:Hdel.
  - destruct (read_shown (deliver h) d Hop Hreg w s Hs)
      as (v & Hres & Hq & Hv & m & Hl & Hgot).
    rewrite (run_delivered h _ _ Hdel) in Hres, Hq, Hl. fold r in Hres, Hq, Hl.
    exists v, m. repeat (split; [assumption |]). intros _.
    eapply returned_exact; [apply deliver_delivering | exact Hgot].
  - destruct (read_shown h d Hop Hreg w s Hs)
      as (v & Hres & Hq & Hv & m & Hl & Hgot).
    exists v, m. repeat (split; [assumption |]). discriminate.
Qed.

(** A read of the BusIO implementation for which the device stored no
    byte returns the first byte of its buffer. *)
Lemma BusIO_read_kept (self : BusIO.Adafruit_CAP1188) (reg : Z) (w : W)
    (v : Z) :
  res (exec h (BusIO.readRegister self reg) w) = Done v ->
  delivered (trace (exec h (BusIO.readRegister self reg) w)) = false ->
  v = buffer_byte self reg.
Proof.
  unfold BusIO.readRegister, buffer_byte, exec.
  destruct (BusIO.i2c_dev self) as [i2c |];
    [| destruct (BusIO.spi_dev self) as [spi |]]; cbn;
    try discriminate;
    destruct (snd (fst _)); cbn; intros Hres Hdel; congruence.
Qed.

(** [begin] when the bus opens: what it returns and what a monitor decodes
    of it. *)
Lemma begin_seen (d : driver) (i2caddr : Z) (theWire : ptr) (w : W) :
  installable d ->
  let r := exec h (begin d i2caddr theWire) w in
  let l := accesses (monitor_of d) (trace r) in
  opened (trace r) = true ->
  exists b d' a rb pb rc pc rd pd checks ws,
    res r = Done (b, d')
    /\ l = [RegRead 0xFD a;
            RegRead 0xFD rb; Printed pb; RegRead 0xFE rc; Printed pc;
            RegRead 0xFF rd; Printed pd] ++ checks ++ ws
    /\ (delivered (trace r) = true -> pb = rb /\ pc = rc /\ pd = rd)
    /\ ((b = false /\ ws = []
         /\ ((exists p, p <> 0x50 /\ checks = [RegRead 0xFD p])
             \/ (exists m, m <> 0x5D
                           /\ checks = [RegRead 0xFD 0x50; RegRead 0xFE m])
             \/ (exists rv, rv <> 0x83
                            /\ checks = [RegRead 0xFD 0x50; RegRead 0xFE 0x5D;
                                         RegRead 0xFF rv])))
        \/ (b = true
            /\ checks = [RegRead 0xFD 0x50; RegRead 0xFE 0x5D;
                         RegRead 0xFF 0x83]
            /\ ws = config_writes)).
Proof.
  intros Hinst r l Hopen.
  destruct (delivered (trace r)) eqn:Hdel.
  - destruct (begin_cases (deliver h) d i2caddr theWire w Hinst)
      as (b & d' & Hres & Hrun).
    rewrite (run_delivered h _ _ Hdel) in Hres, Hrun.
    fold r in Hres, Hrun. fold l in Hrun.
    unfold begin_run in Hrun. rewrite Hopen in Hrun.
    destruct (identify_cases Hrun)
      as (a & rb & pb & rc & pc & rd & pd & checks & ws & Hl & Heq & Hcase).
    exists b, d', a, rb, pb, rc, pc, rd, pd, checks, ws.
    split; [exact Hres |]. split; [exact Hl |].
    split; [intros _; apply Heq, deliver_delivering | exact Hcase].
  - destruct (begin_cases h d i2caddr theWire w Hinst)
      as (b & d' & Hres & Hrun).
    fold r in Hres, Hrun. fold l in Hrun.
    unfold begin_run in Hrun. rewrite Hopen in Hrun.
    destruct (identify_cases Hrun)
      as (a & rb & pb & rc & pc & rd & pd & checks & ws & Hl & _ & Hcase).
    exists b, d', a, rb, pb, rc, pc, rd, pd, checks, ws.
    split; [exact Hres |]. split; [exact Hl |].
    split; [discriminate | exact Hcase].
Qed.
End Seen.

(** * The claims *)

(** ** C1, C2, C10: the identification in [begin] *)

(** C1: when the bus has opened and one of the identity reads that are
    compared returns another value than 0x50, 0x5D, 0x83 for product ID,
    manufacturer ID, revision, [begin] returns false and no register has
    been written.  For both implementations, on every transport, in every
    environment; the register accesses are those a monitor decodes from the
    calls on the bus, for which a bit-banged instance is taken to drive
    three different pins for chip-select, clock and MOSI, and an SPI
    instance of the legacy implementation to have a reset pin other than
    its chip-select pin ([installable]). *)
Theorem begin_fails_on_identity_mismatch
    (W : Type) (h : Arduino.handler W) (d : driver)
    (i2caddr : Z) (theWire : Arduino.ptr) (w : W) :
  installable d ->
  let r := Arduino.exec h (begin d i2caddr theWire) w in
  let l := accesses (monitor_of d) (trace r) in
  opened (trace r) = true ->
  Exists mismatched (check_reads l) ->
  (exists d', res r = Done (false, d')) /\ writes l = [].
Proof.
  intros Hinst r l Hopen Hbad. subst l r.
  destruct (begin_seen h d i2caddr theWire w Hinst Hopen)
    as (b & d' & a & rb & pb & rc & pc & rd & pd & checks & ws
        & Hres & Hl & _ & Hcase).
  rewrite Hl in Hbad |- *.
  destruct Hcase as [(-> & -> & Hchecks) | (-> & -> & ->)].
  - split; [eauto |].
    destruct Hchecks as [(p & _ & ->) | [(m & _ & ->) | (rv & _ & ->)]];
      reflexivity.
  - exfalso. cbn in Hbad.
    repeat match goal with
           | H : Exists _ (_ :: _) |- _ => inversion H; clear H; subst
           | H : Exists _ [] |- _ => inversion H
           | H : mismatched _ |- _ => cbn in H; congruence
           end.
Qed.

Lemma begin_fails_on_identity_mismatch_witness :
  let r := Arduino.exec BusIOChip.handle
             (begin Bench.busio_i2c CAP1188_I2CADDR 0)
             (Bench.busio_chip Bench.blank_regs) in
  let l := accesses (monitor_of Bench.busio_i2c) (trace r) in
  (installable Bench.busio_i2c /\ opened (trace r) = true
   /\ Exists mismatched (check_reads l))
  /\ (exists d', res r = Done (false, d')) /\ writes l = [].
Proof.
  intros r l.
  assert (Hinst : installable Bench.busio_i2c) by exact I.
  assert (Hopen : opened (trace r) = true) by reflexivity.
  assert (Hbad : Exists mismatched (check_reads l)).
  { vm_compute. constructor. intros H. discriminate H. }
  split; [auto |].
  exact (@begin_fails_on_identity_mismatch _ BusIOChip.handle
           Bench.busio_i2c CAP1188_I2CADDR 0
           (Bench.busio_chip Bench.blank_regs) Hinst Hopen Hbad).
Defined.

(** C2: in every execution of [begin] in which the bus has opened, the
    comparison starts with a read of the product ID; [begin] returns true
    exactly when the three identity reads that are compared return 0x50,
    0x5D, 0x83; and when it returns true the registers written are
    MTBLK = 0, LEDLINK = 0xFF, STANDBYCFG = 0x30, in this order, and no
    other.  So when the three reads return these values, [begin] returns
    true and has written those three registers.  For both implementations,
    on every transport, in every environment, with the pins of a legacy SPI
    instance told apart ([installable]). *)
Theorem begin_configures_on_identity_match
    (W : Type) (h : Arduino.handler W) (d : driver)
    (i2caddr : Z) (theWire : Arduino.ptr) (w : W) :
  installable d ->
  let r := Arduino.exec h (begin d i2caddr theWire) w in
  let l := accesses (monitor_of d) (trace r) in
  opened (trace r) = true ->
  exists b d' p rest,
    res r = Done (b, d')
    /\ check_reads l = RegRead CAP1188_PRODID p :: rest
    /\ (b = true <->
        check_reads l = [RegRead CAP1188_PRODID 0x50;
                         RegRead CAP1188_MANUID 0x5D;
                         RegRead CAP1188_REV 0x83])
    /\ (b = true -> writes l = config_writes).
Proof.
  intros Hinst r l Hopen. subst l r.
  destruct (begin_seen h d i2caddr theWire w Hinst Hopen)
    as (b & d' & a & rb & pb & rc & pc & rd & pd & checks & ws
        & Hres & Hl & _ & Hcase).
  rewrite Hl.
  destruct Hcase as [(-> & -> & Hchecks) | (-> & -> & ->)].
  - destruct Hchecks as [(p & Hp & ->) | [(m & Hm & ->) | (rv & Hrv & ->)]];
      exists false, d'; do 2 eexists;
      (split; [exact Hres |]); (split; [reflexivity |]);
      (split; [| discriminate]);
      (split; [discriminate |]); cbn; intros Hgood;
      try discriminate Hgood.
    injection Hgood as Hgood. congruence.
  - exists true, d'. do 2 eexists.
    split; [exact Hres |]. split; [reflexivity |].
    split; [split; reflexivity | reflexivity].
Qed.

Lemma begin_configures_on_identity_match_witness :
  let r := Arduino.exec BusIOChip.handle
             (begin Bench.busio_i2c CAP1188_I2CADDR 0)
             (Bench.busio_chip power_up) in
  let l := accesses (monitor_of Bench.busio_i2c) (trace r) in
  (installable Bench.busio_i2c /\ opened (trace r) = true)
  /\ exists b d' p rest,
       res r = Done (b, d')
       /\ check_reads l = RegRead CAP1188_PRODID p :: rest
       /\ (b = true <->
           check_reads l = [RegRead CAP1188_PRODID 0x50;
                            RegRead CAP1188_MANUID 0x5D;
                            RegRead CAP1188_REV 0x83])
       /\ (b = true -> writes l = config_writes).
Proof.
  intros r l.
  assert (Hinst : installable Bench.busio_i2c) by exact I.
  assert (Hopen : opened (trace r) = true) by reflexivity.
  split; [auto |].
  exact (@begin_configures_on_identity_match _ BusIOChip.handle
           Bench.busio_i2c CAP1188_I2CADDR 0
           (Bench.busio_chip power_up) Hinst Hopen).
Defined.

(** C10, as stated, fails: against a chip whose product ID is not 0x50
    the comparison stops at its first read, and [begin] has read identity
    registers five times, not seven. *)
Lemma begin_reads_five_times_on_wrong_product :
  let r := Arduino.exec BusIOChip.handle
             (begin Bench.busio_i2c CAP1188_I2CADDR 0)
             (Bench.busio_chip Bench.blank_regs) in
  let l := accesses (monitor_of Bench.busio_i2c) (trace r) in
  opened (trace r) = true
  /\ reads l = [RegRead 0xFD 0; RegRead 0xFD 0; RegRead 0xFE 0;
                RegRead 0xFF 0; RegRead 0xFD 0]
  /\ List.length (reads l) <> 7%nat.
Proof.
  cbv zeta. split; [reflexivity |]. split; [reflexivity |].
  vm_compute. intros H. discriminate H.
Qed.

(** C10, amended: in every execution of [begin] in which the bus opens,
    the product ID is read once and dropped, then product ID,
    manufacturer ID and revision are read once each and a value is printed
    after each, and only then the values to compare are read, product ID
    first, each further one only when the one before matched.  So identity
    registers are read five, six or seven times, seven times exactly when
    product and manufacturer ID match, and the values compared come from
    later reads than the values printed.  A value printed is the byte of
    the read before it, in every execution in which the bus device stored
    the bytes it was asked to read ([delivered]).  For both
    implementations, on every transport, in every environment, with the
    pins of a legacy SPI instance told apart ([installable]). *)
Theorem begin_identity_reads
    (W : Type) (h : Arduino.handler W) (d : driver)
    (i2caddr : Z) (theWire : Arduino.ptr) (w : W) :
  installable d ->
  let r := Arduino.exec h (begin d i2caddr theWire) w in
  let l := accesses (monitor_of d) (trace r) in
  opened (trace r) = true ->
  exists a b pb c pc dd pdd checks ws,
    l = [RegRead CAP1188_PRODID a;
         RegRead CAP1188_PRODID b; Printed pb;
         RegRead CAP1188_MANUID c; Printed pc;
         RegRead CAP1188_REV dd; Printed pdd] ++ checks ++ ws
    /\ (delivered (trace r) = true -> pb = b /\ pc = c /\ pdd = dd)
    /\ reads ws = [] /\ printed (checks ++ ws) = []
    /\ ((exists p, p <> 0x50 /\ checks = [RegRead CAP1188_PRODID p])
        \/ (exists m, m <> 0x5D /\
              checks = [RegRead CAP1188_PRODID 0x50;
                        RegRead CAP1188_MANUID m])
        \/ (exists rv,
              checks = [RegRead CAP1188_PRODID 0x50;
                        RegRead CAP1188_MANUID 0x5D;
                        RegRead CAP1188_REV rv]))
    /\ List.length (reads l) = (4 + List.length checks)%nat.
Proof.
  intros Hinst r l Hopen. subst l r.
  destruct (begin_seen h d i2caddr theWire w Hinst Hopen)
    as (b0 & d' & a & rb & pb & rc & pc & rd & pd & checks & ws
        & Hres & Hl & Heq & Hcase).
  exists a, rb, pb, rc, pc, rd, pd, checks, ws.
  split; [exact Hl |]. split; [exact Heq |]. rewrite Hl.
  destruct Hcase as [(_ & -> & Hchecks) | (_ & -> & ->)].
  - destruct Hchecks as [(p & Hp & ->) | [(m & Hm & ->) | (rv & Hrv & ->)]];
      (split; [reflexivity |]); (split; [reflexivity |]);
      (split; [| reflexivity]); eauto 6.
  - split; [reflexivity |]. split; [reflexivity |].
    split; [| reflexivity]. right. right. eauto.
Qed.

Lemma begin_identity_reads_witness :
  let r := Arduino.exec BusIOChip.handle
             (begin Bench.busio_spi CAP1188_I2CADDR 0)
             (Bench.busio_chip power_up) in
  let l := accesses (monitor_of Bench.busio_spi) (trace r) in
  (installable Bench.busio_spi /\ opened (trace r) = true)
  /\ exists a b pb c pc dd pdd checks ws,
       l = [RegRead CAP1188_PRODID a;
            RegRead CAP1188_PRODID b; Printed pb;
            RegRead CAP1188_MANUID c; Printed pc;
            RegRead CAP1188_REV dd; Printed pdd] ++ checks ++ ws
       /\ (delivered (trace r) = true -> pb = b /\ pc = c /\ pdd = dd)
       /\ reads ws = [] /\ printed (checks ++ ws) = []
       /\ ((exists p, p <> 0x50 /\ checks = [RegRead CAP1188_PRODID p])
           \/ (exists m, m <> 0x5D /\
                 checks = [RegRead CAP1188_PRODID 0x50;
                           RegRead CAP1188_MANUID m])
           \/ (exists rv,
                 checks = [RegRead CAP1188_PRODID 0x50;
                           RegRead CAP1188_MANUID 0x5D;
                           RegRead CAP1188_REV rv]))
       /\ List.length (reads l) = (4 + List.length checks)%nat.
Proof.
  intros r l.
  assert (Hinst : installable Bench.busio_spi) by exact I.
  assert (Hopen : opened (trace r) = true) by reflexivity.
  split; [auto |].
  exact (@begin_identity_reads _ BusIOChip.handle Bench.busio_spi
           CAP1188_I2CADDR 0 (Bench.busio_chip power_up) Hinst Hopen).
Defined.

(** ** C3, C4: [touched] *)

Lemma clear_int_flag (main : Z) :
  is_u8 main ->
  u8 (Z.land main (Z.lnot CAP1188_MAIN_INT)) = Z.clearbit main 0.
Proof.
  intros Hmain. apply Z.eqb_eq.
  apply (forall_u8 (fun m => u8 (Z.land m (Z.lnot CAP1188_MAIN_INT))
                             =? Z.clearbit m 0)); [| exact Hmain].
  vm_compute. reflexivity.
Qed.

Section Touched.
Import Arduino.
Context {W : Type} (h : handler W).

(** [touched] returns what its read of the status register returned. *)
Lemma touched_result (d : driver) (w : W) (t t' : Z) :
  res (exec h (readRegister d CAP1188_SENINPUTSTATUS) w) = Done t ->
  res (exec h (touched d) w) = Done t' ->
  t' = t.
Proof.
  intros Hrd.
  replace (touched d) with (touch (readRegister d) (writeRegister d))
    by (destruct d; reflexivity).
  unfold touch, exec in *. rewrite run_bind. unfold and_then.
  rewrite Hrd. cbn [res world trace]. rewrite run_bind. unfold and_then.
  match goal with |- context [res (run h log ?p ?w')] =>
    destruct (res (run h log p w')) end; cbn; congruence.
Qed.

Lemma touched_when_idle (d : driver) (w : W) :
  res (exec h (readRegister d CAP1188_SENINPUTSTATUS) w) = Done 0 ->
  exec h (touched d) w = exec h (readRegister d CAP1188_SENINPUTSTATUS) w.
Proof.
  intros Hrd.
  replace (touched d) with (touch (readRegister d) (writeRegister d))
    by (destruct d; reflexivity).
  unfold touch, exec in *. rewrite run_bind. unfold and_then.
  rewrite Hrd. cbn. rewrite app_nil_r.
  destruct (run h log (readRegister d CAP1188_SENINPUTSTATUS) w).
  cbn in *. congruence.
Qed.
End Touched.

(** C3: [touched] returns the byte [t] its read of the status register
    (0x03) returned, and that read is the first register access a monitor
    sees.  When [t] is not zero, [touched] goes on to read MAIN (0x00) and
    writes back to MAIN the byte [main] this read returned with bit 0
    cleared and all other bits as they were; the monitor sees the read of
    MAIN and the write, and nothing else.  The bytes the two reads returned
    are the bytes the monitor saw in every execution in which the bus
    device stored the bytes it was asked to read ([delivered]).  For both
    implementations, on every transport, in every environment, of a driver
    that has its bus device and, when bit-banged, three different pins
    ([operational]), and as seen by a monitor that starts between two
    register operations. *)
Theorem touched_acknowledges_interrupt
    (W : Type) (h : Arduino.handler W) (d : driver) (w : W)
    (s : mstate (monitor_of d)) :
  operational d ->
  quiet (monitor_of d) s = true ->
  let r0 := Arduino.exec h (readRegister d CAP1188_SENINPUTSTATUS) w in
  let r := Arduino.exec h (touched d) w in
  let l := snd (watch (monitor_of d) s (trace r)) in
  exists t tm rest,
    res r0 = Done t /\ res r = Done t
    /\ l = RegRead CAP1188_SENINPUTSTATUS tm :: rest
    /\ (delivered (trace r) = true -> tm = t)
    /\ (t <> 0 ->
        exists main mm,
          res (Arduino.exec h (readRegister d CAP1188_MAIN) (world r0))
          = Done main
          /\ is_u8 main
          /\ rest = [RegRead CAP1188_MAIN mm;
                     RegWrite CAP1188_MAIN (Z.clearbit main 0)]
          /\ (delivered (trace r) = true -> mm = main)).
Proof.
  intros Hop Hs r0 r l.
  assert (H3 : is_u8 CAP1188_SENINPUTSTATUS) by (cbv; intuition congruence).
  assert (H0 : is_u8 CAP1188_MAIN) by (cbv; intuition congruence).
  destruct (read_seen h d w s Hop H3 Hs)
    as (t & tm & Hres0 & _ & Hq0 & Hl0 & Hd0).
  fold r0 in Hres0, Hq0, Hl0, Hd0.
  exists t, tm.
  assert (Hr : r = Arduino.exec h
                     (touch (readRegister d) (writeRegister d)) w)
    by (subst r; destruct d; reflexivity).
  unfold touch in Hr. rewrite (exec_bind h _ _ w Hres0) in Hr. fold r0 in Hr.
  cbv zeta in Hr.
  destruct (Z.eqb_spec t 0) as [-> | Ht]; cbn [negb] in Hr.
  - exists []. cbn in Hr. rewrite app_nil_r in Hr.
    subst l. rewrite Hr. cbn [res trace].
    split; [exact Hres0 |]. split; [reflexivity |].
    split; [exact Hl0 |].
    split; [intros Hall; symmetry; apply Hd0, Hall |]. congruence.
  - set (w0 := world r0) in *.
    set (s0 := fst (watch (monitor_of d) s (trace r0))) in *.
    destruct (read_seen h d w0 s0 Hop H0 Hq0)
      as (main & mm & Hres1 & Hmain & Hq1 & Hl1 & Hd1).
    set (r1 := Arduino.exec h (readRegister d CAP1188_MAIN) w0) in *.
    set (v := u8 (Z.land main (Z.lnot CAP1188_MAIN_INT))).
    assert (Hv : is_u8 v) by apply u8_is_u8.
    destruct (write_shown h d Hop H0 Hv (world r1) _ Hq1)
      as ([] & Hres2 & _ & Hl2).
    set (r2 := Arduino.exec h (writeRegister d CAP1188_MAIN v) (world r1))
      in *.
    assert (Hres12 : res (Arduino.exec h
                            (main <- readRegister d CAP1188_MAIN;;
                             writeRegister d CAP1188_MAIN
                               (u8 (Z.land main (Z.lnot CAP1188_MAIN_INT))))
                            w0) = Done tt).
    { rewrite (exec_bind h _ _ w0 Hres1). cbv zeta. cbn [res].
      exact Hres2. }
    rewrite (exec_bind h _ _ w0 Hres12) in Hr.
    rewrite (exec_bind h _ _ w0 Hres1) in Hr. cbv zeta in Hr.
    cbn [res world trace Arduino.exec run] in Hr.
    fold r1 in Hr. fold v in Hr. fold r2 in Hr. rewrite app_nil_r in Hr.
    exists [RegRead CAP1188_MAIN mm;
            RegWrite CAP1188_MAIN (Z.clearbit main 0)].
    subst l. rewrite Hr. cbn [res trace].
    split; [exact Hres0 |]. split; [reflexivity |].
    assert (Hdel : delivered (trace r0 ++ trace r1 ++ trace r2) = true ->
                   delivered (trace r0) = true
                   /\ delivered (trace r1) = true).
    { unfold delivered. rewrite !forallb_app. intros Hall.
      apply andb_prop in Hall. destruct Hall as [Ha Hall].
      apply andb_prop in Hall. tauto. }
    split.
    { rewrite !watch_app. cbn [snd fst]. fold s0.
      rewrite Hl0, Hl1, Hl2. unfold v.
      rewrite (clear_int_flag Hmain). reflexivity. }
    split; [intros Hall; symmetry; apply Hd0, Hdel, Hall |].
    intros _. exists main, mm.
    split; [exact Hres1 |]. split; [exact Hmain |].
    split; [reflexivity |]. intros Hall; symmetry; apply Hd1, Hdel, Hall.
Qed.

Lemma touched_acknowledges_interrupt_witness :
  let d := Bench.busio_i2c_begun in
  let c := Bench.busio_chip Bench.touched_regs in
  let r0 := Arduino.exec BusIOChip.handle
              (readRegister d CAP1188_SENINPUTSTATUS) c in
  let r := Arduino.exec BusIOChip.handle (touched d) c in
  let l := snd (watch (monitor_of d) (minit (monitor_of d)) (trace r)) in
  (operational d /\ quiet (monitor_of d) (minit (monitor_of d)) = true)
  /\ exists t tm rest,
       res r0 = Done t /\ res r = Done t
       /\ l = RegRead CAP1188_SENINPUTSTATUS tm :: rest
       /\ (delivered (trace r) = true -> tm = t)
       /\ (t <> 0 ->
           exists main mm,
             res (Arduino.exec BusIOChip.handle
                    (readRegister d CAP1188_MAIN) (world r0)) = Done main
             /\ is_u8 main
             /\ rest = [RegRead CAP1188_MAIN mm;
                        RegWrite CAP1188_MAIN (Z.clearbit main 0)]
             /\ (delivered (trace r) = true -> mm = main)).
Proof.
  intros d c r0 r l.
  assert (Hop : operational d) by (left; discriminate).
  assert (Hq : quiet (monitor_of d) (minit (monitor_of d)) = true)
    by reflexivity.
  split; [auto |].
  exact (@touched_acknowledges_interrupt _ BusIOChip.handle d c
           (minit (monitor_of d)) Hop Hq).
Defined.

(** C4: when the read of the status register returns 0, [touched]
    returns 0 and its run is the run of that one read: no call on the bus
    follows it, and the one register access seen is the status read.  For
    both implementations, on every transport, in every environment, of a
    driver that has its bus device and, when bit-banged, three different
    pins ([operational]), and as seen by a monitor that starts between two
    register operations. *)
Theorem touched_idle_reads_once
    (W : Type) (h : Arduino.handler W) (d : driver) (w : W)
    (s : mstate (monitor_of d)) :
  operational d ->
  quiet (monitor_of d) s = true ->
  res (Arduino.exec h (readRegister d CAP1188_SENINPUTSTATUS) w) = Done 0 ->
  let r := Arduino.exec h (touched d) w in
  res r = Done 0
  /\ r = Arduino.exec h (readRegister d CAP1188_SENINPUTSTATUS) w
  /\ snd (watch (monitor_of d) s (trace r))
     = [RegRead CAP1188_SENINPUTSTATUS 0].
Proof.
  intros Hop Hs Hrd r.
  assert (Heq : r = Arduino.exec h (readRegister d CAP1188_SENINPUTSTATUS) w)
    by (apply touched_when_idle, Hrd).
  split; [rewrite Heq; exact Hrd |]. split; [exact Heq |].
  destruct (touched_shown h d Hop w s Hs) as (t' & Hres & _ & Hrun).
  fold r in Hres, Hrun.
  assert (t' = 0) by (eapply touched_result; eassumption). subst t'.
  inversion Hrun as [tm Hgot | ]; subst; [| congruence].
  rewrite (returned_zero Hgot). reflexivity.
Qed.

Lemma touched_idle_reads_once_witness :
  let d := Bench.busio_i2c_begun in
  let c := Bench.busio_chip power_up in
  let r := Arduino.exec BusIOChip.handle (touched d) c in
  (operational d /\ quiet (monitor_of d) (minit (monitor_of d)) = true
   /\ res (Arduino.exec BusIOChip.handle
             (readRegister d CAP1188_SENINPUTSTATUS) c) = Done 0)
  /\ res r = Done 0
  /\ r = Arduino.exec BusIOChip.handle
           (readRegister d CAP1188_SENINPUTSTATUS) c
  /\ snd (watch (monitor_of d) (minit (monitor_of d)) (trace r))
     = [RegRead CAP1188_SENINPUTSTATUS 0].
Proof.
  intros d c r.
  assert (Hop : operational d) by (left; discriminate).
  assert (Hq : quiet (monitor_of d) (minit (monitor_of d)) = true)
    by reflexivity.
  assert (Hrd : res (Arduino.exec BusIOChip.handle
                       (readRegister d CAP1188_SENINPUTSTATUS) c) = Done 0)
    by reflexivity.
  split; [auto |].
  exact (@touched_idle_reads_once _ BusIOChip.handle d c
           (minit (monitor_of d)) Hop Hq Hrd).
Defined.

(** ** C5: the round trip *)

(** C5: against the simulated chip of its transport, [writeRegister reg v]
    followed by [readRegister reg] returns [v], for every register address
    and value of eight bits: on both implementations, over I2C, hardware
    SPI and bit-banged SPI.  The driver has its bus device and, when
    bit-banged, three different pins ([operational]); the chip is between
    two transactions ([idle]) and may hold any registers. *)
Theorem register_round_trip
    (d : driver) (reg v : Z) (c : chip (simulator_of d)) :
  operational d -> is_u8 reg -> is_u8 v -> idle (simulator_of d) c ->
  res (Arduino.exec (answer (simulator_of d))
         (writeRegister d reg v;; readRegister d reg) c) = Done v.
Proof.
  intros Hop Hreg Hv Hidle.
  destruct (write_stores d c Hop Hreg Hv Hidle) as (c1 & Hw & Hidle1 & Hregs).
  destruct (read_serves d c1 Hop Hreg Hidle1) as (c2 & Hr & _ & _).
  rewrite Hregs, store_same, u8_u8, (u8_small Hv) in Hr.
  exact (proj1 (returns_bind (fun _ => readRegister d reg) Hw Hr)).
Qed.

Lemma register_round_trip_witness :
  let d := Bench.legacy_sw_spi in
  let c : chip (simulator_of d) := Bench.pin_chip power_up in
  (operational d /\ is_u8 CAP1188_LEDPOL /\ is_u8 0xA5
   /\ idle (simulator_of d) c)
  /\ res (Arduino.exec (answer (simulator_of d))
            (writeRegister d CAP1188_LEDPOL 0xA5;;
             readRegister d CAP1188_LEDPOL) c) = Done 0xA5.
Proof.
  intros d c.
  assert (Hop : operational d).
  { right. right. cbn. repeat split; discriminate. }
  assert (Hreg : is_u8 CAP1188_LEDPOL) by (unfold is_u8; cbv; intuition congruence).
  assert (Hv : is_u8 0xA5) by (unfold is_u8; cbv; intuition congruence).
  assert (Hidle : idle (simulator_of d) c) by reflexivity.
  split; [auto |].
  exact (@register_round_trip d CAP1188_LEDPOL 0xA5 c Hop Hreg Hv Hidle).
Defined.

(** ** Rules for runs by result, environment and trace *)

Section Yields.
Import Arduino.
Context {W : Type} (h : handler W).

Lemma yields_ret {R} (r : R) (w : W) : yields h (Ret r) w r w [].
Proof. reflexivity. Qed.

Lemma yields_call {X} (e : platformE X) (w : W) :
  yields h (call e) w (fst (h e w)) (snd (h e w)) [log e (fst (h e w))].
Proof. reflexivity. Qed.

Lemma yields_bind {A B} (p : io platformE A) (f : A -> io platformE B)
    (w w1 w2 : W) (a : A) (b : B) (t1 t2 : list event) :
  yields h p w a w1 t1 -> yields h (f a) w1 b w2 t2 ->
  yields h (bind p f) w b w2 (t1 ++ t2).
Proof.
  unfold yields, exec. intros Hp Hf. rewrite run_bind, Hp.
  unfold and_then. cbn. rewrite Hf. reflexivity.
Qed.

Lemma yields_exec {R} (p : io platformE R) (w : W) (r : R) :
  res (exec h p w) = Done r ->
  yields h p w r (world (exec h p w)) (trace (exec h p w)).
Proof.
  unfold yields. destruct (exec h p w) as [o w' t]. cbn.
  intros ->. reflexivity.
Qed.
End Yields.

(** ** C8: one byte over bit-banged SPI *)

Section BitBangedByte.
Import Arduino.
Variable self : Legacy.Adafruit_CAP1188.
Hypothesis clk_mosi : Legacy._clk self <> Legacy._mosi self.

Lemma pin_writes_app (pin : Z) (t1 t2 : list event) :
  pin_writes pin (t1 ++ t2) = pin_writes pin t1 ++ pin_writes pin t2.
Proof. apply flat_map_app. Qed.

Lemma bit_time_mosi (data : Z) (i : nat) (a : Z) :
  pin_writes (Legacy._mosi self) (bit_time self data i a)
  = [level (Z.land data (Z.shiftl 1 (Z.of_nat i)))].
Proof.
  cbn. rewrite Z.eqb_refl.
  destruct (Z.eqb_spec (Legacy._clk self) (Legacy._mosi self));
    [contradiction | reflexivity].
Qed.

Lemma bit_time_clk (data : Z) (i : nat) (a : Z) :
  pin_writes (Legacy._clk self) (bit_time self data i a) = [false; true].
Proof.
  cbn. rewrite Z.eqb_refl.
  destruct (Z.eqb_spec (Legacy._mosi self) (Legacy._clk self));
    [congruence | reflexivity].
Qed.

Lemma byte_time_mosi (data : Z) (n : nat) (ms : list Z) :
  pin_writes (Legacy._mosi self) (byte_time self data n ms)
  = mosi_levels data n.
Proof.
  revert ms. induction n as [| n IH]; intros ms; [reflexivity |].
  rewrite mosi_levels_S. cbn [byte_time].
  rewrite pin_writes_app, bit_time_mosi, IH. reflexivity.
Qed.

Lemma byte_time_edges (data : Z) (n : nat) (ms : list Z) (prev : bool) :
  rising_edges prev
    (pin_writes (Legacy._clk self) (byte_time self data n ms)) = n.
Proof.
  revert ms prev. induction n as [| n IH]; intros ms prev; [reflexivity |].
  cbn [byte_time].
  rewrite pin_writes_app, bit_time_clk. cbn [app rising_edges].
  rewrite IH, andb_false_r. reflexivity.
Qed.

Lemma byte_time_sampled (data : Z) (n : nat) (ms : list Z) (risen : bool) :
  sampled_on_rise (Legacy._clk self) risen (byte_time self data n ms)
  = true.
Proof.
  revert ms risen. induction n as [| n IH]; intros ms risen;
    [reflexivity |].
  cbn [byte_time bit_time app sampled_on_rise].
  rewrite Z.eqb_refl. change (level HIGH) with true. cbn [andb].
  apply IH.
Qed.
End BitBangedByte.

(** C8: a byte sent over the bit-banged SPI costs eight bit times, for
    bits 7 down to 0: clock low, MOSI at the bit of the byte, clock high,
    MISO read.  So MOSI carries the bits of the byte most significant
    first, the clock rises eight times whatever its level before, every
    MISO read follows the rise of the clock, and the reply is the MISO
    values assembled most significant first.  For 0b10110010 MOSI carries
    1,0,1,1,0,0,1,0.  For every bit-banged instance (a clock pin is given)
    whose clock pin is not its MOSI pin, in every environment. *)
Theorem spixfer_bit_banged
    (W : Type) (h : Arduino.handler W) (self : Legacy.Adafruit_CAP1188)
    (data : Z) (w : W) :
  Legacy._clk self <> -1 ->
  Legacy._clk self <> Legacy._mosi self ->
  let r := Arduino.exec h (Legacy.spixfer self data) w in
  let ms := miso_samples (trace r) in
  trace r = byte_time self data 8 ms
  /\ List.length ms = 8%nat
  /\ pin_writes (Legacy._mosi self) (trace r) = bits_of data 8
  /\ (data = 0xB2 ->
      pin_writes (Legacy._mosi self) (trace r)
      = [true; false; true; true; false; false; true; false])
  /\ (forall before : bool,
        rising_edges before (pin_writes (Legacy._clk self) (trace r))
        = 8%nat)
  /\ sampled_on_rise (Legacy._clk self) false (trace r) = true
  /\ res r = Done (assemble (map Arduino.level ms)).
Proof.
  intros Hsw Hcm r ms. subst r ms. unfold Legacy.spixfer.
  destruct (Z.eqb_spec (Legacy._clk self) (-1)) as [? | _];
    [contradiction |].
  destruct (spixfer_loop_run h self data 8 0 w) as (Ht & Hlen & Hres).
  cbv zeta in Ht, Hlen, Hres.
  set (r := Arduino.exec h (Legacy.spixfer_loop self data 8 0) w) in *.
  set (ms := miso_samples (trace r)) in *.
  assert (Hmosi : pin_writes (Legacy._mosi self) (trace r) = bits_of data 8).
  { rewrite Ht, byte_time_mosi by exact Hcm. apply mosi_levels_bits. }
  split; [exact Ht |]. split; [exact Hlen |]. split; [exact Hmosi |].
  split; [intros ->; rewrite Hmosi; reflexivity |].
  split; [intros before; rewrite Ht; apply byte_time_edges; exact Hcm |].
  split; [rewrite Ht; apply byte_time_sampled |].
  rewrite Hres. f_equal. apply fold_shift_in_0. lia.
Qed.

Lemma spixfer_bit_banged_witness :
  let self := Legacy.new_SoftwareSPI Bench.zeroed 13 12 11 10 9 in
  let r := Arduino.exec (PinChip.handle (wiring_of self))
             (Legacy.spixfer self 0xB2) (Bench.pin_chip power_up) in
  let ms := miso_samples (trace r) in
  (Legacy._clk self <> -1 /\ Legacy._clk self <> Legacy._mosi self)
  /\ trace r = byte_time self 0xB2 8 ms
  /\ List.length ms = 8%nat
  /\ pin_writes (Legacy._mosi self) (trace r) = bits_of 0xB2 8
  /\ (0xB2 = 0xB2 ->
      pin_writes (Legacy._mosi self) (trace r)
      = [true; false; true; true; false; false; true; false])
  /\ (forall before : bool,
        rising_edges before (pin_writes (Legacy._clk self) (trace r))
        = 8%nat)
  /\ sampled_on_rise (Legacy._clk self) false (trace r) = true
  /\ res r = Done (assemble (map Arduino.level ms)).
Proof.
  intros self r ms.
  assert (Hsw : Legacy._clk self <> -1) by discriminate.
  assert (Hcm : Legacy._clk self <> Legacy._mosi self) by discriminate.
  split; [auto |].
  exact (@spixfer_bit_banged _ (PinChip.handle (wiring_of self)) self 0xB2
           (Bench.pin_chip power_up) Hsw Hcm).
Defined.

(** ** C6: a register read over SPI *)

Section SpiReadPhases.
Import Arduino.
Context {W : Type} (h : handler W).
Variable self : Legacy.Adafruit_CAP1188.

Lemma spixfer_yields (data : Z) (w : W) :
  exists reply w' t,
    yields h (Legacy.spixfer self data) w reply w' t
    /\ byte_on_wire self data reply t.
Proof.
  unfold Legacy.spixfer, byte_on_wire.
  destruct (Legacy._clk self =? -1).
  - do 3 eexists. split; [reflexivity |].
    eexists. split; reflexivity.
  - destruct (spixfer_loop_run h self data 8 0 w) as (Ht & Hlen & Hres).
    cbv zeta in Ht, Hlen, Hres.
    do 3 eexists. split; [apply yields_exec, Hres |].
    exists (miso_samples
              (trace (exec h (Legacy.spixfer_loop self data 8 0) w))).
    split; [exact Hlen |]. split; [exact Ht |].
    apply fold_shift_in_0. rewrite Hlen. lia.
Qed.

Lemma byte_leaves_cs (data reply : Z) (t : list event) :
  distinct_pins self ->
  byte_on_wire self data reply t ->
  pin_writes (Legacy._cs self) t = [].
Proof.
  unfold byte_on_wire. intros Hpins.
  destruct (Z.eqb_spec (Legacy._clk self) (-1)) as [Hhw | Hsw].
  - intros (a & -> & _). reflexivity.
  - destruct Hpins as [? | (Hcc & Hcm & _)]; [contradiction |].
    intros (ms & _ & -> & _). generalize 8%nat. intros n. revert ms.
    induction n as [| n IH]; intros ms; [reflexivity |].
    cbn [byte_time]. rewrite pin_writes_app, IH, app_nil_r. cbn.
    destruct (Z.eqb_spec (Legacy._clk self) (Legacy._cs self));
      [congruence |].
    destruct (Z.eqb_spec (Legacy._mosi self) (Legacy._cs self));
      [congruence | reflexivity].
Qed.

Lemma Legacy_spi_read_trace (reg : Z) (w : W) :
  Legacy._i2c self = false ->
  let r := exec h (Legacy.readRegister self reg) w in
  exists t1 t2 t3 t4 r1 r2 r3 v,
    byte_on_wire self 0x7D r1 t1 /\ byte_on_wire self reg r2 t2
    /\ byte_on_wire self 0x7F r3 t3 /\ byte_on_wire self 0 v t4
    /\ trace r
       = [EvSpiBeginTransaction (Legacy._spi self)
            (mkSPISettings 2000000 MSBFIRST SPI_MODE0)]
         ++ cs_bracket self (t1 ++ t2) ++ cs_bracket self (t3 ++ t4)
         ++ [EvSpiEndTransaction (Legacy._spi self)]
    /\ res r = Done v.
Proof.
  intros Hspi. unfold Legacy.readRegister. rewrite Hspi.
  set (w1 := snd (h (DigitalWrite (Legacy._cs self) LOW)
                    (snd (h (SpiBeginTransaction (Legacy._spi self)
                               (mkSPISettings 2000000 MSBFIRST SPI_MODE0))
                            w)))).
  destruct (spixfer_yields 0x7D w1) as (r1 & w2 & t1 & Y1 & B1).
  destruct (spixfer_yields reg w2) as (r2 & w3 & t2 & Y2 & B2).
  set (w4 := snd (h (DigitalWrite (Legacy._cs self) LOW)
                    (snd (h (DigitalWrite (Legacy._cs self) HIGH) w3)))).
  destruct (spixfer_yields 0x7F w4) as (r3 & w5 & t3 & Y3 & B3).
  destruct (spixfer_yields 0 w5) as (v & w6 & t4 & Y4 & B4).
  exists t1, t2, t3, t4, r1, r2, r3, v.
  repeat (split; [assumption |]).
  assert (Y : yields h
    (Legacy.spi_begin self;;
     digitalWrite (Legacy._cs self) LOW;;
     Legacy.spixfer self 0x7D;;
     Legacy.spixfer self reg;;
     digitalWrite (Legacy._cs self) HIGH;;
     digitalWrite (Legacy._cs self) LOW;;
     Legacy.spixfer self 0x7F;;
     reply <- Legacy.spixfer self 0;;
     digitalWrite (Legacy._cs self) HIGH;;
     Legacy.spi_end self;;
     Ret reply) w v
    (snd (h (SpiEndTransaction (Legacy._spi self))
            (snd (h (DigitalWrite (Legacy._cs self) HIGH) w6))))
    ([EvSpiBeginTransaction (Legacy._spi self)
        (mkSPISettings 2000000 MSBFIRST SPI_MODE0)]
     ++ [EvDigitalWrite (Legacy._cs self) LOW]
     ++ t1 ++ t2
     ++ [EvDigitalWrite (Legacy._cs self) HIGH]
     ++ [EvDigitalWrite (Legacy._cs self) LOW]
     ++ t3 ++ t4
     ++ [EvDigitalWrite (Legacy._cs self) HIGH]
     ++ [EvSpiEndTransaction (Legacy._spi self)] ++ [])).
  { eapply yields_bind; [apply yields_call |].
    eapply yields_bind; [apply yields_call |]. fold w1.
    eapply yields_bind; [exact Y1 |].
    eapply yields_bind; [exact Y2 |].
    eapply yields_bind; [apply yields_call |].
    eapply yields_bind; [apply yields_call |]. fold w4.
    eapply yields_bind; [exact Y3 |].
    eapply yields_bind; [exact Y4 |].
    eapply yields_bind; [apply yields_call |].
    eapply yields_bind; [apply yields_call |].
    apply yields_ret. }
  unfold yields in Y. rewrite Y. cbn [trace res].
  split; [| reflexivity].
  unfold cs_bracket. cbn [app]. rewrite <- !app_assoc. reflexivity.
Qed.
End SpiReadPhases.

(** C6, as stated, fails on the BusIO implementation: a register read on
    SPI is one call of [write_then_read] that carries 0x7D, the register
    and 0x7F together, so chip-select is asserted once and not released
    between the address and the read command. *)
Lemma busio_spi_read_is_one_transaction :
  let r := Arduino.exec BusIOChip.handle
             (readRegister Bench.busio_spi CAP1188_PRODID)
             (Bench.busio_chip power_up) in
  trace r
  = [Arduino.EvSpiDevWriteThenRead
       (Arduino.HardwareSPIDevice 10 2000000 Arduino.MSBFIRST
                                  Arduino.SPI_MODE0 0)
       [0x7D; 0xFD; 0x7F] 1 true [0x50]]
  /\ cs_brackets Bench.busio_spi (trace r) <> 2%nat.
Proof.
  cbv zeta. split; [reflexivity |]. vm_compute. intros H. discriminate H.
Qed.

(** C6, amended: on the legacy implementation, hardware or bit-banged,
    a register read over SPI asserts chip-select twice: low, the bytes 0x7D
    and the register, high; low again, the byte 0x7F and one byte clocked
    in while 0 is sent, high; the byte clocked in is the result.  On the
    BusIO implementation it is one [write_then_read] of the SPI device
    with 0x7D, the register and 0x7F to send and one byte to read; the
    result is the byte the device stored or, when it stored none, the byte
    0x7D the buffer held. *)
Theorem spi_read_phases
    (W : Type) (h : Arduino.handler W) (reg : Z) (w : W) :
  (forall self : Legacy.Adafruit_CAP1188,
     Legacy._i2c self = false -> distinct_pins self ->
     let r := Arduino.exec h (readRegister (LegacyDriver self) reg) w in
     exists t1 t2 t3 t4 r1 r2 r3 v,
       byte_on_wire self 0x7D r1 t1 /\ byte_on_wire self reg r2 t2
       /\ byte_on_wire self 0x7F r3 t3 /\ byte_on_wire self 0 v t4
       /\ trace r
          = [Arduino.EvSpiBeginTransaction (Legacy._spi self)
               (Arduino.mkSPISettings 2000000 Arduino.MSBFIRST
                                      Arduino.SPI_MODE0)]
            ++ cs_bracket self (t1 ++ t2) ++ cs_bracket self (t3 ++ t4)
            ++ [Arduino.EvSpiEndTransaction (Legacy._spi self)]
       /\ res r = Done v
       /\ cs_brackets (LegacyDriver self) (trace r) = 2%nat)
  /\
  (forall (self : BusIO.Adafruit_CAP1188) (spi : Arduino.Adafruit_SPIDevice),
     BusIO.i2c_dev self = None -> BusIO.spi_dev self = Some spi ->
     let r := Arduino.exec h (readRegister (BusIODriver self) reg) w in
     exists ok data,
       trace r = [Arduino.EvSpiDevWriteThenRead spi [0x7D; reg; 0x7F] 1
                                                ok data]
       /\ res r = Done (match data with b :: _ => u8 b | [] => 0x7D end)
       /\ cs_brackets (BusIODriver self) (trace r) = 1%nat).
Proof.
  split.
  - intros self Hspi Hpins r.
    destruct (Legacy_spi_read_trace h self reg w Hspi)
      as (t1 & t2 & t3 & t4 & r1 & r2 & r3 & v
          & B1 & B2 & B3 & B4 & Ht & Hres).
    exists t1, t2, t3, t4, r1, r2, r3, v.
    repeat (split; [assumption |]).
    subst r. cbn [readRegister cs_brackets]. rewrite Ht.
    unfold cs_bracket. rewrite !pin_writes_app.
    rewrite (@byte_leaves_cs self _ _ _ Hpins B1),
            (@byte_leaves_cs self _ _ _ Hpins B2),
            (@byte_leaves_cs self _ _ _ Hpins B3),
            (@byte_leaves_cs self _ _ _ Hpins B4).
    cbn. rewrite Z.eqb_refl. reflexivity.
  - intros self spi Hi2c Hspid r. subst r.
    cbn [readRegister]. unfold BusIO.readRegister. rewrite Hi2c, Hspid.
    do 2 eexists. split; [reflexivity |]. split; [| reflexivity].
    cbn. destruct (snd (fst _)); reflexivity.
Qed.

Lemma spi_read_phases_witness :
  let hc := PinChip.handle (PinMonitor.mkWiring 10 13 11 12) in
  let c := Bench.pin_chip power_up in
  let self := Legacy.new_SoftwareSPI Bench.zeroed 13 12 11 10 9 in
  let bus := BusIO.new_SoftwareSPI 13 12 11 10 9 in
  let spi := Arduino.SoftwareSPIDevice 10 13 12 11 2000000 in
  ((Legacy._i2c self = false /\ distinct_pins self)
   /\ let r := Arduino.exec hc (readRegister (LegacyDriver self) 0xFD) c in
      exists t1 t2 t3 t4 r1 r2 r3 v,
        byte_on_wire self 0x7D r1 t1 /\ byte_on_wire self 0xFD r2 t2
        /\ byte_on_wire self 0x7F r3 t3 /\ byte_on_wire self 0 v t4
        /\ trace r
           = [Arduino.EvSpiBeginTransaction (Legacy._spi self)
                (Arduino.mkSPISettings 2000000 Arduino.MSBFIRST
                                       Arduino.SPI_MODE0)]
             ++ cs_bracket self (t1 ++ t2) ++ cs_bracket self (t3 ++ t4)
             ++ [Arduino.EvSpiEndTransaction (Legacy._spi self)]
        /\ res r = Done v
        /\ cs_brackets (LegacyDriver self) (trace r) = 2%nat)
  /\
  ((BusIO.i2c_dev bus = None /\ BusIO.spi_dev bus = Some spi)
   /\ let r := Arduino.exec BusIOChip.handle
                 (readRegister (BusIODriver bus) 0xFD)
                 (Bench.busio_chip power_up) in
      exists ok data,
        trace r = [Arduino.EvSpiDevWriteThenRead spi [0x7D; 0xFD; 0x7F] 1
                                                 ok data]
        /\ res r = Done (match data with b :: _ => u8 b | [] => 0x7D end)
        /\ cs_brackets (BusIODriver bus) (trace r) = 1%nat).
Proof.
  intros hc c self bus spi.
  assert (Hspi : Legacy._i2c self = false) by reflexivity.
  assert (Hpins : distinct_pins self).
  { right. cbn. repeat split; discriminate. }
  assert (Hi2c : BusIO.i2c_dev bus = None) by reflexivity.
  assert (Hdev : BusIO.spi_dev bus = Some spi) by reflexivity.
  split.
  - split; [auto |].
    exact (proj1 (@spi_read_phases _ hc 0xFD c) self Hspi Hpins).
  - split; [auto |].
    exact (proj2 (@spi_read_phases _ BusIOChip.handle 0xFD
                    (Bench.busio_chip power_up)) bus spi Hi2c Hdev).
Defined.

(** ** C7: a register read over I2C *)

(** C7, as stated, fails on the legacy implementation: on the object
    [begin] has left, the register address goes out in a transmission that
    [endTransmission()] ends, and the byte is then asked for by
    [requestFrom]: two transactions. *)
Lemma legacy_i2c_read_is_two_transactions :
  let rb := Arduino.exec WireChip.handle
              (begin Bench.legacy_i2c CAP1188_I2CADDR 0)
              (Bench.wire_chip power_up) in
  let r := Arduino.exec WireChip.handle
             (readRegister Bench.legacy_i2c_begun CAP1188_PRODID)
             (world rb) in
  res rb = Done (true, Bench.legacy_i2c_begun)
  /\ trace r
     = [Arduino.EvWireBeginTransmission 0 0x29; Arduino.EvWireWrite 0 0xFD;
        Arduino.EvWireEndTransmission 0; Arduino.EvWireRequestFrom 0 0x29 1;
        Arduino.EvWireRead 0 0x50]
  /\ i2c_transactions (trace r) <> 1%nat.
Proof.
  cbv zeta. split; [vm_compute; reflexivity |].
  split; [vm_compute; reflexivity |].
  vm_compute. intros H. discriminate H.
Qed.

(** C7, amended: on the BusIO implementation a register read over I2C is
    one [write_then_read] of the I2C device, with the register address to
    send and one byte to read; the result is the byte the device stored
    or, when it stored none, the register address the buffer held.  On the
    legacy implementation it is a transmission of the register address,
    ended by [endTransmission()], and then a request for one byte and its
    read, the result. *)
Theorem i2c_read_transactions
    (W : Type) (h : Arduino.handler W) (reg : Z) (w : W) :
  (forall (self : BusIO.Adafruit_CAP1188) (i2c : Arduino.Adafruit_I2CDevice),
     BusIO.i2c_dev self = Some i2c ->
     let r := Arduino.exec h (readRegister (BusIODriver self) reg) w in
     exists ok data,
       trace r = [Arduino.EvI2cDevWriteThenRead i2c [reg] 1 ok data]
       /\ res r = Done (match data with b :: _ => u8 b | [] => reg end)
       /\ i2c_transactions (trace r) = 1%nat)
  /\
  (forall self : Legacy.Adafruit_CAP1188,
     Legacy._i2c self = true ->
     let r := Arduino.exec h (readRegister (LegacyDriver self) reg) w in
     exists a,
       trace r
       = [Arduino.EvWireBeginTransmission (Legacy._wire self)
                                          (Legacy._i2caddr self);
          Arduino.EvWireWrite (Legacy._wire self) reg;
          Arduino.EvWireEndTransmission (Legacy._wire self);
          Arduino.EvWireRequestFrom (Legacy._wire self)
                                    (Legacy._i2caddr self) 1;
          Arduino.EvWireRead (Legacy._wire self) a]
       /\ res r = Done (u8 a)
       /\ i2c_transactions (trace r) = 2%nat).
Proof.
  split.
  - intros self i2c Hi2c r. subst r.
    cbn [readRegister]. unfold BusIO.readRegister. rewrite Hi2c.
    do 2 eexists. split; [reflexivity |]. split; [| reflexivity].
    cbn. destruct (snd (fst _)); reflexivity.
  - intros self Hi2c r. subst r.
    cbn [readRegister]. unfold Legacy.readRegister. rewrite Hi2c.
    eexists. cbn. repeat split.
Qed.

Lemma i2c_read_transactions_witness :
  let bus := BusIO.mkDriver
               (Some (Arduino.mkI2CDevice CAP1188_I2CADDR 0)) None (-1) in
  let self := Legacy.mkDriver true CAP1188_I2CADDR 9 0 0 0 0 0 0 in
  ((BusIO.i2c_dev bus = Some (Arduino.mkI2CDevice CAP1188_I2CADDR 0))
   /\ let r := Arduino.exec BusIOChip.handle
                 (readRegister (BusIODriver bus) 0xFD)
                 (Bench.busio_chip power_up) in
      exists ok data,
        trace r = [Arduino.EvI2cDevWriteThenRead
                     (Arduino.mkI2CDevice CAP1188_I2CADDR 0) [0xFD] 1
                     ok data]
        /\ res r = Done (match data with b :: _ => u8 b | [] => 0xFD end)
        /\ i2c_transactions (trace r) = 1%nat)
  /\
  (Legacy._i2c self = true
   /\ let r := Arduino.exec WireChip.handle
                 (readRegister (LegacyDriver self) 0xFD)
                 (Bench.wire_chip power_up) in
      exists a,
        trace r
        = [Arduino.EvWireBeginTransmission (Legacy._wire self)
                                           (Legacy._i2caddr self);
           Arduino.EvWireWrite (Legacy._wire self) 0xFD;
           Arduino.EvWireEndTransmission (Legacy._wire self);
           Arduino.EvWireRequestFrom (Legacy._wire self)
                                     (Legacy._i2caddr self) 1;
           Arduino.EvWireRead (Legacy._wire self) a]
        /\ res r = Done (u8 a)
        /\ i2c_transactions (trace r) = 2%nat).
Proof.
  intros bus self.
  assert (Hbus : BusIO.i2c_dev bus
                 = Some (Arduino.mkI2CDevice CAP1188_I2CADDR 0))
    by reflexivity.
  assert (Hself : Legacy._i2c self = true) by reflexivity.
  split.
  - split; [exact Hbus |].
    exact (proj1 (@i2c_read_transactions _ BusIOChip.handle 0xFD
                    (Bench.busio_chip power_up)) bus _ Hbus).
  - split; [exact Hself |].
    exact (proj2 (@i2c_read_transactions _ WireChip.handle 0xFD
                    (Bench.wire_chip power_up)) self Hself).
Defined.

(** ** C9: one transport per instance *)

Section Confined.
Import Arduino.
Variable ok : event -> bool.

Lemma confined_ret {R} (r : R) : confined ok (Ret r).
Proof. intros W h w. cbn. eauto. Qed.

Lemma confined_call {X} (e : platformE X) :
  (forall x, ok (log e x) = true) -> confined ok (call e).
Proof.
  intros He W h w. unfold exec. rewrite run_call. cbn.
  rewrite He. eauto.
Qed.

Lemma confined_bind {A B} (p : io platformE A) (f : A -> io platformE B) :
  confined ok p -> (forall a, confined ok (f a)) -> confined ok (bind p f).
Proof.
  intros Hp Hf W h w. unfold exec. rewrite run_bind.
  destruct (Hp W h w) as [[a Ha] Hta]. unfold exec in Ha, Hta.
  unfold and_then. rewrite Ha. cbn.
  destruct (Hf a W h (world (run h log p w))) as [[b Hb] Htb].
  unfold exec in Hb, Htb.
  rewrite forallb_app, Hta, Htb. eauto.
Qed.

(** What [bind] returns, its first part returned before. *)
Lemma bind_done {W A B} (h : handler W) (p : io platformE A)
    (f : A -> io platformE B) (w : W) (b : B) :
  res (exec h (bind p f) w) = Done b ->
  exists a, res (exec h p w) = Done a
            /\ res (exec h (f a) (world (exec h p w))) = Done b.
Proof.
  unfold exec. rewrite run_bind. unfold and_then.
  destruct (res (run h log p w)) as [a | u]; cbn; [eauto | discriminate].
Qed.
End Confined.

Ltac confine :=
  repeat first
    [ apply confined_ret
    | apply confined_call; intros; reflexivity
    | apply confined_bind; [| intros]
    | match goal with
      | |- confined _ (if ?c then _ else _) => destruct c
      end ].

Section Paths.
Import Arduino.

Lemma spixfer_loop_confined (self : Legacy.Adafruit_CAP1188) (data : Z)
    (n : nat) (reply : Z) :
  confined (allowed OnSPI) (Legacy.spixfer_loop self data n reply).
Proof.
  revert reply. induction n as [| n IH]; intros reply;
    cbn [Legacy.spixfer_loop].
  - confine.
  - unfold digitalWrite, digitalRead. confine. apply IH.
Qed.

Lemma spixfer_confined (self : Legacy.Adafruit_CAP1188) (data : Z) :
  confined (allowed OnSPI) (Legacy.spixfer self data).
Proof.
  unfold Legacy.spixfer. destruct (Legacy._clk self =? -1).
  - confine.
  - apply spixfer_loop_confined.
Qed.

Lemma Legacy_read_confined (self : Legacy.Adafruit_CAP1188) (reg : Z) :
  confined (allowed (discriminator (LegacyDriver self)))
           (Legacy.readRegister self reg).
Proof.
  unfold Legacy.readRegister, discriminator.
  destruct (Legacy._i2c self).
  - unfold Legacy.i2cwrite. confine.
  - unfold Legacy.spi_begin, Legacy.spi_end, digitalWrite.
    repeat first [ apply spixfer_confined
                 | apply confined_ret
                 | apply confined_call; intros; reflexivity
                 | apply confined_bind; [| intros] ].
Qed.

Lemma Legacy_write_confined (self : Legacy.Adafruit_CAP1188) (reg v : Z) :
  confined (allowed (discriminator (LegacyDriver self)))
           (Legacy.writeRegister self reg v).
Proof.
  unfold Legacy.writeRegister, discriminator.
  destruct (Legacy._i2c self).
  - unfold Legacy.i2cwrite. confine.
  - unfold Legacy.spi_begin, Legacy.spi_end, digitalWrite.
    repeat first [ apply spixfer_confined
                 | apply confined_ret
                 | apply confined_call; intros; reflexivity
                 | apply confined_bind; [| intros] ].
Qed.

Lemma BusIO_read_confined (self : BusIO.Adafruit_CAP1188) (tr : transport)
    (reg : Z) :
  BusIO_ready self tr ->
  confined (allowed tr) (BusIO.readRegister self reg).
Proof.
  unfold BusIO.readRegister, BusIO_ready.
  destruct tr; intros Hready.
  - destruct (BusIO.i2c_dev self); [confine | congruence].
  - destruct Hready as [-> Hspi].
    destruct (BusIO.spi_dev self); [confine | congruence].
Qed.

Lemma BusIO_write_confined (self : BusIO.Adafruit_CAP1188) (tr : transport)
    (reg v : Z) :
  BusIO_ready self tr ->
  confined (allowed tr) (BusIO.writeRegister self reg v).
Proof.
  unfold BusIO.writeRegister, BusIO_ready.
  destruct tr; intros Hready.
  - destruct (BusIO.i2c_dev self); [confine | congruence].
  - destruct Hready as [-> Hspi].
    destruct (BusIO.spi_dev self); [confine | congruence].
Qed.

Section Shared.
Variable tr : transport.
Variable rd : Z -> io platformE Z.
Variable wr : Z -> Z -> io platformE unit.
Hypothesis rd_confined : forall reg, confined (allowed tr) (rd reg).
Hypothesis wr_confined : forall reg v, confined (allowed tr) (wr reg v).

Lemma touch_confined : confined (allowed tr) (touch rd wr).
Proof.
  unfold touch.
  repeat first [ apply rd_confined | apply wr_confined
               | apply confined_ret
               | apply confined_bind; [| intros]
               | match goal with
                 | |- confined _ (if ?c then _ else _) => destruct c
                 end ].
Qed.

Lemma identify_confined : confined (allowed tr) (identify rd wr).
Proof.
  unfold identify, Serial_print, Serial_println_HEX.
  repeat first [ apply rd_confined | apply wr_confined
               | apply confined_ret
               | apply confined_call; intros; reflexivity
               | apply confined_bind; [| intros]
               | match goal with
                 | |- confined _ (if ?c then _ else _) => destruct c
                 end ].
Qed.

Lemma reset_pulse_confined (resetpin : Z) :
  confined (allowed tr) (reset_pulse resetpin).
Proof.
  unfold reset_pulse, pinMode, digitalWrite, delay. confine.
Qed.
End Shared.
End Paths.

Section BeginPaths.
Import Arduino.

Lemma Legacy_begin_confined (self : Legacy.Adafruit_CAP1188)
    (i2caddr : Z) (theWire : ptr) :
  confined (allowed (discriminator (LegacyDriver self)))
           (Legacy.begin self i2caddr theWire).
Proof.
  unfold Legacy.begin.
  assert (Hrest : forall self' : Legacy.Adafruit_CAP1188,
    Legacy._i2c self' = Legacy._i2c self ->
    confined (allowed (discriminator (LegacyDriver self)))
             (b <- Legacy.begin_opened self';; Ret (b, self'))).
  { intros self' Hsame. rewrite Legacy_begin_opened_eq.
    assert (Hd : discriminator (LegacyDriver self)
                 = discriminator (LegacyDriver self'))
      by (cbn; rewrite Hsame; reflexivity).
    rewrite Hd.
    apply confined_bind; [| intros; apply confined_ret].
    apply confined_bind; [apply reset_pulse_confined | intros].
    apply identify_confined.
    - intros. apply Legacy_read_confined.
    - intros. apply Legacy_write_confined. }
  cbn [discriminator] in *.
  destruct (Legacy._i2c self) eqn:Hi2c.
  - apply confined_bind; [confine | intros].
    apply Hrest. reflexivity.
  - destruct (Legacy._clk self =? -1); unfold pinMode, digitalWrite;
      repeat (apply confined_bind;
              [apply confined_call; intros; reflexivity | intros]);
      apply Hrest; exact Hi2c.
Qed.

Lemma Legacy_begin_object {W : Type} (h : handler W)
    (self self' : Legacy.Adafruit_CAP1188) (i2caddr : Z) (theWire : ptr)
    (w : W) (b : bool) :
  res (exec h (Legacy.begin self i2caddr theWire) w) = Done (b, self') ->
  self' = Legacy_begun self i2caddr theWire.
Proof.
  unfold Legacy.begin, Legacy_begun. intros H.
  destruct (Legacy._i2c self); [| destruct (Legacy._clk self =? -1)];
    repeat (apply bind_done in H; destruct H as (? & _ & H));
    cbn in H; congruence.
Qed.

Lemma BusIO_begin_confined (self : BusIO.Adafruit_CAP1188)
    (i2caddr : Z) (theWire : ptr) :
  BusIO_sound self ->
  confined (allowed (discriminator (BusIODriver self)))
           (BusIO.begin self i2caddr theWire).
Proof.
  intros Hsound. unfold BusIO.begin.
  assert (Hrest : forall (self' : BusIO.Adafruit_CAP1188) (tr : transport),
    BusIO_ready self' tr ->
    confined (allowed tr) (b <- BusIO.begin_opened self';; Ret (b, self'))).
  { intros self' tr Hready. rewrite BusIO_begin_opened_eq.
    apply confined_bind; [| intros; apply confined_ret].
    apply confined_bind; [apply reset_pulse_confined | intros].
    apply identify_confined.
    - intros. apply BusIO_read_confined, Hready.
    - intros. apply BusIO_write_confined, Hready. }
  cbn [discriminator].
  destruct (BusIO.spi_dev self) as [spi |] eqn:Hspi.
  - apply confined_bind; [confine | intros ok].
    destruct ok; cbn [negb]; [| apply confined_ret].
    apply Hrest. split; [apply Hsound |]; congruence.
  - apply confined_bind; [confine | intros ok].
    destruct ok; cbn [negb]; [| apply confined_ret].
    apply Hrest. cbn. discriminate.
Qed.
End BeginPaths.

Lemma instance_invariant (d : driver) (tr : transport) (begun : bool) :
  instance d tr begun -> instance_inv d tr begun.
Proof.
  induction 1 as [d tr Hc | d tr begun W h w i2caddr theWire b d' Hi IH Hres].
  - destruct Hc; split; cbn; try exact I; try reflexivity;
      (split; [intros _; reflexivity | discriminate]).
  - destruct IH as [Hd Hrest].
    destruct d as [self | self]; cbn [begin] in Hres;
      apply bind_done in Hres; destruct Hres as (r & Hr & Hret).
    + destruct r as [b0 self0]. cbn in Hret.
      injection Hret as _ <-.
      apply Legacy_begin_object in Hr. subst self0.
      split; [| exact I]. rewrite <- Hd. unfold Legacy_begun. cbn.
      destruct (Legacy._i2c self) eqn:Hi2c; cbn; rewrite ?Hi2c; reflexivity.
    + destruct r as [b0 self0]. cbn in Hret.
      injection Hret as _ <-.
      destruct (BusIO_begin_cases h self i2caddr theWire w)
        as (b1 & self1 & Hres1 & Hspi & _ & Hnew & Hkeep & _).
      cbv zeta in Hres1. rewrite Hr in Hres1.
      injection Hres1 as _ <-.
      destruct Hrest as [Hsound _].
      split; [| split].
      * rewrite <- Hd. cbn. rewrite Hspi. reflexivity.
      * intros Hs. rewrite Hspi in Hs. rewrite (Hkeep Hs). apply Hsound, Hs.
      * intros -> _. cbn in Hd.
        destruct (BusIO.spi_dev self) eqn:E; [discriminate |].
        rewrite (Hnew eq_refl). discriminate.
Qed.

(** C9: the transport of an instance is fixed by its constructor and no
    operation changes it.  Every instance, fresh from its constructor or
    left by [begin] any number of times, has the discriminator of its
    transport; [begin] takes the path of that transport only and leaves an
    object of the same transport.  On every instance on which [begin] has
    run, [readRegister], [writeRegister], [touched] and [LEDpolarity], which
    assign no field, take the path of that transport only, and
    [readRegister] starts with a call of it.  (The register operations
    assume the bus [begin] opens; what they do before [begin] is not
    stated.) *)
Theorem transport_fixed (d : driver) (tr : transport) (begun : bool) :
  instance d tr begun ->
  discriminator d = tr
  /\ (forall (W : Type) (h : Arduino.handler W) (w : W) i2caddr theWire,
        let r := Arduino.exec h (begin d i2caddr theWire) w in
        on_path tr r
        /\ exists b d', res r = Done (b, d') /\ discriminator d' = tr)
  /\ (begun = true ->
      forall (W : Type) (h : Arduino.handler W) (w : W) (reg v : Z),
        on_path tr (Arduino.exec h (readRegister d reg) w)
        /\ first_call (Arduino.exec h (readRegister d reg) w) = Some tr
        /\ on_path tr (Arduino.exec h (writeRegister d reg v) w)
        /\ on_path tr (Arduino.exec h (touched d) w)
        /\ on_path tr (Arduino.exec h (LEDpolarity d v) w)).
Proof.
  intros Hinst. destruct (instance_invariant Hinst) as [Hd Hinv].
  split; [exact Hd |]. split.
  - intros W h w i2caddr theWire r.
    assert (Hpath : on_path tr r).
    { subst r tr. destruct d as [self | self]; cbn [begin].
      - apply confined_bind;
          [apply Legacy_begin_confined | intros; apply confined_ret].
      - apply confined_bind;
          [apply BusIO_begin_confined, Hinv | intros; apply confined_ret]. }
    split; [exact Hpath |].
    destruct Hpath as [[[b d'] Hres] _]. exists b, d'.
    split; [exact Hres |].
    exact (proj1 (instance_invariant (Begun _ _ _ _ Hinst Hres))).
  - intros Hwhen.
    assert (Hrd : forall reg, confined (allowed tr) (readRegister d reg)).
    { subst tr. destruct d as [self | self]; cbn [readRegister]; intros reg.
      - apply Legacy_read_confined.
      - apply BusIO_read_confined. destruct Hinv as [Hsound Hbegun].
        cbn [discriminator] in *. unfold BusIO_ready.
        destruct (BusIO.spi_dev self) eqn:Hspi.
        + split; [apply Hsound |]; congruence.
        + apply Hbegun; [reflexivity | exact Hwhen]. }
    assert (Hwr : forall reg v, confined (allowed tr) (writeRegister d reg v)).
    { subst tr. destruct d as [self | self]; cbn [writeRegister];
        intros reg v.
      - apply Legacy_write_confined.
      - apply BusIO_write_confined. destruct Hinv as [Hsound Hbegun].
        cbn [discriminator] in *. unfold BusIO_ready.
        destruct (BusIO.spi_dev self) eqn:Hspi.
        + split; [apply Hsound |]; congruence.
        + apply Hbegun; [reflexivity | exact Hwhen]. }
    intros W h w reg v.
    split; [apply Hrd |]. split.
    { subst tr. destruct d as [self | self];
        cbn [readRegister discriminator].
      - unfold Legacy.readRegister.
        destruct (Legacy._i2c self); reflexivity.
      - destruct Hinv as [Hsound Hbegun]. cbn [discriminator] in *.
        unfold BusIO.readRegister.
        destruct (BusIO.spi_dev self) eqn:Hspi.
        + assert (Hnone : BusIO.i2c_dev self = None)
            by (apply Hsound; congruence).
          rewrite Hnone. reflexivity.
        + destruct (BusIO.i2c_dev self) eqn:Hi2c; [reflexivity |].
          exfalso. apply Hbegun; [reflexivity | exact Hwhen | reflexivity]. }
    split; [apply Hwr |]. split.
    + replace (touched d) with (touch (readRegister d) (writeRegister d))
        by (destruct d; reflexivity).
      apply touch_confined; assumption.
    + replace (LEDpolarity d v) with (writeRegister d CAP1188_LEDPOL v)
        by (destruct d; reflexivity).
      apply Hwr.
Qed.

Lemma transport_fixed_witness :
  let d := Bench.busio_i2c_begun in
  let hc := BusIOChip.handle in
  let c := Bench.busio_chip power_up in
  instance d OnI2C true
  /\ discriminator d = OnI2C
  /\ on_path OnI2C (Arduino.exec hc (begin d CAP1188_I2CADDR 0) c)
  /\ on_path OnI2C (Arduino.exec hc (readRegister d CAP1188_PRODID) c)
  /\ first_call (Arduino.exec hc (readRegister d CAP1188_PRODID) c)
     = Some OnI2C
  /\ on_path OnI2C (Arduino.exec hc (touched d) c).
Proof.
  intros d hc c.
  assert (Hinst : instance d OnI2C true).
  { apply (@Begun Bench.busio_i2c OnI2C false _ hc c CAP1188_I2CADDR 0 true d).
    - apply Fresh. constructor.
    - vm_compute. reflexivity. }
  destruct (transport_fixed Hinst) as (Hd & Hbegin & Hops).
  destruct (Hops eq_refl _ hc c CAP1188_PRODID 0)
    as (Hrd & Hfirst & _ & Htouched & _).
  split; [exact Hinst |]. split; [exact Hd |].
  split; [exact (proj1 (Hbegin _ hc c CAP1188_I2CADDR 0)) |].
  split; [exact Hrd |]. split; [exact Hfirst | exact Htouched].
Defined.

(** * Further properties of the code *)

(** ** Register operations, one by one *)

Lemma minit_quiet (d : driver) :
  quiet (monitor_of d) (minit (monitor_of d)) = true.
Proof.
  destruct d as [self | self]; cbn; [destruct (Legacy._i2c self) |];
    reflexivity.
Qed.

(** X1: a register read is one register read on the bus.  On both
    implementations, on every transport and in every environment,
    [readRegister reg] returns a byte, and what a monitor on the bus sees
    of the call is one access, a read of [reg].  The byte returned is the
    byte the monitor saw whenever the bus device stored the byte it was
    asked to read ([delivered]).  When the device of the BusIO
    implementation stored none, the byte returned is the first byte of the
    buffer: [reg] itself on I2C, 0x7D on SPI.  The driver has its bus
    device and, when bit-banged, three different pins ([operational]);
    [reg] has eight bits. *)
Theorem readRegister_is_one_read
    (W : Type) (h : Arduino.handler W) (d : driver) (reg : Z) (w : W) :
  operational d -> is_u8 reg ->
  let r := Arduino.exec h (readRegister d reg) w in
  exists v m,
    res r = Done v /\ is_u8 v
    /\ accesses (monitor_of d) (trace r) = [RegRead reg m]
    /\ (delivered (trace r) = true -> v = m)
    /\ (forall self, d = BusIODriver self ->
        delivered (trace r) = false -> v = buffer_byte self reg).
Proof.
  intros Hop Hreg r.
  destruct (read_seen h d w (minit (monitor_of d)) Hop Hreg (minit_quiet d))
    as (v & m & Hres & Hv & _ & Hl & Hd).
  fold r in Hres, Hl, Hd.
  exists v, m. repeat (split; [assumption |]).
  intros self -> Hno. eapply BusIO_read_kept; eassumption.
Qed.

Lemma readRegister_is_one_read_witness :
  let d := Bench.busio_spi in
  let r := Arduino.exec BusIOChip.handle (readRegister d CAP1188_MANUID)
                        (Bench.busio_chip power_up) in
  (operational d /\ is_u8 CAP1188_MANUID)
  /\ exists v m,
       res r = Done v /\ is_u8 v
       /\ accesses (monitor_of d) (trace r) = [RegRead CAP1188_MANUID m]
       /\ (delivered (trace r) = true -> v = m)
       /\ (forall self, d = BusIODriver self ->
           delivered (trace r) = false ->
           v = buffer_byte self CAP1188_MANUID).
Proof.
  intros d r.
  assert (Hop : operational d) by (right; discriminate).
  assert (Hreg : is_u8 CAP1188_MANUID) by (cbv; intuition congruence).
  split; [auto |].
  exact (@readRegister_is_one_read _ BusIOChip.handle d CAP1188_MANUID
           (Bench.busio_chip power_up) Hop Hreg).
Defined.

(** X2: a register write is one register write on the bus.  On both
    implementations, on every transport and in every environment,
    [writeRegister reg v] returns, and what a monitor on the bus sees of
    the call is one access: the write of [v] to [reg].  The driver has its
    bus device and, when bit-banged, three different pins ([operational]);
    [reg] and [v] have eight bits. *)
Theorem writeRegister_is_one_write
    (W : Type) (h : Arduino.handler W) (d : driver) (reg v : Z) (w : W) :
  operational d -> is_u8 reg -> is_u8 v ->
  let r := Arduino.exec h (writeRegister d reg v) w in
  res r = Done tt
  /\ accesses (monitor_of d) (trace r) = [RegWrite reg v].
Proof.
  intros Hop Hreg Hv r.
  destruct (write_shown h d Hop Hreg Hv w (minit (monitor_of d))
              (minit_quiet d)) as ([] & Hres & _ & Hl).
  split; assumption.
Qed.

Lemma writeRegister_is_one_write_witness :
  let d := Bench.legacy_sw_spi in
  let hc := PinChip.handle (PinMonitor.mkWiring 10 13 11 12) in
  let r := Arduino.exec hc (writeRegister d CAP1188_MTBLK 0x80)
                        (Bench.pin_chip power_up) in
  (operational d /\ is_u8 CAP1188_MTBLK /\ is_u8 0x80)
  /\ res r = Done tt
  /\ accesses (monitor_of d) (trace r) = [RegWrite CAP1188_MTBLK 0x80].
Proof.
  intros d hc r.
  assert (Hop : operational d).
  { right. right. cbn. repeat split; discriminate. }
  assert (Hreg : is_u8 CAP1188_MTBLK) by (unfold is_u8, CAP1188_MTBLK; lia).
  assert (Hv : is_u8 0x80) by (unfold is_u8; lia).
  split; [auto |].
  exact (@writeRegister_is_one_write _ hc d CAP1188_MTBLK 0x80
           (Bench.pin_chip power_up) Hop Hreg Hv).
Defined.

(** X3: [LEDpolarity inverted] is one register write, of [inverted] as
    it is, to the register LEDPOL (0x73): the register is not read first,
    no bit of [inverted] is masked and no other register is accessed.  On
    both implementations, on every transport and in every environment, for
    an [operational] driver and [inverted] of eight bits. *)
Theorem LEDpolarity_is_one_write
    (W : Type) (h : Arduino.handler W) (d : driver) (inverted : Z) (w : W) :
  operational d -> is_u8 inverted ->
  let r := Arduino.exec h (LEDpolarity d inverted) w in
  res r = Done tt
  /\ accesses (monitor_of d) (trace r) = [RegWrite 0x73 inverted].
Proof.
  intros Hop Hv r.
  assert (Hreg : is_u8 CAP1188_LEDPOL) by (unfold is_u8, CAP1188_LEDPOL; lia).
  assert (Heq : LEDpolarity d inverted
                = writeRegister d CAP1188_LEDPOL inverted)
    by (destruct d; reflexivity).
  subst r. rewrite Heq.
  destruct (write_shown h d Hop Hreg Hv w (minit (monitor_of d))
              (minit_quiet d)) as ([] & Hres & _ & Hl).
  split; assumption.
Qed.

Lemma LEDpolarity_is_one_write_witness :
  let d := Bench.legacy_i2c in
  let r := Arduino.exec WireChip.handle (LEDpolarity d 1)
                        (Bench.wire_chip power_up) in
  (operational d /\ is_u8 1)
  /\ res r = Done tt
  /\ accesses (monitor_of d) (trace r) = [RegWrite 0x73 1].
Proof.
  intros d r.
  assert (Hop : operational d) by (left; reflexivity).
  assert (Hv : is_u8 1) by (unfold is_u8; lia).
  split; [auto |].
  exact (@LEDpolarity_is_one_write _ WireChip.handle d 1
           (Bench.wire_chip power_up) Hop Hv).
Defined.

Lemma store_other (rf : regfile) (reg v reg' : Z) :
  reg' <> reg -> store rf reg v reg' = rf reg'.
Proof.
  intros Hne. unfold store. destruct (reg' =? reg) eqn:E; [| reflexivity].
  apply Z.eqb_eq in E. contradiction.
Qed.

(** X4: against the simulated chip of its transport a register write
    changes no other register: after [writeRegister reg v], a read of
    another register [reg'] returns what it returned before, the content of
    [reg'].  On both implementations, over I2C, hardware SPI and
    bit-banged SPI, for an [operational] driver, an idle chip and register
    addresses and a value of eight bits. *)
Theorem write_keeps_other_registers
    (d : driver) (reg v reg' : Z) (c : chip (simulator_of d)) :
  operational d -> is_u8 reg -> is_u8 v -> is_u8 reg' -> reg' <> reg ->
  idle (simulator_of d) c ->
  let h := answer (simulator_of d) in
  res (Arduino.exec h (writeRegister d reg v;; readRegister d reg') c)
  = res (Arduino.exec h (readRegister d reg') c)
  /\ res (Arduino.exec h (readRegister d reg') c)
     = Done (u8 (contents (simulator_of d) c reg')).
Proof.
  intros Hop Hreg Hv Hreg' Hne Hidle h.
  destruct (write_stores d c Hop Hreg Hv Hidle) as (c1 & Hw & Hidle1 & Hc1).
  destruct (read_serves d c1 Hop Hreg' Hidle1) as (c2 & Hr & _ & _).
  destruct (read_serves d c Hop Hreg' Hidle) as (c3 & Hr0 & _ & _).
  pose proof (returns_bind (fun _ => readRegister d reg') Hw Hr) as Hwr.
  rewrite Hc1, store_other in Hwr by exact Hne.
  destruct Hwr as [Hwr _]. destruct Hr0 as [Hr0 _].
  subst h. rewrite Hwr, Hr0. split; reflexivity.
Qed.

Lemma write_keeps_other_registers_witness :
  let d := Bench.legacy_sw_spi in
  let c : chip (simulator_of d) := Bench.pin_chip power_up in
  let h := answer (simulator_of d) in
  (operational d /\ is_u8 CAP1188_MANUID /\ is_u8 0x11 /\ is_u8 CAP1188_PRODID
   /\ CAP1188_PRODID <> CAP1188_MANUID /\ idle (simulator_of d) c)
  /\ res (Arduino.exec h (writeRegister d CAP1188_MANUID 0x11;;
                          readRegister d CAP1188_PRODID) c)
     = res (Arduino.exec h (readRegister d CAP1188_PRODID) c)
  /\ res (Arduino.exec h (readRegister d CAP1188_PRODID) c)
     = Done (u8 (contents (simulator_of d) c CAP1188_PRODID)).
Proof.
  intros d c h.
  assert (Hop : operational d).
  { right. right. cbn. repeat split; discriminate. }
  assert (Hreg : is_u8 CAP1188_MANUID) by (unfold is_u8, CAP1188_MANUID; lia).
  assert (Hv : is_u8 0x11) by (unfold is_u8; lia).
  assert (Hreg' : is_u8 CAP1188_PRODID) by (unfold is_u8, CAP1188_PRODID; lia).
  assert (Hne : CAP1188_PRODID <> CAP1188_MANUID) by discriminate.
  assert (Hidle : idle (simulator_of d) c) by reflexivity.
  split; [auto 10 |].
  exact (@write_keeps_other_registers d CAP1188_MANUID 0x11 CAP1188_PRODID c
           Hop Hreg Hv Hreg' Hne Hidle).
Defined.

(** X5: when the bus does not open, [begin] of the BusIO implementation
    returns false at once.  The one call it has made is [begin()] of its
    device, which answered false: no pin was touched, nothing was read,
    written or printed.  An SPI object is left as it was; an I2C object
    holds the device that was made from the address and the bus given. *)
Theorem BusIO_begin_bus_not_opened
    (W : Type) (h : Arduino.handler W) (self : BusIO.Adafruit_CAP1188)
    (i2caddr : Z) (theWire : Arduino.ptr) (w : W) :
  let r := Arduino.exec h (BusIO.begin self i2caddr theWire) w in
  opened (trace r) = false ->
  match BusIO.spi_dev self with
  | Some spi =>
      trace r = [Arduino.EvSpiDevBegin spi false]
      /\ res r = Done (false, self)
  | None =>
      let i2c := Arduino.mkI2CDevice i2caddr theWire in
      trace r = [Arduino.EvI2cDevBegin i2c false]
      /\ res r = Done (false, BusIO.mkDriver (Some i2c) None
                                             (BusIO._resetpin self))
  end.
Proof.
  intros r. subst r. unfold BusIO.begin, Arduino.exec.
  destruct (BusIO.spi_dev self) as [spi |] eqn:Hspi.
  - rewrite run_bind, run_call. unfold and_then. cbn [res world trace].
    destruct (fst (h bool (Arduino.SpiDevBegin spi) w)) eqn:Hok;
      cbn [negb app opened Arduino.log]; [discriminate |].
    intros _. cbn. split; reflexivity.
  - rewrite run_bind, run_call. unfold and_then. cbn [res world trace].
    destruct (fst (h bool (Arduino.I2cDevBegin
                             (Arduino.mkI2CDevice i2caddr theWire)) w))
      eqn:Hok; cbn [negb app opened Arduino.log]; [discriminate |].
    intros _. cbn. split; reflexivity.
Qed.

Lemma BusIO_begin_bus_not_opened_witness :
  let self := BusIO.new_I2C 9 in
  let r := Arduino.exec WireChip.handle (BusIO.begin self 0x29 0)
                        (Bench.wire_chip power_up) in
  opened (trace r) = false
  /\ trace r = [Arduino.EvI2cDevBegin (Arduino.mkI2CDevice 0x29 0) false]
  /\ res r = Done (false,
                   BusIO.mkDriver (Some (Arduino.mkI2CDevice 0x29 0)) None 9).
Proof.
  intros self r.
  assert (Hclosed : opened (trace r) = false) by reflexivity.
  split; [exact Hclosed |].
  exact (@BusIO_begin_bus_not_opened _ WireChip.handle self 0x29 0
           (Bench.wire_chip power_up) Hclosed).
Defined.

(** ** What the register operations call *)

Section Within.
Import Arduino.
Variable P : event -> Prop.

Lemma within_ret {R} (r : R) : within P (Ret r).
Proof. intros W h w. cbn. eauto. Qed.

Lemma within_call {X} (e : platformE X) :
  (forall x, P (log e x)) -> within P (call e).
Proof.
  intros He W h w. unfold exec. rewrite run_call. cbn. eauto.
Qed.

Lemma within_bind {A B} (p : io platformE A) (f : A -> io platformE B) :
  within P p -> (forall a, within P (f a)) -> within P (bind p f).
Proof.
  intros Hp Hf W h w.
  destruct (Hp W h w) as [[a Ha] Hta].
  rewrite (exec_bind h p f w Ha). cbn.
  destruct (Hf a W h (world (exec h p w))) as [[b Hb] Htb].
  split; [eauto |]. apply Forall_app. auto.
Qed.

Lemma within_weaken {R} (Q : event -> Prop) (p : io platformE R) :
  (forall e, Q e -> P e) -> within Q p -> within P p.
Proof.
  intros HQP Hp W h w. destruct (Hp W h w) as [Hres Ht].
  split; [exact Hres |]. eapply Forall_impl; eauto.
Qed.
End Within.

Ltac bound_by tac :=
  repeat first
    [ apply within_ret
    | apply within_call; intros; cbn; solve [tac]
    | apply within_bind; [| intros]
    | match goal with
      | |- within _ (if ?c then _ else _) => destruct c
      end ].

Section Footprints.
Import Arduino.

Lemma spixfer_loop_within (self : Legacy.Adafruit_CAP1188) (data : Z)
    (n : nat) (reply : Z) :
  Legacy._clk self <> -1 ->
  within (spi_call self) (Legacy.spixfer_loop self data n reply).
Proof.
  intros Hclk. revert reply. induction n as [| n IH]; intros reply;
    cbn [Legacy.spixfer_loop].
  - apply within_ret.
  - unfold digitalWrite, digitalRead.
    repeat (apply within_bind;
            [apply within_call; intros; cbn; solve [auto] | intros]).
    apply IH.
Qed.

Lemma spixfer_within (self : Legacy.Adafruit_CAP1188) (data : Z) :
  within (spi_call self) (Legacy.spixfer self data).
Proof.
  unfold Legacy.spixfer. destruct (Legacy._clk self =? -1) eqn:Hclk.
  - apply Z.eqb_eq in Hclk. bound_by auto.
  - apply Z.eqb_neq in Hclk. apply spixfer_loop_within, Hclk.
Qed.

Lemma Legacy_read_within (self : Legacy.Adafruit_CAP1188) (reg : Z) :
  within (register_call (LegacyDriver self)) (Legacy.readRegister self reg).
Proof.
  unfold Legacy.readRegister, register_call.
  destruct (Legacy._i2c self).
  - unfold Legacy.i2cwrite. bound_by auto.
  - unfold Legacy.spi_begin, Legacy.spi_end, digitalWrite.
    repeat first [ apply spixfer_within
                 | apply within_ret
                 | apply within_call; intros; cbn; solve [auto]
                 | apply within_bind; [| intros] ].
Qed.

Lemma Legacy_write_within (self : Legacy.Adafruit_CAP1188) (reg v : Z) :
  within (register_call (LegacyDriver self))
         (Legacy.writeRegister self reg v).
Proof.
  unfold Legacy.writeRegister, register_call.
  destruct (Legacy._i2c self).
  - unfold Legacy.i2cwrite. bound_by auto.
  - unfold Legacy.spi_begin, Legacy.spi_end, digitalWrite.
    repeat first [ apply spixfer_within
                 | apply within_ret
                 | apply within_call; intros; cbn; solve [auto]
                 | apply within_bind; [| intros] ].
Qed.

Lemma BusIO_read_within (self : BusIO.Adafruit_CAP1188) (reg : Z) :
  has_bus (BusIODriver self) ->
  within (register_call (BusIODriver self)) (BusIO.readRegister self reg).
Proof.
  unfold BusIO.readRegister, register_call, has_bus. intros Hbus.
  destruct (BusIO.i2c_dev self) as [i2c |] eqn:Hi2c.
  - bound_by ltac:(cbn; rewrite ?Hi2c; auto).
  - destruct (BusIO.spi_dev self) as [spi |] eqn:Hspi.
    + bound_by ltac:(cbn; rewrite ?Hi2c, ?Hspi; auto).
    + destruct Hbus; congruence.
Qed.

Lemma BusIO_write_within (self : BusIO.Adafruit_CAP1188) (reg v : Z) :
  has_bus (BusIODriver self) ->
  within (register_call (BusIODriver self)) (BusIO.writeRegister self reg v).
Proof.
  unfold BusIO.writeRegister, register_call, has_bus. intros Hbus.
  destruct (BusIO.i2c_dev self) as [i2c |] eqn:Hi2c.
  - bound_by ltac:(cbn; rewrite ?Hi2c; auto).
  - destruct (BusIO.spi_dev self) as [spi |] eqn:Hspi.
    + bound_by ltac:(cbn; rewrite ?Hi2c, ?Hspi; auto).
    + destruct Hbus; congruence.
Qed.

Lemma read_within (d : driver) (reg : Z) :
  has_bus d -> within (register_call d) (readRegister d reg).
Proof.
  destruct d as [self | self]; intros Hbus.
  - apply Legacy_read_within.
  - apply BusIO_read_within, Hbus.
Qed.

Lemma write_within (d : driver) (reg v : Z) :
  has_bus d -> within (register_call d) (writeRegister d reg v).
Proof.
  destruct d as [self | self]; intros Hbus.
  - apply Legacy_write_within.
  - apply BusIO_write_within, Hbus.
Qed.

Lemma touch_within (d : driver) :
  has_bus d ->
  within (register_call d) (touch (readRegister d) (writeRegister d)).
Proof.
  intros Hbus. unfold touch.
  repeat first [ apply read_within, Hbus | apply write_within, Hbus
               | apply within_ret
               | apply within_bind; [| intros]
               | match goal with
                 | |- within _ (if ?c then _ else _) => destruct c
                 end ].
Qed.

Lemma touched_touch (d : driver) :
  touched d = touch (readRegister d) (writeRegister d).
Proof. destruct d; reflexivity. Qed.
End Footprints.

(** X6: the register operations call their bus and nothing else.  In
    every environment each call of [readRegister], [writeRegister],
    [touched] and [LEDpolarity] is, on the legacy implementation over I2C,
    a call of the [Wire] object the instance holds, to the address it
    holds; over SPI, a transaction at 2 MHz, MSB first, mode 0, or a
    transfer, of the SPI object it holds, a write of its chip-select pin,
    or, when bit-banged, a write of its clock or MOSI pin or a read of its
    MISO pin; on the BusIO implementation, a write or a write-then-read of
    the device it holds.  So none of them sets a pin mode, waits or prints.
    A BusIO object has one of its devices ([has_bus]). *)
Theorem register_operations_footprint
    (d : driver) (reg v : Z) (W : Type) (h : Arduino.handler W) (w : W) :
  has_bus d ->
  Forall (register_call d) (trace (Arduino.exec h (readRegister d reg) w))
  /\ Forall (register_call d)
            (trace (Arduino.exec h (writeRegister d reg v) w))
  /\ Forall (register_call d) (trace (Arduino.exec h (touched d) w))
  /\ Forall (register_call d) (trace (Arduino.exec h (LEDpolarity d v) w)).
Proof.
  intros Hbus.
  split; [apply (read_within d reg Hbus) |].
  split; [apply (write_within d reg v Hbus) |].
  split.
  - rewrite touched_touch. apply (touch_within d Hbus).
  - replace (LEDpolarity d v) with (writeRegister d CAP1188_LEDPOL v)
      by (destruct d; reflexivity).
    apply (write_within d CAP1188_LEDPOL v Hbus).
Qed.

Lemma register_operations_footprint_witness :
  let d := Bench.legacy_sw_spi in
  let hc := PinChip.handle (PinMonitor.mkWiring 10 13 11 12) in
  let c := Bench.pin_chip Bench.touched_regs in
  has_bus d
  /\ Forall (register_call d)
            (trace (Arduino.exec hc (readRegister d CAP1188_MAIN) c))
  /\ Forall (register_call d)
            (trace (Arduino.exec hc (writeRegister d CAP1188_MAIN 0) c))
  /\ Forall (register_call d) (trace (Arduino.exec hc (touched d) c))
  /\ Forall (register_call d) (trace (Arduino.exec hc (LEDpolarity d 0) c)).
Proof.
  intros d hc c.
  assert (Hbus : has_bus d) by exact I.
  split; [exact Hbus |].
  exact (@register_operations_footprint d CAP1188_MAIN 0 _ hc c Hbus).
Defined.

(** ** The reset pulse of [begin] *)

Section ResetPulseFacts.
Import Arduino.

Lemma trace_bind_ret {W A B} (h : handler W) (p : io platformE A)
    (g : A -> B) (w : W) :
  trace (exec h (x <- p;; Ret (g x)) w) = trace (exec h p w).
Proof.
  unfold exec. rewrite run_bind. unfold and_then.
  destruct (res (run h log p w)); cbn; [apply app_nil_r | reflexivity].
Qed.

Lemma setup_calls_silent (d : driver) (t : list event)
    (s : mstate (monitor_of d)) :
  forallb is_setup_call t = true ->
  snd (watch (monitor_of d) s t) = [].
Proof.
  revert s. induction t as [| e t IH]; intros s; [reflexivity |].
  cbn [forallb]. intros H. apply andb_true_iff in H. destruct H as [He Ht].
  cbn [watch snd]. rewrite IH by exact Ht. rewrite app_nil_r.
  destruct d as [self | self]; cbn [monitor_of] in *.
  - destruct (Legacy._i2c self); destruct e; try discriminate He;
      try reflexivity.
    cbn. destruct (pin =? Legacy._cs self); [reflexivity |].
    destruct (pin =? Legacy._clk self); [reflexivity |].
    destruct (pin =? Legacy._mosi self); reflexivity.
  - destruct e; try discriminate He; reflexivity.
Qed.

Lemma none_of {P : event -> Prop} (f : event -> bool) (t : list event) :
  (forall e, P e -> f e = false) -> Forall P t -> filter f t = [].
Proof.
  intros HP Ht. induction Ht as [| e t He _ IH]; [reflexivity |].
  cbn. rewrite (HP e He). exact IH.
Qed.

Lemma register_call_no_reset (d : driver) (e : event) :
  reset_apart d ->
  register_call d e \/ is_print e ->
  is_reset_call (resetpin_of d) e = false.
Proof.
  intros Hapart [Hc | Hp].
  - destruct d as [self | self]; cbn [register_call resetpin_of] in *.
    + destruct (Legacy._i2c self) eqn:Hi2c.
      * destruct e; cbn in Hc; try contradiction; reflexivity.
      * destruct Hapart as [Habs | [Hcs Hclk]]; [congruence |].
        destruct e; cbn in Hc; try contradiction; try reflexivity.
        cbn. apply Z.eqb_neq.
        destruct Hc as [-> | [Hn [-> | ->]]]; [congruence | |];
          destruct Hclk as [? | [? ?]]; congruence.
    + destruct e; cbn in Hc; try contradiction; reflexivity.
  - destruct e; cbn in Hp; try contradiction; reflexivity.
Qed.

Lemma identify_within (d : driver) :
  has_bus d ->
  within (fun e => register_call d e \/ is_print e)
         (identify (readRegister d) (writeRegister d)).
Proof.
  intros Hbus.
  assert (Hrd : forall reg,
    within (fun e => register_call d e \/ is_print e) (readRegister d reg)).
  { intros reg. apply within_weaken with (Q := register_call d); [auto |].
    apply read_within, Hbus. }
  assert (Hwr : forall reg v,
    within (fun e => register_call d e \/ is_print e)
           (writeRegister d reg v)).
  { intros reg v. apply within_weaken with (Q := register_call d); [auto |].
    apply write_within, Hbus. }
  unfold identify, Serial_print, Serial_println_HEX.
  repeat first [ apply Hrd | apply Hwr
               | apply within_ret
               | apply within_call; intros; cbn; solve [auto]
               | apply within_bind; [| intros]
               | match goal with
                 | |- within _ (if ?c then _ else _) => destruct c
                 end ].
Qed.

Lemma reset_pulse_trace {W} (h : handler W) (pin : Z) (w : W) :
  res (exec h (reset_pulse pin) w) = Done tt
  /\ trace (exec h (reset_pulse pin) w)
     = if pin =? -1 then [] else pulse pin.
Proof.
  unfold reset_pulse. destruct (pin =? -1); cbn; split; try reflexivity.
  repeat match goal with
         | |- context [fst ?x] =>
             let u := fresh in
             remember (fst x) as u; destruct u
         end.
  reflexivity.
Qed.

(** [begin] from the reset pulse on, as calls. *)
Lemma opened_trace {W} (h : handler W) (d : driver) (w : W) :
  has_bus d -> reset_apart d ->
  let pin := resetpin_of d in
  let r := exec h (reset_pulse pin;;
                   identify (readRegister d) (writeRegister d)) w in
  exists t2,
    trace r = (if pin =? -1 then [] else pulse pin) ++ t2
    /\ reset_calls pin t2 = [].
Proof.
  intros Hbus Hapart pin r.
  destruct (reset_pulse_trace h pin w) as [Hres Htr].
  subst r. rewrite (exec_bind h _ _ w Hres). cbn [trace].
  rewrite Htr. eexists. split; [reflexivity |].
  destruct (identify_within d Hbus h (world (exec h (reset_pulse pin) w)))
    as [_ Hall].
  eapply none_of; [| exact Hall].
  intros e He. apply register_call_no_reset; assumption.
Qed.
End ResetPulseFacts.

(** X7: the reset pulse of [begin].  When the bus opens, the calls of
    [begin] are: calls that open the bus; then, when the reset pin is not
    -1, the pin made an output and driven LOW, HIGH, LOW with [delay(100)]
    after each level, seven calls in a row; then the rest.  Neither part
    around the pulse sets the mode of the reset pin, drives it or waits,
    and no register has been accessed before the pulse ends.  With reset
    pin -1 there is no pulse, and [begin] never waits.  On both
    implementations and every transport, for a reset pin that is none of
    the pins the legacy driver drives for SPI ([reset_apart]). *)
Theorem begin_reset_pulse
    (W : Type) (h : Arduino.handler W) (d : driver)
    (i2caddr : Z) (theWire : Arduino.ptr) (w : W) :
  reset_apart d ->
  let r := Arduino.exec h (begin d i2caddr theWire) w in
  let pin := resetpin_of d in
  let p := if pin =? -1 then [] else pulse pin in
  opened (trace r) = true ->
  exists t1 t2,
    trace r = t1 ++ p ++ t2
    /\ reset_calls pin t1 = [] /\ reset_calls pin t2 = []
    /\ accesses (monitor_of d) (t1 ++ p) = [].
Proof.
  intros Hapart r pin p Hopen.
  assert (Hsilent : forall t1, forallb is_setup_call t1 = true ->
            accesses (monitor_of d) (t1 ++ p) = []).
  { intros t1 Ht1. apply setup_calls_silent. rewrite forallb_app, Ht1.
    subst p. destruct (pin =? -1); reflexivity. }
  destruct d as [self | self]; cbn [begin] in r; subst r;
    rewrite trace_bind_ret in *.
  - (* Wire, SPIClass and pins *)
    cbn [resetpin_of] in pin.
    assert (Hrest : forall (self' : Legacy.Adafruit_CAP1188) (w' : W),
      Legacy._resetpin self' = Legacy._resetpin self ->
      reset_apart (LegacyDriver self') ->
      exists t2,
        trace (Arduino.exec h (b <- Legacy.begin_opened self';;
                               Ret (b, self')) w') = p ++ t2
        /\ reset_calls pin t2 = []).
    { intros self' w' Hpin Hapart'.
      rewrite trace_bind_ret, Legacy_begin_opened_eq.
      destruct (@opened_trace _ h (LegacyDriver self') w' I Hapart')
        as (t2 & Ht & Hnone).
      cbn [resetpin_of] in Ht, Hnone. rewrite Hpin in Ht, Hnone |- *.
      exists t2. split; [exact Ht | exact Hnone]. }
    unfold Legacy.begin. cbn [reset_apart] in Hapart.
    destruct (Legacy._i2c self) eqn:Hi2c.
    + match goal with
      | |- context [Legacy.begin_opened ?s] =>
          assert (Ha : reset_apart (LegacyDriver s)) by (left; reflexivity);
          destruct (Hrest s
                      (snd (h _ (Arduino.WireBegin theWire) w)) eq_refl Ha)
            as (t2 & Ht & Hnone)
      end.
      exists [Arduino.EvWireBegin theWire], t2.
      split; [| split; [reflexivity | split; [exact Hnone |]]].
      * unfold Arduino.exec in *. cbn [run bind call trace Legacy._wire].
        cbn [fst snd Arduino.log app]. f_equal. exact Ht.
      * apply Hsilent. reflexivity.
    + destruct Hapart as [Habs | [Hcs Hclk]]; [discriminate Habs |].
      destruct (Legacy._clk self =? -1) eqn:Hhw.
      * match goal with
        | |- context [Arduino.exec h ?prog w] =>
            match prog with
            | context [bind (Legacy.begin_opened self) ?k] =>
                set (rest := bind (Legacy.begin_opened self) k) in *
            end
        end.
        unfold Arduino.exec, Arduino.pinMode, Arduino.digitalWrite.
        cbn [run bind call trace fst snd Arduino.log].
        assert (Ha : reset_apart (LegacyDriver self)).
        { right. split; [exact Hcs | left; apply Z.eqb_eq, Hhw]. }
        match goal with
        | |- context [run h Arduino.log rest ?w'] =>
            destruct (Hrest self w' eq_refl Ha) as (t2 & Ht & Hnone)
        end.
        exists [Arduino.EvPinMode (Legacy._cs self) Arduino.OUTPUT;
                Arduino.EvDigitalWrite (Legacy._cs self) Arduino.HIGH;
                Arduino.EvSpiBegin (Legacy._spi self)], t2.
        split; [| split; [| split; [exact Hnone |]]].
        -- unfold Arduino.exec in Ht. subst rest. rewrite Ht. reflexivity.
        -- unfold reset_calls. cbn.
           assert (E : (Legacy._cs self =? pin) = false)
             by (apply Z.eqb_neq; subst pin; congruence).
           rewrite E. reflexivity.
        -- apply Hsilent. reflexivity.
      * apply Z.eqb_neq in Hhw.
        destruct Hclk as [Habs | [Hclk Hmosi]]; [contradiction |].
        match goal with
        | |- context [Arduino.exec h ?prog w] =>
            match prog with
            | context [bind (Legacy.begin_opened self) ?k] =>
                set (rest := bind (Legacy.begin_opened self) k) in *
            end
        end.
        unfold Arduino.exec, Arduino.pinMode, Arduino.digitalWrite.
        cbn [run bind call trace fst snd Arduino.log].
        assert (Ha : reset_apart (LegacyDriver self)).
        { right. split; [exact Hcs | right; split; assumption]. }
        match goal with
        | |- context [run h Arduino.log rest ?w'] =>
            destruct (Hrest self w' eq_refl Ha) as (t2 & Ht & Hnone)
        end.
        exists [Arduino.EvPinMode (Legacy._clk self) Arduino.OUTPUT;
                Arduino.EvPinMode (Legacy._mosi self) Arduino.OUTPUT;
                Arduino.EvPinMode (Legacy._cs self) Arduino.OUTPUT;
                Arduino.EvDigitalWrite (Legacy._cs self) Arduino.HIGH;
                Arduino.EvDigitalWrite (Legacy._clk self) Arduino.HIGH], t2.
        split; [| split; [| split; [exact Hnone |]]].
        -- unfold Arduino.exec in Ht. subst rest. rewrite Ht. reflexivity.
        -- unfold reset_calls. cbn.
           assert (E1 : (Legacy._cs self =? pin) = false)
             by (apply Z.eqb_neq; subst pin; congruence).
           assert (E2 : (Legacy._clk self =? pin) = false)
             by (apply Z.eqb_neq; subst pin; congruence).
           assert (E3 : (Legacy._mosi self =? pin) = false)
             by (apply Z.eqb_neq; subst pin; congruence).
           rewrite E1, E2, E3. reflexivity.
        -- apply Hsilent. reflexivity.
  - (* BusIO *)
    cbn [resetpin_of] in pin.
    assert (Hrest : forall (self' : BusIO.Adafruit_CAP1188) (w' : W),
      BusIO._resetpin self' = BusIO._resetpin self ->
      has_bus (BusIODriver self') ->
      exists t2,
        trace (Arduino.exec h (b <- BusIO.begin_opened self';;
                               Ret (b, self')) w') = p ++ t2
        /\ reset_calls pin t2 = []).
    { intros self' w' Hpin Hbus.
      rewrite trace_bind_ret, BusIO_begin_opened_eq.
      destruct (@opened_trace _ h (BusIODriver self') w' Hbus I)
        as (t2 & Ht & Hnone).
      cbn [resetpin_of] in Ht, Hnone. rewrite Hpin in Ht, Hnone |- *.
      exists t2. split; [exact Ht | exact Hnone]. }
    revert Hopen. unfold BusIO.begin.
    destruct (BusIO.spi_dev self) as [spi |] eqn:Hspi.
    + unfold Arduino.exec. cbn [run bind call trace fst snd Arduino.log].
      cbn [opened].
      destruct (fst (h bool (Arduino.SpiDevBegin spi) w)) eqn:Hok;
        [| discriminate].
      intros _. cbn [negb].
      assert (Ha : has_bus (BusIODriver self)) by (right; congruence).
      match goal with
      | |- context [run h Arduino.log _ ?w'] =>
          destruct (Hrest self w' eq_refl Ha) as (t2 & Ht & Hnone)
      end.
      exists [Arduino.EvSpiDevBegin spi true], t2.
      split; [| split; [reflexivity | split; [exact Hnone |]]].
      * unfold Arduino.exec in Ht. rewrite Ht. reflexivity.
      * apply Hsilent. reflexivity.
    + unfold Arduino.exec. cbn [run bind call trace fst snd Arduino.log].
      cbn [opened].
      destruct (fst (h bool (Arduino.I2cDevBegin
                               (Arduino.mkI2CDevice i2caddr theWire)) w))
        eqn:Hok; [| discriminate].
      intros _. cbn [negb].
      match goal with
      | |- context [run h Arduino.log (bind (BusIO.begin_opened ?s) _) ?w'] =>
          assert (Ha : has_bus (BusIODriver s)) by (left; discriminate);
          destruct (Hrest s w' eq_refl Ha) as (t2 & Ht & Hnone)
      end.
      exists [Arduino.EvI2cDevBegin (Arduino.mkI2CDevice i2caddr theWire)
                                    true], t2.
      split; [| split; [reflexivity | split; [exact Hnone |]]].
      * unfold Arduino.exec in Ht. rewrite Ht. reflexivity.
      * apply Hsilent. reflexivity.
Qed.

Lemma begin_reset_pulse_witness :
  let d := Bench.legacy_sw_spi in
  let hc := PinChip.handle (PinMonitor.mkWiring 10 13 11 12) in
  let r := Arduino.exec hc (begin d CAP1188_I2CADDR 0)
                        (Bench.pin_chip power_up) in
  (reset_apart d /\ opened (trace r) = true)
  /\ exists t1 t2,
       trace r = t1 ++ pulse 9 ++ t2
       /\ reset_calls 9 t1 = [] /\ reset_calls 9 t2 = []
       /\ accesses (monitor_of d) (t1 ++ pulse 9) = [].
Proof.
  intros d hc r.
  assert (Hapart : reset_apart d).
  { right. cbn. split; [discriminate |]. right. split; discriminate. }
  assert (Hopen : opened (trace r) = true) by reflexivity.
  split; [auto |].
  exact (@begin_reset_pulse _ hc d CAP1188_I2CADDR 0
           (Bench.pin_chip power_up) Hapart Hopen).
Defined.

(** ** The bus [begin] binds *)

(** What [begin] returned, by implementation. *)
Lemma begin_done {W} (h : Arduino.handler W) (d d' : driver) (i2caddr : Z)
    (theWire : Arduino.ptr) (w : W) (b : bool) :
  res (Arduino.exec h (begin d i2caddr theWire) w) = Done (b, d') ->
  match d with
  | LegacyDriver self =>
      d' = LegacyDriver (Legacy_begun self i2caddr theWire)
  | BusIODriver self =>
      exists self',
        d' = BusIODriver self'
        /\ BusIO.spi_dev self' = BusIO.spi_dev self
        /\ BusIO._resetpin self' = BusIO._resetpin self
        /\ (BusIO.spi_dev self = None ->
            BusIO.i2c_dev self'
            = Some (Arduino.mkI2CDevice i2caddr theWire))
        /\ (BusIO.spi_dev self <> None ->
            BusIO.i2c_dev self' = BusIO.i2c_dev self)
  end.
Proof.
  intros Hres. destruct d as [self | self]; cbn [begin] in Hres;
    apply bind_done in Hres; destruct Hres as ([b0 self0] & Hres & Hret);
    cbn in Hret; injection Hret as <- <-.
  - f_equal. eapply Legacy_begin_object. exact Hres.
  - destruct (BusIO_begin_cases h self i2caddr theWire w)
      as (b1 & self1 & Hres1 & Hspi & Hpin & Hnew & Hkeep & _).
    cbv zeta in Hres1. rewrite Hres in Hres1.
    injection Hres1 as <- <-. exists self0. auto.
Qed.

(** X8: the bus [begin] binds.  On an I2C instance, whatever [begin]
    returned, the object it leaves reads registers from the address and on
    the bus that were given to [begin]: on the legacy implementation with
    [beginTransmission(i2caddr)] and [requestFrom(i2caddr, 1)] on
    [theWire], on the BusIO implementation through the device made of
    [i2caddr] and [theWire].  On an SPI instance [begin] ignores both and
    leaves the object as it was. *)
Theorem begin_binds_the_bus
    (W : Type) (h : Arduino.handler W) (d d' : driver) (i2caddr : Z)
    (theWire : Arduino.ptr) (w : W) (b : bool) :
  res (Arduino.exec h (begin d i2caddr theWire) w) = Done (b, d') ->
  match discriminator d with
  | OnSPI => d' = d
  | OnI2C =>
      forall (W' : Type) (h' : Arduino.handler W') (w' : W') (reg : Z),
        let t := trace (Arduino.exec h' (readRegister d' reg) w') in
        match d with
        | LegacyDriver _ =>
            exists a,
              t = [Arduino.EvWireBeginTransmission theWire i2caddr;
                   Arduino.EvWireWrite theWire reg;
                   Arduino.EvWireEndTransmission theWire;
                   Arduino.EvWireRequestFrom theWire i2caddr 1;
                   Arduino.EvWireRead theWire a]
        | BusIODriver _ =>
            exists ok data,
              t = [Arduino.EvI2cDevWriteThenRead
                     (Arduino.mkI2CDevice i2caddr theWire) [reg] 1 ok data]
        end
  end.
Proof.
  intros Hres. apply begin_done in Hres.
  destruct d as [self | self]; cbn [discriminator].
  - subst d'. unfold Legacy_begun.
    destruct (Legacy._i2c self) eqn:Hi2c; cbv iota; [| reflexivity].
    intros W' h' w' reg.
    cbn [readRegister]. unfold Legacy.readRegister, Legacy.i2cwrite.
    cbn [Legacy._i2c Legacy._wire Legacy._i2caddr].
    eexists. cbn. reflexivity.
  - destruct Hres as (self' & -> & Hspi & Hpin & Hnew & Hkeep).
    destruct (BusIO.spi_dev self) as [spi |] eqn:E; cbv iota.
    + f_equal. destruct self as [i s p], self' as [i' s' p']. cbn in *.
      rewrite Hkeep by discriminate. congruence.
    + intros W' h' w' reg.
      cbn [readRegister]. unfold BusIO.readRegister.
      rewrite (Hnew eq_refl). do 2 eexists. cbn. reflexivity.
Qed.

Lemma begin_binds_the_bus_witness :
  let hc := BusIOChip.handle in
  let c := Bench.busio_chip power_up in
  res (Arduino.exec hc (begin Bench.busio_i2c 0x28 7) c)
  = Done (true, BusIODriver (BusIO.mkDriver
                               (Some (Arduino.mkI2CDevice 0x28 7)) None
                               (-1)))
  /\ exists ok data,
       trace (Arduino.exec hc
                (readRegister
                   (BusIODriver (BusIO.mkDriver
                                   (Some (Arduino.mkI2CDevice 0x28 7)) None
                                   (-1))) CAP1188_MAIN) c)
       = [Arduino.EvI2cDevWriteThenRead (Arduino.mkI2CDevice 0x28 7)
            [CAP1188_MAIN] 1 ok data].
Proof.
  intros hc c.
  assert (Hres : res (Arduino.exec hc (begin Bench.busio_i2c 0x28 7) c)
                 = Done (true, BusIODriver
                                 (BusIO.mkDriver
                                    (Some (Arduino.mkI2CDevice 0x28 7)) None
                                    (-1))))
    by (vm_compute; reflexivity).
  split; [exact Hres |].
  exact (@begin_binds_the_bus _ hc Bench.busio_i2c _ 0x28 7 c true Hres
           _ hc c CAP1188_MAIN).
Defined.

(** ** The pin modes [begin] sets and what its result tells *)

Section BeginPinModes.
Import Arduino.

(** Neither a call of a register operation nor a print sets a pin mode. *)
Lemma register_call_no_mode (d d' : driver) (e : event) :
  register_call d' e \/ is_print e -> begin_pin_mode d e.
Proof.
  intros [Hc | Hp].
  - destruct e; try exact I.
    destruct d' as [self | self]; cbn in Hc; [| contradiction].
    destruct (Legacy._i2c self); contradiction.
  - destruct e; try exact I. contradiction.
Qed.

(** After the bus opened, only the reset pulse sets a pin mode. *)
Lemma opened_pin_modes (d d' : driver) :
  has_bus d' -> resetpin_of d' = resetpin_of d ->
  within (begin_pin_mode d)
         (reset_pulse (resetpin_of d');;
          identify (readRegister d') (writeRegister d')).
Proof.
  intros Hbus Hpin.
  apply within_bind.
  - unfold reset_pulse, pinMode, digitalWrite, delay. rewrite Hpin.
    destruct (negb (resetpin_of d =? -1)); [| apply within_ret].
    repeat first
      [ apply within_call; intros; cbn; solve [auto]
      | apply within_bind; [| intros] ].
  - intros _. eapply within_weaken; [| apply identify_within, Hbus].
    intros e He. eapply register_call_no_mode. exact He.
Qed.
End BeginPinModes.

(** X18: the only pin modes [begin] sets are outputs, on the reset pin
    and, on the legacy implementation over SPI, on the chip-select pin and,
    when bit-banged, on the clock and MOSI pins: whatever the environment
    answers, no pin is made an input, and the MISO pin is given no mode
    unless it is one of those pins. *)
Theorem begin_pin_modes
    (W : Type) (h : Arduino.handler W) (d : driver) (i2caddr : Z)
    (theWire : Arduino.ptr) (w : W) :
  Forall (begin_pin_mode d)
         (trace (Arduino.exec h (begin d i2caddr theWire) w)).
Proof.
  assert (Hall : within (begin_pin_mode d) (begin d i2caddr theWire)).
  { destruct d as [self | self]; cbn [begin];
      (apply within_bind; [| intros; apply within_ret]).
    - assert (Hrest : forall self' : Legacy.Adafruit_CAP1188,
        Legacy._resetpin self' = Legacy._resetpin self ->
        within (begin_pin_mode (LegacyDriver self))
               (b <- Legacy.begin_opened self';; Ret (b, self'))).
      { intros self' Hpin. rewrite Legacy_begin_opened_eq.
        apply within_bind; [| intros; apply within_ret].
        apply (@opened_pin_modes (LegacyDriver self) (LegacyDriver self') I
                 Hpin). }
      unfold Legacy.begin.
      destruct (Legacy._i2c self) eqn:Hi2c.
      + apply within_bind; [apply within_call; intros; exact I | intros].
        apply Hrest. reflexivity.
      + destruct (Legacy._clk self =? -1) eqn:Hhw;
          [| apply Z.eqb_neq in Hhw];
          unfold Arduino.pinMode, Arduino.digitalWrite;
          repeat (apply within_bind;
                  [apply within_call; intros; cbn; rewrite ?Hi2c;
                   solve [auto 10] | intros]);
          apply Hrest; reflexivity.
    - assert (Hrest : forall self' : BusIO.Adafruit_CAP1188,
        BusIO._resetpin self' = BusIO._resetpin self ->
        has_bus (BusIODriver self') ->
        within (begin_pin_mode (BusIODriver self))
               (b <- BusIO.begin_opened self';; Ret (b, self'))).
      { intros self' Hpin Hbus. rewrite BusIO_begin_opened_eq.
        apply within_bind; [| intros; apply within_ret].
        apply (@opened_pin_modes (BusIODriver self) (BusIODriver self') Hbus
                 Hpin). }
      unfold BusIO.begin.
      destruct (BusIO.spi_dev self) as [spi |] eqn:Hspi.
      + apply within_bind; [apply within_call; intros; exact I | intros ok].
        destruct ok; cbn [negb]; [| apply within_ret].
        apply Hrest; [reflexivity | right; congruence].
      + apply within_bind; [apply within_call; intros; exact I | intros ok].
        destruct ok; cbn [negb]; [| apply within_ret].
        apply Hrest; [reflexivity | left; discriminate]. }
  apply Hall.
Qed.

(** X19: what the result of [begin] tells.  When [begin] returns [true]
    the bus opened, the three identity registers read 0x50, 0x5D and 0x83
    and the three configuration registers were written; when it returns
    [false] it wrote no register at all. *)
Theorem begin_verdict
    (W : Type) (h : Arduino.handler W) (d d' : driver) (i2caddr : Z)
    (theWire : Arduino.ptr) (w : W) (b : bool) :
  installable d ->
  let r := Arduino.exec h (begin d i2caddr theWire) w in
  let l := accesses (monitor_of d) (trace r) in
  res r = Done (b, d') ->
  if b then
    opened (trace r) = true
    /\ check_reads l = [RegRead CAP1188_PRODID 0x50;
                        RegRead CAP1188_MANUID 0x5D;
                        RegRead CAP1188_REV 0x83]
    /\ writes l = config_writes
  else writes l = [].
Proof.
  intros Hinst r l Hres. subst l r.
  destruct (opened (trace (Arduino.exec h (begin d i2caddr theWire) w)))
    eqn:Hopen.
  - destruct (begin_seen h d i2caddr theWire w Hinst Hopen)
      as (b0 & d0 & a & rb & pb & rc & pc & rd & pd & checks & ws
          & Hres0 & Hl & _ & Hcase).
    rewrite Hres in Hres0. injection Hres0 as <- <-. rewrite Hl.
    destruct Hcase as [(-> & -> & Hchecks) | (-> & -> & ->)].
    + destruct Hchecks as [(p & _ & ->) | [(m & _ & ->) | (rv & _ & ->)]];
        reflexivity.
    + repeat split; reflexivity.
  - destruct (begin_cases h d i2caddr theWire w Hinst)
      as (b0 & d0 & Hres0 & Hrun).
    cbv zeta in Hres0, Hrun. rewrite Hres in Hres0.
    injection Hres0 as <- <-.
    unfold begin_run in Hrun. rewrite Hopen in Hrun.
    destruct Hrun as [Hl ->]. rewrite Hl. reflexivity.
Qed.

Lemma begin_verdict_witness :
  let d := Bench.legacy_sw_spi in
  let hc := PinChip.handle (PinMonitor.mkWiring 10 13 11 12) in
  let c := Bench.pin_chip power_up in
  let r := Arduino.exec hc (begin d CAP1188_I2CADDR 0) c in
  let l := accesses (monitor_of d) (trace r) in
  (installable d /\ res r = Done (true, d))
  /\ opened (trace r) = true
  /\ check_reads l = [RegRead CAP1188_PRODID 0x50;
                      RegRead CAP1188_MANUID 0x5D;
                      RegRead CAP1188_REV 0x83]
  /\ writes l = config_writes.
Proof.
  intros d hc c r l.
  assert (Hinst : installable d).
  { right. cbn. repeat split; try discriminate.
    right. repeat split; discriminate. }
  assert (Hres : res r = Done (true, d)) by (vm_compute; reflexivity).
  split; [auto |].
  exact (@begin_verdict _ hc d d CAP1188_I2CADDR 0 c true Hinst Hres).
Defined.

(** ** [begin] and [touched] against the simulated chips *)

Section Hoare.
Import Arduino.
Context {W : Type} (h : handler W).

Lemma hoare_ret {R} (P : W -> Prop) (r : R) (Q : R -> W -> Prop) :
  (forall w, P w -> Q r w) -> hoare h P (Ret r) Q.
Proof. intros H w Hw. exists r, w. split; [apply returns_ret | auto]. Qed.

Lemma hoare_call {X} (P : W -> Prop) (e : platformE X)
    (Q : X -> W -> Prop) :
  (forall w, P w -> Q (fst (h e w)) (snd (h e w))) -> hoare h P (call e) Q.
Proof.
  intros H w Hw. do 2 eexists. split; [apply returns_call | auto].
Qed.

Lemma hoare_bind {A B} (P : W -> Prop) (p : io platformE A)
    (Q1 : A -> W -> Prop) (f : A -> io platformE B) (Q2 : B -> W -> Prop) :
  hoare h P p Q1 -> (forall a, hoare h (Q1 a) (f a) Q2) ->
  hoare h P (bind p f) Q2.
Proof.
  intros Hp Hf w Hw.
  destruct (Hp w Hw) as (a & w1 & Ra & Ha).
  destruct (Hf a w1 Ha) as (b & w2 & Rb & Hb).
  exists b, w2. split; [| exact Hb].
  eapply returns_bind; eassumption.
Qed.

Lemma hoare_pure {R} (phi : Prop) (P : W -> Prop) (p : io platformE R)
    (Q : R -> W -> Prop) :
  (phi -> hoare h P p Q) -> hoare h (fun w => phi /\ P w) p Q.
Proof. intros H w [Hphi Hw]. exact (H Hphi w Hw). Qed.
End Hoare.

(** The driver logic against any chip that serves reads and stores
    writes. *)
Section OnChip.
Import Arduino.
Context {W : Type} (h : handler W).
Variable at_regs : regfile -> W -> Prop.
Variable rd : Z -> io platformE Z.
Variable wr : Z -> Z -> io platformE unit.

Hypothesis rd_serves : forall reg rf, is_u8 reg ->
  hoare h (at_regs rf) (rd reg) (fun v c => v = u8 (rf reg) /\ at_regs rf c).
Hypothesis wr_stores : forall reg v rf, is_u8 reg -> is_u8 v ->
  hoare h (at_regs rf) (wr reg v) (fun _ c => at_regs (store rf reg v) c).
Hypothesis print_keeps : forall s rf,
  hoare h (at_regs rf) (Serial_print s) (fun _ c => at_regs rf c).
Hypothesis println_keeps : forall v rf,
  hoare h (at_regs rf) (Serial_println_HEX v) (fun _ c => at_regs rf c).

Local Ltac u8_const := unfold is_u8; cbv; intuition congruence.

Local Tactic Notation "read_as" ident(v) :=
  eapply hoare_bind; [apply rd_serves; u8_const | cbn beta];
  intros v; apply hoare_pure; intros ->.

Local Ltac skip_print :=
  eapply hoare_bind;
  [first [apply print_keeps | apply println_keeps] | cbn beta; intros _].

Lemma identify_on_chip (rf : regfile) :
  hoare h (at_regs rf) (identify rd wr)
        (fun b c => b = genuine rf
                    /\ at_regs (if genuine rf then configured rf else rf) c).
Proof.
  unfold identify, genuine.
  read_as v0. skip_print. read_as v1. skip_print. skip_print.
  read_as v2. skip_print. skip_print. read_as v3. skip_print.
  read_as pid.
  destruct (u8 (rf CAP1188_PRODID) =? 0x50); cbn [negb andb];
    [| apply hoare_ret; auto].
  read_as manu.
  destruct (u8 (rf CAP1188_MANUID) =? 0x5D); cbn [negb andb];
    [| apply hoare_ret; auto].
  read_as rv.
  destruct (u8 (rf CAP1188_REV) =? 0x83); cbn [negb andb];
    [| apply hoare_ret; auto].
  eapply hoare_bind; [apply wr_stores; u8_const | cbn beta; intros _].
  eapply hoare_bind; [apply wr_stores; u8_const | cbn beta; intros _].
  eapply hoare_bind; [apply wr_stores; u8_const | cbn beta; intros _].
  apply hoare_ret. auto.
Qed.

Lemma touch_on_chip (rf : regfile) :
  hoare h (at_regs rf) (touch rd wr)
        (fun t c => t = u8 (rf CAP1188_SENINPUTSTATUS)
                    /\ at_regs (acknowledged rf) c).
Proof.
  unfold touch, acknowledged.
  read_as t.
  destruct (u8 (rf CAP1188_SENINPUTSTATUS) =? 0); cbn [negb].
  - eapply hoare_bind with (Q1 := fun _ c => at_regs rf c);
      [apply hoare_ret; intros w Hw; exact Hw |].
    cbn beta. intros _. apply hoare_ret. auto.
  - eapply hoare_bind.
    + read_as main.
      rewrite clear_int_flag by apply u8_is_u8.
      apply wr_stores; [u8_const |].
      rewrite <- clear_int_flag by apply u8_is_u8. apply u8_is_u8.
    + cbn beta. intros _. apply hoare_ret. auto.
Qed.
End OnChip.

Section SimulatedChips.
Import Arduino.

Lemma chip_reads (d : driver) (reg : Z) (rf : regfile) :
  operational d -> is_u8 reg ->
  hoare (answer (simulator_of d)) (holds (simulator_of d) rf)
        (readRegister d reg)
        (fun v c => v = u8 (rf reg) /\ holds (simulator_of d) rf c).
Proof.
  intros Hop Hreg c [Hidle Hrf].
  destruct (read_serves d c Hop Hreg Hidle) as (c' & Hr & Hidle' & Hrf').
  exists (u8 (contents (simulator_of d) c reg)), c'.
  split; [exact Hr |]. rewrite Hrf. split; [reflexivity |].
  split; [exact Hidle' | congruence].
Qed.

Lemma chip_writes (d : driver) (reg v : Z) (rf : regfile) :
  operational d -> is_u8 reg -> is_u8 v ->
  hoare (answer (simulator_of d)) (holds (simulator_of d) rf)
        (writeRegister d reg v)
        (fun _ c => holds (simulator_of d) (store rf reg v) c).
Proof.
  intros Hop Hreg Hv c [Hidle Hrf].
  destruct (write_stores d c Hop Hreg Hv Hidle) as (c' & Hr & Hidle' & Hrf').
  exists tt, c'. split; [exact Hr |].
  split; [exact Hidle' | congruence].
Qed.

(** Calls no chip takes notice of. *)
Lemma chip_ignores (d : driver) (c : chip (simulator_of d)) :
  (forall s, answer (simulator_of d) (SerialPrint s) c = (tt, c))
  /\ (forall v, answer (simulator_of d) (SerialPrintlnHex v) c = (tt, c))
  /\ (forall pin mode, answer (simulator_of d) (PinMode pin mode) c = (tt, c))
  /\ (forall ms, answer (simulator_of d) (Delay ms) c = (tt, c))
  /\ (forall wire, answer (simulator_of d) (WireBegin wire) c = (tt, c))
  /\ (forall spi, answer (simulator_of d) (SpiBegin spi) c = (tt, c)).
Proof.
  destruct d as [self | self]; cbn in *.
  - destruct (Legacy._i2c self); cbn in *; repeat split.
  - repeat split.
Qed.

Lemma chip_keeps (d : driver) (rf : regfile) (e : platformE unit) :
  (forall c, answer (simulator_of d) e c = (tt, c)) ->
  hoare (answer (simulator_of d)) (holds (simulator_of d) rf) (call e)
        (fun _ c => holds (simulator_of d) rf c).
Proof.
  intros He. apply hoare_call. intros c Hc. rewrite He. exact Hc.
Qed.

(** A pin that is not chip-select leaves an idle chip as it is, as far as
    its registers go. *)
Lemma chip_other_pin (d : driver) (rf : regfile) (pin v : Z) :
  match d with
  | LegacyDriver self => Legacy._i2c self = true \/ pin <> Legacy._cs self
  | BusIODriver _ => True
  end ->
  hoare (answer (simulator_of d)) (holds (simulator_of d) rf)
        (digitalWrite pin v)
        (fun _ c => holds (simulator_of d) rf c).
Proof.
  intros Hpin. apply hoare_call. unfold holds.
  destruct d as [self | self]; cbn in *.
  - destruct (Legacy._i2c self); cbn in *; [auto |].
    destruct Hpin as [? | Hpin]; [discriminate |].
    intros c [Hsel Hrf]. apply Z.eqb_neq in Hpin. rewrite Hpin.
    destruct (pin =? Legacy._clk self).
    + unfold PinChip.on_clk. rewrite Hsel. cbn. auto.
    + destruct (pin =? Legacy._mosi self); cbn; auto.
  - auto.
Qed.

Lemma reset_pulse_on_chip (d : driver) (rf : regfile) :
  installable d ->
  hoare (answer (simulator_of d)) (holds (simulator_of d) rf)
        (reset_pulse (resetpin_of d))
        (fun _ c => holds (simulator_of d) rf c).
Proof.
  intros Hinst.
  assert (Hpin : match d with
                 | LegacyDriver self =>
                     Legacy._i2c self = true
                     \/ resetpin_of d <> Legacy._cs self
                 | BusIODriver _ => True
                 end).
  { destruct d as [self | self]; [| exact I].
    destruct Hinst as [? | [_ ?]]; auto. }
  unfold reset_pulse. destruct (negb (resetpin_of d =? -1)).
  - unfold pinMode, delay.
    repeat first
      [ apply chip_other_pin; exact Hpin
      | apply chip_keeps; intros c; apply (chip_ignores d c)
      | eapply hoare_bind; [| cbn beta; intros ?] ].
  - apply hoare_ret. auto.
Qed.

Lemma opened_on_chip (d : driver) (rf : regfile) :
  installable d -> operational d ->
  hoare (answer (simulator_of d)) (holds (simulator_of d) rf)
        (reset_pulse (resetpin_of d);;
         identify (readRegister d) (writeRegister d))
        (fun b c => b = genuine rf
                    /\ holds (simulator_of d)
                             (if genuine rf then configured rf else rf) c).
Proof.
  intros Hinst Hop.
  eapply hoare_bind; [apply reset_pulse_on_chip, Hinst | cbn beta; intros _].
  apply identify_on_chip.
  - intros. apply chip_reads; assumption.
  - intros. apply chip_writes; assumption.
  - intros. apply chip_keeps. intros c. apply (chip_ignores d c).
  - intros. apply chip_keeps. intros c. apply (chip_ignores d c).
Qed.

Lemma touched_on_chip (d : driver) (rf : regfile) :
  operational d ->
  hoare (answer (simulator_of d)) (holds (simulator_of d) rf) (touched d)
        (fun t c => t = u8 (rf CAP1188_SENINPUTSTATUS)
                    /\ holds (simulator_of d) (acknowledged rf) c).
Proof.
  intros Hop. rewrite touched_touch.
  apply touch_on_chip.
  - intros. apply chip_reads; assumption.
  - intros. apply chip_writes; assumption.
Qed.
End SimulatedChips.

Section BeginOnChip.
Import Arduino.
Variables (i2caddr : Z) (theWire : ptr) (rf : regfile).

Let after : regfile := if genuine rf then configured rf else rf.

Lemma chip_cs_high (self : Legacy.Adafruit_CAP1188) :
  Legacy._i2c self = false ->
  hoare (answer (simulator_of (LegacyDriver self)))
        (holds (simulator_of (LegacyDriver self)) rf)
        (digitalWrite (Legacy._cs self) HIGH)
        (fun _ c => holds (simulator_of (LegacyDriver self)) rf c).
Proof.
  intros Hi2c. apply hoare_call. unfold holds. cbn. rewrite Hi2c. cbn.
  intros c [Hsel Hrf]. rewrite Z.eqb_refl. cbn. auto.
Qed.

Lemma Legacy_begin_on_chip (self : Legacy.Adafruit_CAP1188) :
  installable (LegacyDriver self) ->
  hoare (answer (simulator_of (LegacyDriver self)))
        (holds (simulator_of (LegacyDriver self)) rf)
        (Legacy.begin self i2caddr theWire)
        (fun r c => fst r = genuine rf
                    /\ holds (simulator_of (LegacyDriver self)) after c).
Proof.
  intros Hinst.
  set (d := LegacyDriver self) in *.
  assert (Hrest : forall self' : Legacy.Adafruit_CAP1188,
    simulator_of (LegacyDriver self') = simulator_of d ->
    installable (LegacyDriver self') -> operational (LegacyDriver self') ->
    hoare (answer (simulator_of (LegacyDriver self')))
          (holds (simulator_of (LegacyDriver self')) rf)
          (b <- Legacy.begin_opened self';; Ret (b, self'))
          (fun r c => fst r = genuine rf
                      /\ holds (simulator_of (LegacyDriver self')) after c)).
  { intros self' _ Hinst' Hop'. rewrite Legacy_begin_opened_eq.
    eapply hoare_bind;
      [apply (opened_on_chip (LegacyDriver self') Hinst' Hop') |].
    cbn beta. intros b. apply hoare_ret. auto. }
  unfold Legacy.begin.
  destruct (Legacy._i2c self) eqn:Hi2c.
  - eapply hoare_bind.
    { apply chip_keeps with (d := d). intros c. apply (chip_ignores d c). }
    cbn beta. intros _.
    match goal with
    | |- context [Legacy.begin_opened ?s] =>
        assert (Hsim : simulator_of (LegacyDriver s) = simulator_of d)
          by (subst d; cbn; rewrite Hi2c; reflexivity);
        pose proof (Hrest s Hsim (or_introl eq_refl) (or_introl eq_refl))
          as Hs
    end.
    revert Hs. cbn [simulator_of]. subst d. cbn [simulator_of].
    rewrite Hi2c. cbn [Legacy._i2c]. intros Hs. exact Hs.
  - assert (Hop : operational d)
      by (apply installable_operational_legacy, Hinst).
    destruct Hinst as [Habs | [Hpins Hrst]]; [congruence |].
    assert (Hinst : installable d) by (right; auto).
    destruct (Legacy._clk self =? -1) eqn:Hhw.
    + unfold pinMode.
      eapply hoare_bind.
      { apply chip_keeps with (d := d). intros c. apply (chip_ignores d c). }
      cbn beta. intros _.
      eapply hoare_bind; [apply chip_cs_high, Hi2c | cbn beta; intros _].
      eapply hoare_bind.
      { apply chip_keeps with (d := d). intros c. apply (chip_ignores d c). }
      cbn beta. intros _.
      apply (Hrest self eq_refl Hinst Hop).
    + apply Z.eqb_neq in Hhw.
      destruct Hpins as [? | (Hcc & _ & _)]; [contradiction |].
      unfold pinMode.
      do 3 (eapply hoare_bind;
            [apply chip_keeps with (d := d); intros c; apply (chip_ignores d c)
            | cbn beta; intros _]).
      eapply hoare_bind; [apply chip_cs_high, Hi2c | cbn beta; intros _].
      eapply hoare_bind.
      { apply (chip_other_pin d). right. congruence. }
      cbn beta. intros _.
      apply (Hrest self eq_refl Hinst Hop).
Qed.

Lemma BusIO_begin_on_chip (self : BusIO.Adafruit_CAP1188) :
  hoare BusIOChip.handle (holds busio_sim rf)
        (BusIO.begin self i2caddr theWire)
        (fun r c => fst r = genuine rf /\ holds busio_sim after c).
Proof.
  assert (Hrest : forall self' : BusIO.Adafruit_CAP1188,
    operational (BusIODriver self') ->
    hoare BusIOChip.handle (holds busio_sim rf)
          (b <- BusIO.begin_opened self';; Ret (b, self'))
          (fun r c => fst r = genuine rf /\ holds busio_sim after c)).
  { intros self' Hop'. rewrite BusIO_begin_opened_eq.
    eapply hoare_bind;
      [apply (opened_on_chip (BusIODriver self') I Hop') |].
    cbn beta. intros b. apply hoare_ret. auto. }
  unfold BusIO.begin.
  destruct (BusIO.spi_dev self) as [spi |] eqn:Hspi.
  - eapply hoare_bind
      with (Q1 := fun ok c => ok = true /\ holds busio_sim rf c).
    { apply hoare_call. intros c Hc. cbn. auto. }
    cbn beta. intros ok. apply hoare_pure. intros ->. cbn [negb].
    apply Hrest. right. congruence.
  - eapply hoare_bind
      with (Q1 := fun ok c => ok = true /\ holds busio_sim rf c).
    { apply hoare_call. intros c Hc. cbn. auto. }
    cbn beta. intros ok. apply hoare_pure. intros ->. cbn [negb].
    apply Hrest. left. discriminate.
Qed.

Lemma begin_on_chip (d : driver) :
  installable d ->
  hoare (answer (simulator_of d)) (holds (simulator_of d) rf)
        (begin d i2caddr theWire)
        (fun r c => fst r = genuine rf /\ holds (simulator_of d) after c).
Proof.
  intros Hinst. destruct d as [self | self]; cbn [begin].
  - eapply hoare_bind; [apply Legacy_begin_on_chip, Hinst |].
    cbn beta. intros r. apply hoare_ret. auto.
  - eapply hoare_bind; [apply BusIO_begin_on_chip |].
    cbn beta. intros r. apply hoare_ret. auto.
Qed.
End BeginOnChip.

(** X9: [begin] against the simulated chip of its transport.  It
    returns true exactly when the registers 0xFD, 0xFE and 0xFF hold 0x50,
    0x5D and 0x83.  Then the chip is left with MTBLK (0x2A) = 0, LEDLINK
    (0x72) = 0xFF and STANDBYCFG (0x41) = 0x30 and every other register as
    it was; otherwise every register is as it was.  The chip is idle again
    in both cases.  On both implementations, over I2C, hardware SPI and
    bit-banged SPI, with the pins of a legacy SPI instance told apart
    ([installable]). *)
Theorem begin_on_simulated_chip
    (d : driver) (i2caddr : Z) (theWire : Arduino.ptr)
    (c : chip (simulator_of d)) :
  installable d -> idle (simulator_of d) c ->
  let rf := contents (simulator_of d) c in
  let r := Arduino.exec (answer (simulator_of d))
                        (begin d i2caddr theWire) c in
  (exists d', res r = Done (genuine rf, d'))
  /\ idle (simulator_of d) (world r)
  /\ contents (simulator_of d) (world r)
     = if genuine rf then configured rf else rf.
Proof.
  intros Hinst Hidle rf r.
  destruct (@begin_on_chip i2caddr theWire rf d Hinst c (conj Hidle eq_refl))
    as ([b d'] & c' & [Hres Hworld] & Hb & Hidle' & Hrf').
  cbn [fst] in Hb. subst b. subst r. rewrite Hworld.
  split; [eauto | split; assumption].
Qed.

Lemma begin_on_simulated_chip_witness :
  let d := Bench.legacy_sw_spi in
  let c : chip (simulator_of d) := Bench.pin_chip power_up in
  let r := Arduino.exec (answer (simulator_of d))
                        (begin d CAP1188_I2CADDR 0) c in
  (installable d /\ idle (simulator_of d) c)
  /\ (exists d', res r = Done (true, d'))
  /\ idle (simulator_of d) (world r)
  /\ contents (simulator_of d) (world r) = configured power_up.
Proof.
  intros d c r.
  assert (Hinst : installable d).
  { right. cbn. repeat split; try discriminate.
    right. repeat split; discriminate. }
  assert (Hidle : idle (simulator_of d) c) by reflexivity.
  split; [auto |].
  exact (@begin_on_simulated_chip d CAP1188_I2CADDR 0 c Hinst Hidle).
Defined.

(** X10: [touched] against the simulated chip of its transport returns
    the content of the status register (0x03).  When that is zero no
    register changes; otherwise MAIN (0x00) loses its bit 0 and keeps its
    other bits, and every other register is as it was.  The chip is idle
    again.  On both implementations, over I2C, hardware SPI and bit-banged
    SPI, for an [operational] driver. *)
Theorem touched_on_simulated_chip
    (d : driver) (c : chip (simulator_of d)) :
  operational d -> idle (simulator_of d) c ->
  let rf := contents (simulator_of d) c in
  let r := Arduino.exec (answer (simulator_of d)) (touched d) c in
  res r = Done (u8 (rf CAP1188_SENINPUTSTATUS))
  /\ idle (simulator_of d) (world r)
  /\ contents (simulator_of d) (world r) = acknowledged rf.
Proof.
  intros Hop Hidle rf r.
  destruct (@touched_on_chip d rf Hop c (conj Hidle eq_refl))
    as (t & c' & [Hres Hworld] & Ht & Hidle' & Hrf').
  subst t. subst r. rewrite Hworld. auto.
Qed.

Lemma touched_on_simulated_chip_witness :
  let d := Bench.legacy_hw_spi in
  let c : chip (simulator_of d) := Bench.pin_chip Bench.touched_regs in
  let r := Arduino.exec (answer (simulator_of d)) (touched d) c in
  (operational d /\ idle (simulator_of d) c)
  /\ res r = Done 0x04
  /\ idle (simulator_of d) (world r)
  /\ contents (simulator_of d) (world r)
     = store Bench.touched_regs CAP1188_MAIN 0.
Proof.
  intros d c r.
  assert (Hop : operational d) by (right; left; reflexivity).
  assert (Hidle : idle (simulator_of d) c) by reflexivity.
  split; [auto |].
  exact (@touched_on_simulated_chip d c Hop Hidle).
Defined.

(** ** A register write on the wire *)

Section SpiWritePhases.
Import Arduino.
Context {W : Type} (h : handler W).
Variable self : Legacy.Adafruit_CAP1188.

Lemma Legacy_spi_write_trace (reg value : Z) (w : W) :
  Legacy._i2c self = false ->
  let r := exec h (Legacy.writeRegister self reg value) w in
  exists t1 t2 t3 t4 r1 r2 r3 r4,
    byte_on_wire self 0x7D r1 t1 /\ byte_on_wire self reg r2 t2
    /\ byte_on_wire self 0x7E r3 t3 /\ byte_on_wire self value r4 t4
    /\ trace r
       = [EvSpiBeginTransaction (Legacy._spi self)
            (mkSPISettings 2000000 MSBFIRST SPI_MODE0)]
         ++ cs_bracket self (t1 ++ t2) ++ cs_bracket self (t3 ++ t4)
         ++ [EvSpiEndTransaction (Legacy._spi self)]
    /\ res r = Done tt.
Proof.
  intros Hspi. unfold Legacy.writeRegister. rewrite Hspi.
  set (w1 := snd (h (DigitalWrite (Legacy._cs self) LOW)
                    (snd (h (SpiBeginTransaction (Legacy._spi self)
                               (mkSPISettings 2000000 MSBFIRST SPI_MODE0))
                            w)))).
  destruct (spixfer_yields h self 0x7D w1) as (r1 & w2 & t1 & Y1 & B1).
  destruct (spixfer_yields h self reg w2) as (r2 & w3 & t2 & Y2 & B2).
  set (w4 := snd (h (DigitalWrite (Legacy._cs self) LOW)
                    (snd (h (DigitalWrite (Legacy._cs self) HIGH) w3)))).
  destruct (spixfer_yields h self 0x7E w4) as (r3 & w5 & t3 & Y3 & B3).
  destruct (spixfer_yields h self value w5) as (r4 & w6 & t4 & Y4 & B4).
  exists t1, t2, t3, t4, r1, r2, r3, r4.
  repeat (split; [assumption |]).
  assert (Y : yields h
    (Legacy.spi_begin self;;
     digitalWrite (Legacy._cs self) LOW;;
     Legacy.spixfer self 0x7D;;
     Legacy.spixfer self reg;;
     digitalWrite (Legacy._cs self) HIGH;;
     digitalWrite (Legacy._cs self) LOW;;
     Legacy.spixfer self 0x7E;;
     Legacy.spixfer self value;;
     digitalWrite (Legacy._cs self) HIGH;;
     Legacy.spi_end self) w
    (fst (h (SpiEndTransaction (Legacy._spi self))
            (snd (h (DigitalWrite (Legacy._cs self) HIGH) w6))))
    (snd (h (SpiEndTransaction (Legacy._spi self))
            (snd (h (DigitalWrite (Legacy._cs self) HIGH) w6))))
    ([EvSpiBeginTransaction (Legacy._spi self)
        (mkSPISettings 2000000 MSBFIRST SPI_MODE0)]
     ++ [EvDigitalWrite (Legacy._cs self) LOW]
     ++ t1 ++ t2
     ++ [EvDigitalWrite (Legacy._cs self) HIGH]
     ++ [EvDigitalWrite (Legacy._cs self) LOW]
     ++ t3 ++ t4
     ++ [EvDigitalWrite (Legacy._cs self) HIGH]
     ++ [EvSpiEndTransaction (Legacy._spi self)])).
  { eapply yields_bind; [apply yields_call |].
    eapply yields_bind; [apply yields_call |]. fold w1.
    eapply yields_bind; [exact Y1 |].
    eapply yields_bind; [exact Y2 |].
    eapply yields_bind; [apply yields_call |].
    eapply yields_bind; [apply yields_call |]. fold w4.
    eapply yields_bind; [exact Y3 |].
    eapply yields_bind; [exact Y4 |].
    eapply yields_bind; [apply yields_call |].
    apply (yields_call h (SpiEndTransaction (Legacy._spi self))). }
  unfold yields in Y. rewrite Y. cbn [trace res].
  split.
  - unfold cs_bracket. cbn [app]. rewrite <- !app_assoc. reflexivity.
  - destruct (fst _). reflexivity.
Qed.
End SpiWritePhases.

(** X11: a register write over SPI.  On the legacy implementation,
    hardware or bit-banged, inside one transaction at 2 MHz, MSB first,
    mode 0, chip-select is asserted twice: low, the bytes 0x7D and the
    register, high; low again, the bytes 0x7E and the value, high; what
    comes back during the four bytes is dropped.  On the BusIO
    implementation it is one [write] of the SPI device with the four bytes
    0x7D, register, 0x7E, value.  Neither reports a failure. *)
Theorem spi_write_phases
    (W : Type) (h : Arduino.handler W) (reg value : Z) (w : W) :
  (forall self : Legacy.Adafruit_CAP1188,
     Legacy._i2c self = false -> distinct_pins self ->
     let r := Arduino.exec h (writeRegister (LegacyDriver self) reg value) w in
     exists t1 t2 t3 t4 r1 r2 r3 r4,
       byte_on_wire self 0x7D r1 t1 /\ byte_on_wire self reg r2 t2
       /\ byte_on_wire self 0x7E r3 t3 /\ byte_on_wire self value r4 t4
       /\ trace r
          = [Arduino.EvSpiBeginTransaction (Legacy._spi self)
               (Arduino.mkSPISettings 2000000 Arduino.MSBFIRST
                                      Arduino.SPI_MODE0)]
            ++ cs_bracket self (t1 ++ t2) ++ cs_bracket self (t3 ++ t4)
            ++ [Arduino.EvSpiEndTransaction (Legacy._spi self)]
       /\ res r = Done tt
       /\ cs_brackets (LegacyDriver self) (trace r) = 2%nat)
  /\
  (forall (self : BusIO.Adafruit_CAP1188) (spi : Arduino.Adafruit_SPIDevice),
     BusIO.i2c_dev self = None -> BusIO.spi_dev self = Some spi ->
     let r := Arduino.exec h (writeRegister (BusIODriver self) reg value) w in
     exists ok,
       trace r = [Arduino.EvSpiDevWrite spi [0x7D; reg; 0x7E; value] ok]
       /\ res r = Done tt
       /\ cs_brackets (BusIODriver self) (trace r) = 1%nat).
Proof.
  split.
  - intros self Hspi Hpins r.
    destruct (Legacy_spi_write_trace h self reg value w Hspi)
      as (t1 & t2 & t3 & t4 & r1 & r2 & r3 & r4
          & B1 & B2 & B3 & B4 & Ht & Hres).
    exists t1, t2, t3, t4, r1, r2, r3, r4.
    repeat (split; [assumption |]).
    subst r. cbn [writeRegister cs_brackets]. rewrite Ht.
    unfold cs_bracket. rewrite !pin_writes_app.
    rewrite (@byte_leaves_cs self _ _ _ Hpins B1),
            (@byte_leaves_cs self _ _ _ Hpins B2),
            (@byte_leaves_cs self _ _ _ Hpins B3),
            (@byte_leaves_cs self _ _ _ Hpins B4).
    cbn. rewrite Z.eqb_refl. reflexivity.
  - intros self spi Hi2c Hspid r. subst r.
    cbn [writeRegister]. unfold BusIO.writeRegister. rewrite Hi2c, Hspid.
    eexists. cbn. repeat split.
Qed.

Lemma spi_write_phases_witness :
  let hc := PinChip.handle (PinMonitor.mkWiring 10 13 11 12) in
  let c := Bench.pin_chip power_up in
  let self := Legacy.new_SoftwareSPI Bench.zeroed 13 12 11 10 9 in
  let bus := BusIO.new_HardwareSPI 10 9 0 in
  let spi := Arduino.HardwareSPIDevice 10 2000000 Arduino.MSBFIRST
                                       Arduino.SPI_MODE0 0 in
  ((Legacy._i2c self = false /\ distinct_pins self)
   /\ cs_brackets (LegacyDriver self)
        (trace (Arduino.exec hc (writeRegister (LegacyDriver self) 0x72 0xFF)
                             c)) = 2%nat)
  /\ ((BusIO.i2c_dev bus = None /\ BusIO.spi_dev bus = Some spi)
      /\ exists ok,
           trace (Arduino.exec hc (writeRegister (BusIODriver bus) 0x72 0xFF)
                               c)
           = [Arduino.EvSpiDevWrite spi [0x7D; 0x72; 0x7E; 0xFF] ok]).
Proof.
  intros hc c self bus spi.
  assert (Hspi : Legacy._i2c self = false) by reflexivity.
  assert (Hpins : distinct_pins self).
  { right. cbn. repeat split; discriminate. }
  assert (Hi2c : BusIO.i2c_dev bus = None) by reflexivity.
  assert (Hdev : BusIO.spi_dev bus = Some spi) by reflexivity.
  destruct (@spi_write_phases _ hc 0x72 0xFF c) as [Hlegacy Hbusio].
  split.
  - split; [auto |].
    destruct (Hlegacy self Hspi Hpins)
      as (? & ? & ? & ? & ? & ? & ? & ? & _ & _ & _ & _ & _ & _ & Hn).
    exact Hn.
  - split; [auto |].
    destruct (Hbusio bus spi Hi2c Hdev) as (ok & Ht & _).
    exists ok. exact Ht.
Defined.

(** X12: a register write over I2C is one transaction on both
    implementations: on the legacy one a transmission to the address the
    instance holds that carries the register and the value and is ended by
    [endTransmission()]; on the BusIO one a [write] of the I2C device with
    the two bytes.  Neither reports a failure. *)
Theorem i2c_write_is_one_transaction
    (W : Type) (h : Arduino.handler W) (reg value : Z) (w : W) :
  (forall self : Legacy.Adafruit_CAP1188,
     Legacy._i2c self = true ->
     let r := Arduino.exec h (writeRegister (LegacyDriver self) reg value) w in
     trace r
     = [Arduino.EvWireBeginTransmission (Legacy._wire self)
                                        (Legacy._i2caddr self);
        Arduino.EvWireWrite (Legacy._wire self) reg;
        Arduino.EvWireWrite (Legacy._wire self) value;
        Arduino.EvWireEndTransmission (Legacy._wire self)]
     /\ res r = Done tt
     /\ i2c_transactions (trace r) = 1%nat)
  /\
  (forall (self : BusIO.Adafruit_CAP1188) (i2c : Arduino.Adafruit_I2CDevice),
     BusIO.i2c_dev self = Some i2c ->
     let r := Arduino.exec h (writeRegister (BusIODriver self) reg value) w in
     exists ok,
       trace r = [Arduino.EvI2cDevWrite i2c [reg; value] ok]
       /\ res r = Done tt
       /\ i2c_transactions (trace r) = 1%nat).
Proof.
  split.
  - intros self Hi2c r. subst r.
    cbn [writeRegister]. unfold Legacy.writeRegister, Legacy.i2cwrite.
    rewrite Hi2c. cbn. repeat split.
    destruct (fst _). reflexivity.
  - intros self i2c Hi2c r. subst r.
    cbn [writeRegister]. unfold BusIO.writeRegister. rewrite Hi2c.
    eexists. cbn. repeat split.
Qed.

Lemma i2c_write_is_one_transaction_witness :
  let self := Legacy.new_I2C Bench.zeroed 9 in
  let bus := BusIO.mkDriver (Some (Arduino.mkI2CDevice CAP1188_I2CADDR 0))
                            None (-1) in
  (Legacy._i2c self = true
   /\ i2c_transactions
        (trace (Arduino.exec WireChip.handle
                  (writeRegister (LegacyDriver self) 0x72 0xFF)
                  (Bench.wire_chip power_up))) = 1%nat)
  /\ (BusIO.i2c_dev bus = Some (Arduino.mkI2CDevice CAP1188_I2CADDR 0)
      /\ exists ok,
           trace (Arduino.exec WireChip.handle
                    (writeRegister (BusIODriver bus) 0x72 0xFF)
                    (Bench.wire_chip power_up))
           = [Arduino.EvI2cDevWrite (Arduino.mkI2CDevice CAP1188_I2CADDR 0)
                                    [0x72; 0xFF] ok]).
Proof.
  intros self bus.
  assert (Hi2c : Legacy._i2c self = true) by reflexivity.
  assert (Hdev : BusIO.i2c_dev bus
                 = Some (Arduino.mkI2CDevice CAP1188_I2CADDR 0))
    by reflexivity.
  destruct (@i2c_write_is_one_transaction _ WireChip.handle 0x72 0xFF
              (Bench.wire_chip power_up)) as [Hlegacy Hbusio].
  split.
  - split; [exact Hi2c |].
    exact (proj2 (proj2 (Hlegacy self Hi2c))).
  - split; [exact Hdev |].
    destruct (Hbusio bus _ Hdev) as (ok & Ht & _).
    exists ok. exact Ht.
Defined.

(** ** [begin] when nothing answers *)

Section Always.
Import Arduino.
Context {W : Type} (h : handler W).

Lemma always_ret {R} (r : R) : always h (Ret r) r.
Proof. intros w. reflexivity. Qed.

Lemma always_bind {A B} (p : io platformE A) (f : A -> io platformE B)
    (a : A) (b : B) :
  always h p a -> always h (f a) b -> always h (bind p f) b.
Proof.
  intros Hp Hf w. rewrite (exec_bind h p f w (Hp w)). cbn. apply Hf.
Qed.

Lemma always_unit (e : platformE unit) : always h (call e) tt.
Proof. intros w. cbn. destruct (fst (h e w)). reflexivity. Qed.

End Always.

Section NothingAnswers.
Import Arduino.
Context {W : Type} (h : handler W).
Variable l : bool.
Hypothesis silent : nothing_answers h l.
Variable self : Legacy.Adafruit_CAP1188.

Let stuck (reply : Z) : Z :=
  let reply := u8 (Z.shiftl reply 1) in
  if l then Z.lor reply 1 else reply.

Lemma spixfer_loop_stuck (data : Z) (n : nat) (reply : Z) :
  always h (Legacy.spixfer_loop self data n reply) (Nat.iter n stuck reply).
Proof.
  revert reply. induction n as [| n IH]; intros reply.
  - apply always_ret.
  - cbn [Legacy.spixfer_loop]. unfold digitalWrite, digitalRead.
    do 3 (eapply always_bind; [apply always_unit | cbn beta]).
    intros w. destruct silent as (_ & Hmiso & _).
    rewrite (exec_bind h _ _ w
               (a := fst (h (DigitalRead (Legacy._miso self)) w)))
      by reflexivity.
    cbn [res]. fold (level (fst (h (DigitalRead (Legacy._miso self)) w))).
    rewrite Hmiso. rewrite IH. f_equal.
    rewrite Nat.iter_succ_r. reflexivity.
Qed.

Lemma spixfer_stuck (data : Z) :
  always h (Legacy.spixfer self data) (if l then 0xFF else 0).
Proof.
  unfold Legacy.spixfer. destruct (Legacy._clk self =? -1).
  - intros w. cbn. destruct silent as (_ & _ & Hxfer). rewrite Hxfer.
    reflexivity.
  - intros w. rewrite spixfer_loop_stuck. subst stuck.
    destruct l; vm_compute; reflexivity.
Qed.

Lemma read_unanswered (reg : Z) :
  always h (Legacy.readRegister self reg) (unanswered self l).
Proof.
  unfold Legacy.readRegister, unanswered.
  destruct (Legacy._i2c self).
  - unfold Legacy.i2cwrite.
    do 4 (eapply always_bind; [apply always_unit | cbn beta]).
    intros w. cbn. destruct silent as (Hwire & _). rewrite Hwire.
    reflexivity.
  - unfold Legacy.spi_begin, Legacy.spi_end, digitalWrite.
    repeat first
      [ apply always_ret
      | eapply always_bind;
        [first [apply always_unit | apply spixfer_stuck] | cbn beta] ].
Qed.

Lemma unanswered_wrong : (unanswered self l =? 0x50) = false.
Proof. unfold unanswered. destruct (Legacy._i2c self), l; reflexivity. Qed.

Lemma begin_opened_unanswered (self' : Legacy.Adafruit_CAP1188) :
  (forall reg, always h (Legacy.readRegister self' reg) (unanswered self l)) ->
  always h (Legacy.begin_opened self') false.
Proof.
  intros Hrd. rewrite Legacy_begin_opened_eq.
  eapply always_bind with (a := tt).
  { unfold reset_pulse, pinMode, digitalWrite, delay.
    destruct (negb (Legacy._resetpin self' =? -1)).
    - repeat first [ apply always_unit
                   | eapply always_bind; [apply always_unit | cbn beta] ].
    - apply always_ret. }
  unfold identify, Serial_print, Serial_println_HEX.
  eapply always_bind; [apply Hrd | cbn beta].
  eapply always_bind; [apply always_unit | cbn beta].
  eapply always_bind; [apply Hrd | cbn beta].
  eapply always_bind; [apply always_unit | cbn beta].
  eapply always_bind; [apply always_unit | cbn beta].
  eapply always_bind; [apply Hrd | cbn beta].
  eapply always_bind; [apply always_unit | cbn beta].
  eapply always_bind; [apply always_unit | cbn beta].
  eapply always_bind; [apply Hrd | cbn beta].
  eapply always_bind; [apply always_unit | cbn beta].
  eapply always_bind; [apply Hrd | cbn beta].
  rewrite unanswered_wrong. apply always_ret.
Qed.
End NothingAnswers.

(** X13: when nothing answers on the bus, the legacy [begin] returns
    false.  With no byte for [Wire.read()] to hand out (it answers -1) a
    register read over I2C returns 0xFF; with MISO stuck at one level a
    register read over SPI, hardware or bit-banged, returns 0x00 or 0xFF;
    neither is the product ID 0x50, and [begin] returns false and leaves
    the object it leaves whenever it runs.  For every instance, whatever
    its pins. *)
Theorem begin_fails_when_nothing_answers
    (W : Type) (h : Arduino.handler W) (l : bool)
    (self : Legacy.Adafruit_CAP1188) (i2caddr : Z) (theWire : Arduino.ptr)
    (reg : Z) (w : W) :
  nothing_answers h l ->
  res (Arduino.exec h (Legacy.readRegister self reg) w)
  = Done (unanswered self l)
  /\ res (Arduino.exec h (Legacy.begin self i2caddr theWire) w)
     = Done (false, Legacy_begun self i2caddr theWire).
Proof.
  intros Hsilent. split; [apply (read_unanswered Hsilent self reg) |].
  revert w. change (always h (Legacy.begin self i2caddr theWire)
                           (false, Legacy_begun self i2caddr theWire)).
  unfold Legacy.begin, Legacy_begun.
  destruct (Legacy._i2c self) eqn:Hi2c.
  - eapply always_bind; [apply always_unit | cbn beta].
    eapply always_bind; [| apply always_ret].
    apply begin_opened_unanswered with (l := l) (self := self);
      [exact Hsilent |].
    intros r.
    match goal with
    | |- always _ (Legacy.readRegister ?s _) _ =>
        pose proof (read_unanswered Hsilent s r) as Hr
    end.
    unfold unanswered in *. cbn [Legacy._i2c] in Hr. rewrite Hi2c.
    exact Hr.
  - destruct (Legacy._clk self =? -1);
      unfold Arduino.pinMode, Arduino.digitalWrite;
      repeat (eapply always_bind; [apply always_unit | cbn beta]);
      (eapply always_bind; [| apply always_ret]);
      (apply begin_opened_unanswered with (l := l) (self := self);
       [exact Hsilent |]);
      intros r; apply (read_unanswered Hsilent self r).
Qed.

Lemma begin_fails_when_nothing_answers_witness :
  let self := Legacy.new_SoftwareSPI Bench.zeroed 13 12 11 10 9 in
  let c := Bench.busio_chip power_up in
  nothing_answers BusIOChip.handle false
  /\ res (Arduino.exec BusIOChip.handle
            (Legacy.readRegister self CAP1188_PRODID) c) = Done 0
  /\ res (Arduino.exec BusIOChip.handle
            (Legacy.begin self CAP1188_I2CADDR 0) c) = Done (false, self).
Proof.
  intros self c.
  assert (Hsilent : nothing_answers BusIOChip.handle false)
    by (repeat split).
  split; [exact Hsilent |].
  exact (@begin_fails_when_nothing_answers _ BusIOChip.handle false self
           CAP1188_I2CADDR 0 CAP1188_PRODID c Hsilent).
Defined.

(** ** A byte exchanged with the chip *)

(** X14: [spixfer] exchanges one byte with the simulated chip on the
    pins.  From a chip that is selected and at a byte boundary,
    [spixfer data] returns the byte the chip had to send and the chip has
    taken in [data], its eight bits in the order sent; the chip is at a
    byte boundary again, still selected.  Behind the SPI peripheral as on
    bit-banged pins, for three different pins and [data] of eight bits. *)
Theorem spixfer_exchanges_a_byte
    (self : Legacy.Adafruit_CAP1188) (data : Z) (k : spi_core)
    (c : PinChip.state) :
  distinct_pins self -> is_u8 data -> at_core k c ->
  let r := Arduino.exec (PinChip.handle (wiring_of self))
                        (Legacy.spixfer self data) c in
  res r = Done (core_miso k) /\ at_core (core_byte k data) (world r).
Proof.
  intros Hpins Hdata Hat r.
  destruct (spixfer_chip Hpins Hdata Hat) as (c' & [Hres Hworld] & Hat').
  subst r. rewrite Hworld. split; assumption.
Qed.

Lemma spixfer_exchanges_a_byte_witness :
  let self := Legacy.new_SoftwareSPI Bench.zeroed 13 12 11 10 9 in
  let k := mkCore power_up (mkSpiDecoder AwaitReadClock 0xFD) in
  let c := PinChip.mkState k true true false false [] in
  let r := Arduino.exec (PinChip.handle (wiring_of self))
                        (Legacy.spixfer self 0) c in
  (distinct_pins self /\ is_u8 0 /\ at_core k c)
  /\ res r = Done 0x50
  /\ at_core (core_byte k 0) (world r).
Proof.
  intros self k c r.
  assert (Hpins : distinct_pins self).
  { right. cbn. repeat split; discriminate. }
  assert (Hdata : is_u8 0) by (unfold is_u8; lia).
  assert (Hat : at_core k c) by (repeat split).
  split; [auto |].
  exact (@spixfer_exchanges_a_byte self 0 k c Hpins Hdata Hat).
Defined.

(** ** The example sketch *)

Section SketchFacts.
Import Arduino Sketch.

Lemma exec_lift {W R} (h : Sketch.handler W) (p : io platformE R) (w : W) :
  Sketch.exec h (lift p) w
  = let r := Arduino.exec (platform_of h) p w in
    mkResult (res r) (world r) (map EvPlatform (trace r)).
Proof.
  revert w. induction p as [r | X e k IH | u]; intros w; cbn.
  - reflexivity.
  - unfold Sketch.exec, Arduino.exec in IH. rewrite IH. reflexivity.
  - reflexivity.
Qed.

Lemma sketch_bind {W A B} (h : Sketch.handler W) (p : io sketchE A)
    (f : A -> io sketchE B) (w w1 : W) (a : A) (t : list sketch_event) :
  Sketch.exec h p w = mkResult (Done a) w1 t ->
  Sketch.exec h (bind p f) w
  = let r2 := Sketch.exec h (f a) w1 in
    mkResult (res r2) (world r2) (t ++ trace r2).
Proof.
  intros Hp. unfold Sketch.exec in *. rewrite run_bind. unfold and_then.
  rewrite Hp. reflexivity.
Qed.

(** The test of [loop] for channel [i + 1] is a test of bit [i]. *)
Lemma bit_mask (t i : Z) :
  0 <= i -> negb (Z.land t (Z.shiftl 1 i) =? 0) = Z.testbit t i.
Proof.
  intros Hi. rewrite Z.shiftl_1_l.
  destruct (Z.testbit t i) eqn:Hbit.
  - apply negb_true_iff, Z.eqb_neq. intros H0.
    assert (Ht : Z.testbit (Z.land t (2 ^ i)) i = true)
      by (rewrite Z.land_spec, Hbit, Z.pow2_bits_true by exact Hi;
          reflexivity).
    rewrite H0, Z.bits_0 in Ht. discriminate.
  - apply negb_false_iff, Z.eqb_eq. apply Z.bits_inj'. intros n Hn.
    rewrite Z.land_spec, Z.bits_0, Z.pow2_bits_eqb by exact Hi.
    destruct (Z.eqb_spec i n) as [-> | _].
    + rewrite Hbit. reflexivity.
    + apply andb_false_r.
Qed.

Lemma report_run {W} (h : Sketch.handler W) (t : Z) (n : nat) (i : Z)
    (w : W) :
  0 <= i ->
  exists w',
    Sketch.exec h (report t n i) w
    = mkResult (Done tt) w' (flat_map (channel_report t) (upfrom i n)).
Proof.
  revert i w. induction n as [| n IH]; intros i w Hi.
  - exists w. reflexivity.
  - cbn [report upfrom flat_map]. rewrite bit_mask by exact Hi.
    unfold channel_report at 1.
    destruct (Z.testbit t i).
    + match goal with
      | |- context [Sketch.exec h (bind ?p ?f) w] =>
          assert (Hp : exists w1,
            Sketch.exec h p w
            = mkResult (Done tt) w1
                [EvPlatform (EvSerialPrint "C"); EvSerialPrintNumber (i + 1);
                 EvPlatform (EvSerialPrint tab)])
      end.
      { eexists. cbn.
        repeat match goal with
               | |- context [fst ?x] =>
                   match type of (fst x) with
                   | unit => destruct (fst x)
                   end
               end.
        reflexivity. }
      destruct Hp as (w1 & Hp).
      destruct (IH (i + 1) w1 ltac:(lia)) as (w' & Hrest).
      exists w'. erewrite sketch_bind; [| exact Hp]. cbn zeta.
      rewrite Hrest. reflexivity.
    + destruct (IH (i + 1) w ltac:(lia)) as (w' & Hrest).
      exists w'.
      erewrite sketch_bind; [| reflexivity]. cbn zeta.
      rewrite Hrest. reflexivity.
Qed.

Lemma call_run {W X} (h : Sketch.handler W) (e : sketchE X) (w : W) :
  Sketch.exec h (call e) w
  = mkResult (Done (fst (h X e w))) (snd (h X e w))
             [Sketch.log e (fst (h X e w))].
Proof. reflexivity. Qed.
End SketchFacts.

(** X15: what [loop] of the example sketch reports.  When the flag
    [interrupt] reads false, [loop] only waits 50 ms: it makes no call of
    the driver and does not write the flag.  When it reads true and
    [touched] returns [t], [loop] prints, for each of the bits 0 to 7 of
    [t] that is set and in this order, [C], the number of the bit plus one
    and a tab; then it ends the line, writes false to the flag and waits
    50 ms.  In every environment. *)
Theorem loop_reports_touches
    (W : Type) (hs : Sketch.handler W) (cap : driver) (w : W) :
  let hp := Sketch.platform_of hs in
  let flag := fst (hs _ Sketch.LoadInterrupt w) in
  let w1 := snd (hs _ Sketch.LoadInterrupt w) in
  let r := Sketch.exec hs (Sketch.loop cap) w in
  (flag = false ->
   res r = Done tt
   /\ trace r = [Sketch.EvLoadInterrupt false;
                 Sketch.EvPlatform (Arduino.EvDelay 50)])
  /\ (forall t : Z,
        flag = true ->
        res (Arduino.exec hp (touched cap) w1) = Done t ->
        res r = Done tt
        /\ trace r
           = Sketch.EvLoadInterrupt true
             :: map Sketch.EvPlatform
                    (trace (Arduino.exec hp (touched cap) w1))
             ++ flat_map (Sketch.channel_report t) [0; 1; 2; 3; 4; 5; 6; 7]
             ++ [Sketch.EvSerialNewline; Sketch.EvStoreInterrupt false;
                 Sketch.EvPlatform (Arduino.EvDelay 50)]).
Proof.
  intros hp flag w1 r.
  assert (Hload : Sketch.exec hs (call Sketch.LoadInterrupt) w
                  = mkResult (Done flag) w1 [Sketch.EvLoadInterrupt flag])
    by reflexivity.
  assert (Hdelay : forall w2,
    Sketch.exec hs (Sketch.lift (Arduino.delay 50)) w2
    = mkResult (Done tt)
               (snd (hs _ (Sketch.Platform (Arduino.Delay 50)) w2))
               [Sketch.EvPlatform (Arduino.EvDelay 50)]).
  { intros w2. cbn.
    destruct (fst (hs unit (Sketch.Platform (Arduino.Delay 50)) w2)).
    reflexivity. }
  subst r. unfold Sketch.loop.
  erewrite sketch_bind; [| exact Hload]. cbn zeta.
  split.
  - intros Hflag. rewrite Hflag.
    erewrite sketch_bind; [| reflexivity]. cbn zeta.
    rewrite Hdelay. split; reflexivity.
  - intros t Hflag Ht. rewrite Hflag.
    pose proof (exec_lift hs (touched cap) w1) as Hlift.
    cbv zeta in Hlift. fold hp in Hlift. rewrite Ht in Hlift.
    destruct (@report_run _ hs t 8 0
                (world (Arduino.exec hp (touched cap) w1)) ltac:(lia))
      as (w3 & Hrep).
    match goal with
    | |- context [Sketch.exec hs (bind ?p ?f) w1] =>
        assert (Hblock : exists w4,
          Sketch.exec hs p w1
          = mkResult (Done tt) w4
              (map Sketch.EvPlatform
                   (trace (Arduino.exec hp (touched cap) w1))
               ++ flat_map (Sketch.channel_report t)
                           [0; 1; 2; 3; 4; 5; 6; 7]
               ++ [Sketch.EvSerialNewline; Sketch.EvStoreInterrupt false]))
    end.
    { eexists.
      erewrite sketch_bind; [| exact Hlift]. cbn zeta.
      erewrite sketch_bind; [| exact Hrep]. cbn zeta.
      erewrite sketch_bind; [| apply call_run]. cbn zeta.
      rewrite call_run. cbn [res world trace Sketch.log].
      repeat match goal with
             | |- context [fst ?x] =>
                 match type of (fst x) with
                 | unit => destruct (fst x)
                 end
             end.
      reflexivity. }
    destruct Hblock as (w4 & Hblock).
    erewrite sketch_bind; [| exact Hblock]. cbn zeta.
    rewrite Hdelay. cbn [res trace]. split; [reflexivity |].
    cbn [app]. f_equal. rewrite <- !app_assoc. reflexivity.
Qed.

Lemma loop_reports_touches_witness :
  let hs := Sketch.board BusIOChip.handle in
  let cap := Bench.busio_i2c_begun in
  let w := (Bench.busio_chip Bench.touched_regs, true) in
  let r := Sketch.exec hs (Sketch.loop cap) w in
  (fst (hs _ Sketch.LoadInterrupt w) = true
   /\ res (Arduino.exec (Sketch.platform_of hs) (touched cap)
                        (snd (hs _ Sketch.LoadInterrupt w))) = Done 0x04)
  /\ res r = Done tt
  /\ trace r
     = Sketch.EvLoadInterrupt true
       :: map Sketch.EvPlatform
              (trace (Arduino.exec (Sketch.platform_of hs) (touched cap)
                                   (snd (hs _ Sketch.LoadInterrupt w))))
       ++ [Sketch.EvPlatform (Arduino.EvSerialPrint "C");
           Sketch.EvSerialPrintNumber 3;
           Sketch.EvPlatform (Arduino.EvSerialPrint Sketch.tab)]
       ++ [Sketch.EvSerialNewline; Sketch.EvStoreInterrupt false;
           Sketch.EvPlatform (Arduino.EvDelay 50)].
Proof.
  intros hs cap w r.
  assert (Hflag : fst (hs _ Sketch.LoadInterrupt w) = true) by reflexivity.
  assert (Ht : res (Arduino.exec (Sketch.platform_of hs) (touched cap)
                                 (snd (hs _ Sketch.LoadInterrupt w)))
               = Done 0x04) by (vm_compute; reflexivity).
  split; [auto |].
  exact (proj2 (@loop_reports_touches _ hs cap w) 0x04 Hflag Ht).
Defined.

Section SketchOnBoard.
Import Arduino Sketch.

Lemma board_exec {W R} (hp : Arduino.handler W) (p : io platformE R)
    (w : W) (flag : bool) :
  Arduino.exec (platform_of (board hp)) p (w, flag)
  = let r := Arduino.exec hp p w in
    mkResult (res r) (world r, flag) (trace r).
Proof.
  revert w. induction p as [r | X e k IH | u]; intros w; cbn.
  - reflexivity.
  - unfold Arduino.exec in IH. rewrite IH. reflexivity.
  - reflexivity.
Qed.
End SketchOnBoard.

(** X16: [setup] of the example sketch against the simulated chip of
    its transport.  It opens the console at 9600 baud, announces the test
    and calls [begin] with the default address 0x29.  On a chip whose
    identity registers hold 0x50, 0x5D, 0x83 it prints that the chip was
    found, makes pin 3 an input, attaches the interrupt routine to it for
    falling edges and returns, the chip being configured.  On any other
    chip it prints that no chip was found and stays in its endless loop:
    pin 3 is not touched, no interrupt is attached, and the chip is as it
    was. *)
Theorem setup_on_simulated_chip
    (cap : driver) (Wire : Arduino.ptr) (c : chip (simulator_of cap))
    (flag : bool) :
  installable cap -> idle (simulator_of cap) c ->
  let rf := contents (simulator_of cap) c in
  let hs := Sketch.board (answer (simulator_of cap)) in
  let r := Sketch.exec hs (Sketch.setup Wire cap) (c, flag) in
  exists cap',
    res r = Done (if genuine rf then Sketch.Returns else Sketch.Spins, cap')
    /\ trace r
       = [Sketch.EvSerialBegin 9600; Sketch.EvSerialPrintln "CAP1188 test!"]
         ++ map Sketch.EvPlatform
                (trace (Arduino.exec (answer (simulator_of cap))
                          (begin cap CAP1188_I2CADDR Wire) c))
         ++ (if genuine rf then
               [Sketch.EvSerialPrintln "CAP1188 found!";
                Sketch.EvPlatform (Arduino.EvPinMode 3 Arduino.INPUT);
                Sketch.EvAttachInterrupt 3 Sketch.FALLING]
             else [Sketch.EvSerialPrintln "CAP1188 not found"])
    /\ contents (simulator_of cap) (fst (world r))
       = (if genuine rf then configured rf else rf)
    /\ snd (world r) = flag.
Proof.
  intros Hinst Hidle rf hs r.
  destruct (@begin_on_chip CAP1188_I2CADDR Wire rf cap Hinst c
              (conj Hidle eq_refl))
    as ([b cap'] & c' & [Hres Hworld] & Hb & Hidle' & Hrf').
  cbn [fst] in Hb. subst b.
  pose proof (exec_lift hs (begin cap CAP1188_I2CADDR Wire) (c, flag))
    as Hlift.
  cbv zeta in Hlift. subst hs. rewrite board_exec in Hlift.
  cbv zeta in Hlift. cbn [res world trace] in Hlift.
  rewrite Hres, Hworld in Hlift.
  exists cap'.
  subst r. unfold Sketch.setup.
  erewrite sketch_bind; [| apply call_run]. cbn zeta.
  erewrite sketch_bind; [| apply call_run]. cbn zeta.
  cbn [Sketch.board fst snd].
  erewrite sketch_bind; [| exact Hlift]. cbn zeta.
  cbn [fst snd negb].
  destruct (genuine rf); cbn [negb].
  - assert (Hmode : Sketch.exec (Sketch.board (answer (simulator_of cap)))
                      (Sketch.lift (Arduino.pinMode 3 Arduino.INPUT))
                      (c', flag)
                    = mkResult (Done tt) (c', flag)
                        [Sketch.EvPlatform
                           (Arduino.EvPinMode 3 Arduino.INPUT)]).
    { destruct (chip_ignores cap c') as (_ & _ & Hmode & _).
      cbn. rewrite Hmode. reflexivity. }
    erewrite sketch_bind; [| apply call_run]. cbn zeta.
    cbn [Sketch.board fst snd].
    erewrite sketch_bind; [| exact Hmode]. cbn zeta.
    erewrite sketch_bind; [| apply call_run]. cbn zeta.
    cbn [Sketch.board Sketch.exec run res world trace fst snd Sketch.log
         app map].
    repeat split. exact Hrf'.
  - erewrite sketch_bind; [| apply call_run]. cbn zeta.
    cbn [Sketch.board Sketch.exec run res world trace fst snd Sketch.log
         app map].
    repeat split. exact Hrf'.
Qed.

Lemma setup_on_simulated_chip_witness :
  let cap := Bench.busio_i2c in
  let c : chip (simulator_of cap) := Bench.busio_chip power_up in
  let hs := Sketch.board (answer (simulator_of cap)) in
  let r := Sketch.exec hs (Sketch.setup 0 cap) (c, false) in
  (installable cap /\ idle (simulator_of cap) c)
  /\ exists cap',
       res r = Done (Sketch.Returns, cap')
       /\ trace r
          = [Sketch.EvSerialBegin 9600;
             Sketch.EvSerialPrintln "CAP1188 test!"]
            ++ map Sketch.EvPlatform
                   (trace (Arduino.exec (answer (simulator_of cap))
                             (begin cap CAP1188_I2CADDR 0) c))
            ++ [Sketch.EvSerialPrintln "CAP1188 found!";
                Sketch.EvPlatform (Arduino.EvPinMode 3 Arduino.INPUT);
                Sketch.EvAttachInterrupt 3 Sketch.FALLING]
       /\ contents (simulator_of cap) (fst (world r)) = configured power_up
       /\ snd (world r) = false.
Proof.
  intros cap c hs r.
  assert (Hinst : installable cap) by exact I.
  assert (Hidle : idle (simulator_of cap) c) by exact I.
  split; [auto |].
  exact (@setup_on_simulated_chip cap 0 c false Hinst Hidle).
Defined.

(** X17: the interrupt flag of the example sketch, on a board where
    only the sketch writes it.  Once the interrupt routine has run, [loop]
    reads the sensor, reports the channels of the status byte, and leaves
    the flag false and the interrupt of the chip acknowledged: MAIN has
    lost bit 0 when the status byte was not zero.  A [loop] that finds the
    flag false leaves the chip and the flag as they are. *)
Theorem interrupt_then_loop
    (cap : driver) (c : chip (simulator_of cap)) (flag : bool) :
  operational cap -> idle (simulator_of cap) c ->
  let rf := contents (simulator_of cap) c in
  let hs := Sketch.board (answer (simulator_of cap)) in
  let r := Sketch.exec hs (Sketch.routine_Interrupt_CAP1188;;
                           Sketch.loop cap) (c, flag) in
  let idle_r := Sketch.exec hs (Sketch.loop cap) (c, false) in
  (res r = Done tt
   /\ snd (world r) = false
   /\ contents (simulator_of cap) (fst (world r)) = acknowledged rf
   /\ trace r
      = [Sketch.EvStoreInterrupt true; Sketch.EvLoadInterrupt true]
          ++ map Sketch.EvPlatform
                 (trace (Arduino.exec (answer (simulator_of cap))
                           (touched cap) c))
          ++ flat_map (Sketch.channel_report
                         (u8 (rf CAP1188_SENINPUTSTATUS)))
                      [0; 1; 2; 3; 4; 5; 6; 7]
          ++ [Sketch.EvSerialNewline; Sketch.EvStoreInterrupt false;
              Sketch.EvPlatform (Arduino.EvDelay 50)])
  /\ (idle_r = mkResult (Done tt) (c, false)
                [Sketch.EvLoadInterrupt false;
                 Sketch.EvPlatform (Arduino.EvDelay 50)]).
Proof.
  intros Hop Hidle rf hs r idle_r.
  destruct (chip_ignores cap c) as (_ & _ & _ & Hdelay & _).
  split.
  - destruct (@touched_on_chip cap rf Hop c (conj Hidle eq_refl))
      as (t & c' & [Hres Hworld] & Ht & Hidle' & Hrf').
    subst t.
    destruct (chip_ignores cap c') as (_ & _ & _ & Hdelay' & _).
    pose proof (exec_lift hs (touched cap) (c, true)) as Hlift.
    cbv zeta in Hlift. subst hs. rewrite board_exec in Hlift.
    cbv zeta in Hlift. cbn [res world trace] in Hlift.
    rewrite Hres, Hworld in Hlift.
    destruct (@report_run _ (Sketch.board (answer (simulator_of cap)))
                (u8 (rf CAP1188_SENINPUTSTATUS)) 8 0 (c', true)
                ltac:(lia)) as (w3 & Hrep).
    assert (Hw3 : w3 = (c', true)).
    { clear - Hrep.
      assert (Hkeep : forall n i (w : chip (simulator_of cap) * bool),
        world (Sketch.exec (Sketch.board (answer (simulator_of cap)))
                 (Sketch.report (u8 (rf CAP1188_SENINPUTSTATUS)) n i) w)
        = w).
      { induction n as [| n IH]; intros i w; [reflexivity |].
        cbn [Sketch.report]. unfold Sketch.exec. rewrite run_bind.
        unfold and_then.
        destruct (negb _).
        - cbn. destruct (chip_ignores cap (fst w)) as (Hprint & _).
          rewrite !Hprint. cbn. fold (Sketch.exec
            (Sketch.board (answer (simulator_of cap)))
            (Sketch.report (u8 (rf CAP1188_SENINPUTSTATUS)) n (i + 1))
            (fst w, snd w)).
          rewrite IH. destruct w; reflexivity.
        - cbn. apply IH. }
      specialize (Hkeep 8%nat 0 (c', true)). rewrite Hrep in Hkeep.
      exact Hkeep. }
    subst w3. subst r.
    erewrite sketch_bind; [| apply call_run]. cbn zeta.
    cbn [Sketch.board fst snd Sketch.log].
    unfold Sketch.loop.
    erewrite sketch_bind; [| apply call_run]. cbn zeta.
    cbn [Sketch.board fst snd Sketch.log].
    match goal with
    | |- context [Sketch.exec ?h (bind ?p ?f) (c, true)] =>
        assert (Hblock :
          Sketch.exec h p (c, true)
          = mkResult (Done tt) (c', false)
              (map Sketch.EvPlatform
                   (trace (Arduino.exec (answer (simulator_of cap))
                                        (touched cap) c))
               ++ flat_map (Sketch.channel_report
                              (u8 (rf CAP1188_SENINPUTSTATUS)))
                           [0; 1; 2; 3; 4; 5; 6; 7]
               ++ [Sketch.EvSerialNewline; Sketch.EvStoreInterrupt false]))
    end.
    { erewrite sketch_bind; [| exact Hlift]. cbn zeta.
      erewrite sketch_bind; [| exact Hrep]. cbn zeta.
      erewrite sketch_bind; [| apply call_run]. cbn zeta.
      rewrite call_run. reflexivity. }
    erewrite sketch_bind; [| exact Hblock]. cbn zeta.
    cbn [Sketch.lift Arduino.delay call Sketch.exec run res world trace
         Sketch.board fst snd Sketch.log Arduino.log].
    rewrite Hdelay'. cbn [fst snd app].
    split; [reflexivity |]. split; [reflexivity |].
    split; [exact Hrf' |].
    rewrite <- !app_assoc. reflexivity.
  - subst idle_r hs. unfold Sketch.loop.
    erewrite sketch_bind; [| apply call_run]. cbn zeta.
    cbn [Sketch.board fst snd Sketch.log].
    erewrite sketch_bind; [| reflexivity]. cbn zeta.
    cbn [Sketch.lift Arduino.delay call Sketch.exec run res world trace
         Sketch.board fst snd Sketch.log Arduino.log].
    rewrite Hdelay. reflexivity.
Qed.

Lemma interrupt_then_loop_witness :
  let cap := Bench.legacy_i2c in
  let c : chip (simulator_of cap) := Bench.wire_chip Bench.touched_regs in
  let hs := Sketch.board (answer (simulator_of cap)) in
  let r := Sketch.exec hs (Sketch.routine_Interrupt_CAP1188;;
                           Sketch.loop cap) (c, false) in
  (operational cap /\ idle (simulator_of cap) c)
  /\ res r = Done tt
  /\ snd (world r) = false
  /\ contents (simulator_of cap) (fst (world r))
     = store Bench.touched_regs CAP1188_MAIN 0.
Proof.
  intros cap c hs r.
  assert (Hop : operational cap) by (left; reflexivity).
  assert (Hidle : idle (simulator_of cap) c) by reflexivity.
  split; [auto |].
  destruct (@interrupt_then_loop cap c false Hop Hidle)
    as [(Hres & Hflag & Hrf & _) _].
  split; [exact Hres |]. split; [exact Hflag | exact Hrf].
Defined.
